(** * Resumable batch ingestion: the scraper's orchestrator, fetcher and
      persistence gateway

    A shallow embedding of
      - [src/scraper/src/batch_scraper.py]   (class [BatchScraper])
      - [src/scraper/src/scrapers/mimedb.py] (class [MimeDBScraper])
    Python integers are [Z] ([//] is [Z.div], which rounds down as Python
    does), dicts are [gmap string _], sets are [gset string], lists are
    lists.  The outside world (HTTP server, HTML parser, database faults)
    is an oracle record [Env]; effects are threaded through a state and
    exception monad [M] whose state also records a trace of the calls
    made. *)

From Stdlib Require Import ZArith Lia.
From stdpp Require Import gmap strings list fin_maps sorting.

(* [set_solver] clears hypotheses by name; the notice it prints is noise. *)
#[global] Set Warnings "-clear-no-such-hyp".

Local Open Scope string_scope.
Local Open Scope list_scope.
Local Open Scope Z_scope.

(** ** Python list primitives *)

(** [l[start:stop]] with Python's treatment of negative and out-of-range
    bounds (step 1). *)
Definition py_slice {A : Type} (l : list A) (start stop : Z) : list A :=
  let n := Z.of_nat (length l) in
  let norm := fun i : Z => if i <? 0 then Z.max (i + n) 0 else Z.min i n in
  let a := norm start in
  let b := norm stop in
  take (Z.to_nat (b - a)) (drop (Z.to_nat a) l).

(** [range(start, stop)] *)
Definition py_range (start stop : Z) : list Z :=
  (fun i : nat => start + Z.of_nat i) <$> seq 0 (Z.to_nat (stop - start)).

(** ** Batch arithmetic of [process_batches] (lines 103-114) *)

(** line 103: [(len(bacteria_ids) + self.batch_size - 1) // self.batch_size] *)
Definition total_batches (len batch_size : Z) : Z :=
  (len + batch_size - 1) / batch_size.

(** line 106: [(last_idx + 1) // self.batch_size] *)
Definition start_batch (last_idx batch_size : Z) : Z :=
  (last_idx + 1) / batch_size.

(** line 112 *)
Definition batch_start (batch_size batch_idx : Z) : Z :=
  batch_idx * batch_size.

(** line 113 *)
Definition batch_end (batch_size len batch_idx : Z) : Z :=
  Z.min (batch_start batch_size batch_idx + batch_size) len.

(** line 114: [bacteria_ids[batch_start:batch_end]] *)
Definition batch_ids (batch_size : Z) (bacteria_ids : list string)
    (batch_idx : Z) : list string :=
  py_slice bacteria_ids
    (batch_start batch_size batch_idx)
    (batch_end batch_size (Z.of_nat (length bacteria_ids)) batch_idx).

(** line 110: the batch indices the loop visits, in order *)
Definition batch_indices (batch_size last_idx : Z)
    (bacteria_ids : list string) : list Z :=
  py_range (start_batch last_idx batch_size)
           (total_batches (Z.of_nat (length bacteria_ids)) batch_size).

(** lines 92-94: [if max_bacteria and max_bacteria < len(bacteria_ids)] *)
Definition apply_limit (max_bacteria : option Z) (bacteria_ids : list string)
    : list string :=
  match max_bacteria with
  | Some m =>
      if negb (m =? 0) && (m <? Z.of_nat (length bacteria_ids))
      then py_slice bacteria_ids 0 m
      else bacteria_ids
  | None => bacteria_ids
  end.

(** ** Data model *)

(** A Python value stored in an attribute dictionary ([parse_bacteria_page]
    produces strings, booleans, floats and [None]).  A float is carried by
    its printed form; no claim computes with it. *)
Inductive pyval :=
| PNone
| PBool (b : bool)
| PStr (s : string)
| PFloat (repr : string).

#[global] Instance pyval_eq_dec : EqDecision pyval.
Proof. solve_decision. Defined.

(** [bacteria_data]: the extractor's output, a Python dict from attribute
    name to value.  A stored row of table [bacteria] is the same kind of
    map, from column name to value. *)
Abbreviation Dict := (gmap string pyval).

(** Modelled from the spec: the scraper's own [src/models.py] (classes
    [Bacteria] and [ScrapeLog]) is not among the sources.  The columns are
    the persistence record shape of the spec's section 6, which is also the
    [Bacteria] declaration of [src/backend/app/models/bacteria.py].  They
    decide [hasattr(existing, key)] and which keywords the constructor
    [Bacteria] accepts. *)
Definition Bacteria_columns : gset string :=
  list_to_set
    [ "id"; "bacteria_id"; "name";
      "superkingdom"; "kingdom"; "phylum"; "class_name"; "order"; "family";
      "genus"; "species"; "strain";
      "gram_stain"; "shape"; "mobility"; "flagellar_presence";
      "number_of_membranes"; "oxygen_preference"; "optimal_temperature";
      "temperature_range"; "habitat"; "biotic_relationship";
      "cell_arrangement"; "sporulation"; "metabolism"; "energy_source";
      "is_pathogen"; "created_at"; "updated_at" ].

(** The value of a column of a row; a column never assigned is NULL. *)
Definition col (row : Dict) (key : string) : pyval :=
  default PNone (row !! key).

(** The persisted progress snapshot (the JSON object of [_save_progress]). *)
Module Progress.
Record t := mk {
  last_processed_idx : Z;
  successful_ids : list string;
  failed_ids : list string
}.
End Progress.

#[global] Instance Progress_eq_dec : EqDecision Progress.t.
Proof. solve_decision. Defined.

(** What [self.progress_file] holds on disk between runs of this program:
    nothing, a file for which [open] or [json.load] raises ([Unreadable]),
    or the record a run wrote.  A file holding well-formed JSON of another
    shape is not one of these: [_load_progress] returns it as it is and
    lines 98-100 raise before any batch is touched; [FileContent] and
    [load_locals_json] below cover it. *)
Inductive FileState :=
| NoFile
| Unreadable
| Stored (p : Progress.t).

(** Modelled from the spec: [ScrapeLog] of the scraper's [src/models.py] is
    not among the sources; this is the RunSummary of the spec's section 3,
    with the attribute names [process_batches] assigns.  [end_time] holds a
    logical time: the number of calls traced when it was set. *)
Record ScrapeLog := mkScrapeLog {
  end_time : option nat;
  total_urls : option nat;
  successful_scrapes : option nat;
  failed_scrapes : option nat;
  error_message : option string
}.

Definition new_scrape_log : ScrapeLog :=
  mkScrapeLog None None None None None.

(** Python exceptions: [KeyboardInterrupt] is a [BaseException] that
    [except Exception] does not catch; everything else that can arise here
    is an [Exception], carried with its [str(e)]. *)
Inductive exn :=
| KeyboardInterrupt
| Exception (msg : string).

Inductive result (A : Type) :=
| Ok (a : A)
| Raise (e : exn).
Arguments Ok {A} a.
Arguments Raise {A} e.

(** What [requests.get] does on one call. *)
Inductive http_result :=
| HttpResponse (status_code : Z) (text : string)
| HttpError (msg : string)          (* any [Exception]: transport, timeout *)
| HttpInterrupt.                    (* the operator interrupts the call *)

(** The calls a run makes, in order. *)
Inductive event :=
| EvSleep                                   (* time.sleep(self.delay) *)
| EvGet (url : string)                      (* requests.get(url, ...) *)
| EvScrape (bacteria_id : string)           (* scraper.scrape_bacteria(id) *)
| EvSaveBatch (batch_data : list Dict)      (* self._save_batch_to_db(...) *)
| EvCommit                                  (* db_session.commit() *)
| EvRollback                                (* db_session.rollback() *)
| EvSaveProgress (p : Progress.t).          (* self._save_progress(p) *)

(** The outside world.  [requests_get n url] is the outcome of the [n]-th
    call of [requests.get] of the process, [commit_ok n] says whether the
    [n]-th [db_session.commit()] goes through, [parse_bacteria_page] is
    the HTML extractor ([None]: it raises). *)
Record Env := mkEnv {
  requests_get : nat -> string -> http_result;
  parse_bacteria_page : string -> option Dict;
  commit_ok : nat -> bool
}.

(** The state a run threads: counters of the oracle, the trace, the
    database and progress file, the in-memory [self.scrape_log], and the
    local variables of [process_batches] that its [except] and [finally]
    clauses read after a failure. *)
Record State := mkState {
  http_calls : nat;
  commit_calls : nat;
  trace : list event;
  db : list Dict;                     (* committed rows of table bacteria *)
  progress_file : FileState;
  scrape_log : ScrapeLog;
  successful_ids : gset string;       (* local [successful_ids] *)
  failed_ids : gset string;           (* local [failed_ids] *)
  progress : Progress.t               (* local [progress] *)
}.

Definition zero_progress : Progress.t :=
  Progress.mk (-1) [] [].

Definition initial_state (rows : list Dict) (file : FileState) : State :=
  mkState 0 0 [] rows file new_scrape_log ∅ ∅ zero_progress.

(** ** The monad *)

Definition M (A : Type) : Type := State -> result A * State.

Definition ret {A} (a : A) : M A := fun s => (Ok a, s).

Definition raise {A} (e : exn) : M A := fun s => (Raise e, s).

Definition bind {A B} (m : M A) (f : A -> M B) : M B :=
  fun s =>
    match m s with
    | (Ok a, s1) => f a s1
    | (Raise e, s1) => (Raise e, s1)
    end.

Notation "x <- m ;; k" := (bind m (fun x => k))
  (at level 100, m at next level, right associativity).
Notation "m ;;; k" := (bind m (fun _ => k))
  (at level 100, right associativity).

Definition get : M State := fun s => (Ok s, s).

Definition modify (f : State -> State) : M unit := fun s => (Ok tt, f s).

(** [try: m  except Exception as e: h e] ([KeyboardInterrupt] passes). *)
Definition try_except_Exception {A} (m : M A) (h : string -> M A) : M A :=
  fun s =>
    match m s with
    | (Raise (Exception msg), s1) => h msg s1
    | other => other
    end.

(** [try: m  except KeyboardInterrupt: hk  except Exception as e: he e] *)
Definition try_except_both {A} (m : M A) (hk : M A) (he : string -> M A)
    : M A :=
  fun s =>
    match m s with
    | (Raise KeyboardInterrupt, s1) => hk s1
    | (Raise (Exception msg), s1) => he msg s1
    | other => other
    end.

(** [try: m  finally: fin] *)
Definition try_finally {A} (m : M A) (fin : M unit) : M A :=
  fun s =>
    match m s with
    | (r, s1) =>
        match fin s1 with
        | (Ok _, s2) => (r, s2)
        | (Raise e, s2) => (Raise e, s2)
        end
    end.

(** [for x in xs: body x] ([continue] is [body] returning early). *)
Fixpoint for_each {A} (xs : list A) (body : A -> M unit) : M unit :=
  match xs with
  | [] => ret tt
  | x :: rest => body x ;;; for_each rest body
  end.

(** State updates *)
Definition add_event (e : event) (s : State) : State :=
  mkState (http_calls s) (commit_calls s) (trace s ++ [e]) (db s)
          (progress_file s) (scrape_log s)
          (successful_ids s) (failed_ids s) (progress s).

Definition put_db (rows : list Dict) (s : State) : State :=
  mkState (http_calls s) (commit_calls s) (trace s) rows
          (progress_file s) (scrape_log s)
          (successful_ids s) (failed_ids s) (progress s).

Definition put_progress_file (f : FileState) (s : State) : State :=
  mkState (http_calls s) (commit_calls s) (trace s) (db s)
          f (scrape_log s)
          (successful_ids s) (failed_ids s) (progress s).

Definition put_scrape_log (l : ScrapeLog) (s : State) : State :=
  mkState (http_calls s) (commit_calls s) (trace s) (db s)
          (progress_file s) l
          (successful_ids s) (failed_ids s) (progress s).

Definition put_successful_ids (x : gset string) (s : State) : State :=
  mkState (http_calls s) (commit_calls s) (trace s) (db s)
          (progress_file s) (scrape_log s)
          x (failed_ids s) (progress s).

Definition put_failed_ids (x : gset string) (s : State) : State :=
  mkState (http_calls s) (commit_calls s) (trace s) (db s)
          (progress_file s) (scrape_log s)
          (successful_ids s) x (progress s).

Definition put_progress (p : Progress.t) (s : State) : State :=
  mkState (http_calls s) (commit_calls s) (trace s) (db s)
          (progress_file s) (scrape_log s)
          (successful_ids s) (failed_ids s) p.

Definition count_http (s : State) : State :=
  mkState (S (http_calls s)) (commit_calls s) (trace s) (db s)
          (progress_file s) (scrape_log s)
          (successful_ids s) (failed_ids s) (progress s).

Definition count_commit (s : State) : State :=
  mkState (http_calls s) (S (commit_calls s)) (trace s) (db s)
          (progress_file s) (scrape_log s)
          (successful_ids s) (failed_ids s) (progress s).

Definition emit (e : event) : M unit := modify (add_event e).
Definition set_db (rows : list Dict) : M unit := modify (put_db rows).
Definition set_progress_file (f : FileState) : M unit :=
  modify (put_progress_file f).
Definition set_scrape_log (l : ScrapeLog) : M unit :=
  modify (put_scrape_log l).
Definition set_successful_ids (x : gset string) : M unit :=
  modify (put_successful_ids x).
Definition set_failed_ids (x : gset string) : M unit :=
  modify (put_failed_ids x).
Definition set_progress (p : Progress.t) : M unit :=
  modify (put_progress p).

(** The number of the call the oracle is about to answer. *)
Definition tick_http : M nat :=
  fun s => (Ok (http_calls s), count_http s).
Definition tick_commit : M nat :=
  fun s => (Ok (commit_calls s), count_commit s).

Section Program.

Context (env : Env).

(** ** Fetcher: [MimeDBScraper.get_page] (mimedb.py, lines 35-57) *)

Definition BASE_URL : string := "https://mimedb.org".

(** One [requests.get]: the oracle answers the call, which is traced. *)
Definition http_get (url : string) : M http_result :=
  n <- tick_http ;;
  emit (EvGet url) ;;;
  ret (requests_get env n url).

(** The loop [for attempt in range(retries)], by the attempts left. *)
Fixpoint get_page_attempts (url : string) (remaining : nat)
    : M (option string) :=
  match remaining with
  | O => ret None                                       (* lines 56-57 *)
  | S k =>
      emit EvSleep ;;;                                  (* line 39 *)
      response <- http_get url ;;                       (* lines 41-45 *)
      match response with
      | HttpResponse status_code text =>
          if status_code =? 200
          then ret (Some text)                          (* lines 47-48 *)
          else emit EvSleep ;;; get_page_attempts url k (* lines 49-51 *)
      | HttpError _ =>
          emit EvSleep ;;; get_page_attempts url k      (* lines 52-54 *)
      | HttpInterrupt => raise KeyboardInterrupt
      end
  end.

(** [retries] is a count; both call sites use the default 3. *)
Definition get_page (url : string) (retries : nat) : M (option string) :=
  get_page_attempts url retries.

(** line 180 *)
Definition detail_url (bacteria_id : string) : string :=
  BASE_URL +:+ "/microbes/" +:+ bacteria_id.

(** [MimeDBScraper.scrape_bacteria] (mimedb.py, lines 179-191) *)
Definition scrape_bacteria (bacteria_id : string) : M (option Dict) :=
  emit (EvScrape bacteria_id) ;;;
  html_content <- get_page (detail_url bacteria_id) 3 ;;
  match html_content with
  | None => ret None                                    (* lines 184-186 *)
  | Some html =>
      if String.eqb html ""
      then ret None                                     (* [not ""] holds *)
      else
        match parse_bacteria_page env html with
        | Some bacteria_data => ret (Some bacteria_data)
        | None => raise (Exception "parse_bacteria_page")
        end
  end.

(** ** Persistence *)

(** [query(Bacteria).filter(Bacteria.bacteria_id == v).first()]: position
    and contents of the first row with that identifier.  The session is
    made with [autoflush=False] (db.py, line 26): rows only [add]ed are
    not seen by a query before the commit. *)
Definition find_existing (rows : list Dict) (v : pyval)
    : option (nat * Dict) :=
  list_find (fun row => col row "bacteria_id" = v) rows.

(** [for key, value in data.items(): if hasattr(existing, key):
    setattr(existing, key, value)].  [hasattr] is taken to hold for the
    columns only: the other attributes of a mapped object ([metadata],
    [registry], [__class__] and the like, for which [hasattr] holds too
    and [setattr] may raise) and the refresh of [updated_at] by its
    [onupdate] are not modelled. *)
Definition update_row (existing data : Dict) : Dict :=
  filter (fun kv : string * pyval => kv.1 ∈ Bacteria_columns) data ∪ existing.

(** The constructor [Bacteria] applied to the keywords of [data]: a
    keyword that is no attribute of the class raises [TypeError].  The
    attributes of the class are taken to be its columns: a keyword such
    as [metadata], which the declarative constructor accepts, is not
    modelled. *)
Definition Bacteria_new (data : Dict) : result Dict :=
  if bool_decide (dom data ⊆ Bacteria_columns)
  then Ok data
  else Raise (Exception "TypeError").

(** The unique index on [bacteria_id]: the rows inserted by one flush must
    have pairwise different identifiers (NULL apart). *)
Definition unique_ids (added : list Dict) : bool :=
  bool_decide
    (NoDup (filter (fun v => v ≠ PNone)
                   ((fun row => col row "bacteria_id") <$> added))).

(** [db_session.commit()]: flush the staged table, then commit.  [staged]
    is [Raise] when the flush violates a constraint. *)
Definition db_commit (staged : result (list Dict)) : M unit :=
  n <- tick_commit ;;
  emit EvCommit ;;;
  match staged with
  | Raise e => raise e
  | Ok rows =>
      if commit_ok env n
      then set_db rows
      else raise (Exception "commit failed")
  end.

(** [db_session.rollback()]: the committed rows stay as they were. *)
Definition db_rollback : M unit := emit EvRollback.

(** The loop of [_save_batch_to_db] (lines 208-222) on the session's view:
    [rows] are the persistent rows (updated in place), [added] the pending
    new objects. *)
Fixpoint stage_batch (batch_data rows added : list Dict)
    : result (list Dict * list Dict) :=
  match batch_data with
  | [] => Ok (rows, added)
  | data :: rest =>
      match data !! "bacteria_id" with
      | None => Raise (Exception "KeyError")
      | Some v =>
          match find_existing rows v with
          | Some (i, existing) =>
              stage_batch rest (<[i := update_row existing data]> rows) added
          | None =>
              match Bacteria_new data with
              | Ok bacteria => stage_batch rest rows (added ++ [bacteria])
              | Raise e => Raise e
              end
          end
      end
  end.

(** [BatchScraper._save_batch_to_db] (batch_scraper.py, lines 203-231) *)
Definition _save_batch_to_db (batch_data : list Dict) : M unit :=
  emit (EvSaveBatch batch_data) ;;;
  s <- get ;;
  try_except_Exception
    (match stage_batch batch_data (db s) [] with
     | Raise e => raise e
     | Ok (rows, added) =>
         db_commit (if unique_ids added
                    then Ok (rows ++ added)
                    else Raise (Exception "IntegrityError"))
     end)
    (fun msg => db_rollback ;;; raise (Exception msg)).  (* lines 227-231 *)

(** lines 236-241 of [save_bacteria]: insert a new object *)
Definition insert_bacteria (bacteria_data : Dict) : M bool :=
  match Bacteria_new bacteria_data with
  | Raise e => raise e
  | Ok bacteria =>
      s <- get ;;
      db_commit (Ok (db s ++ [bacteria])) ;;;
      ret true
  end.

(** [MimeDBScraper.save_bacteria] (mimedb.py, lines 193-246).
    [db_session] says whether the scraper was given a session. *)
Definition save_bacteria (db_session : bool) (bacteria_data : Dict)
    (duplicate_action : string) : M bool :=
  if negb db_session then ret false                     (* lines 194-196 *)
  else
    try_except_Exception
      (match bacteria_data !! "bacteria_id" with
       | None => raise (Exception "KeyError")
       | Some v =>
           s <- get ;;
           match find_existing (db s) v with
           | Some (i, existing) =>
               if String.eqb duplicate_action "skip" then
                 ret true                               (* lines 208-210 *)
               else if String.eqb duplicate_action "update" then
                 db_commit
                   (Ok (<[i := update_row existing bacteria_data]> (db s))) ;;;
                 ret true                               (* lines 212-220 *)
               else if String.eqb duplicate_action "force" then
                 db_commit (Ok (delete i (db s))) ;;;   (* lines 222-225 *)
                 insert_bacteria bacteria_data
               else
                 db_commit
                   (Ok (<[i := update_row existing bacteria_data]> (db s))) ;;;
                 ret true                               (* lines 227-234 *)
           | None => insert_bacteria bacteria_data
           end
       end)
      (fun _ => db_rollback ;;; ret false).             (* lines 243-246 *)

(** ** Progress store *)

(** [BatchScraper._load_progress] (lines 65-77) *)
Definition _load_progress : M Progress.t :=
  s <- get ;;
  match progress_file s with
  | NoFile => ret zero_progress                  (* [os.path.exists] fails *)
  | Unreadable => ret zero_progress              (* lines 70-71, then 73 *)
  | Stored p => ret p                            (* line 69 *)
  end.

(** [BatchScraper._save_progress] (lines 79-84): a full overwrite.  The
    write is taken to go through. *)
Definition _save_progress (p : Progress.t) : M unit :=
  emit (EvSaveProgress p) ;;;
  set_progress_file (Stored p).

(** ** Batch orchestrator: [BatchScraper.process_batches] (lines 86-201) *)

(** [self.db_session.commit()] when only [self.scrape_log] is dirty. *)
Definition commit_session : M unit :=
  s <- get ;;
  db_commit (Ok (db s)).

(** lines 131-141: the body of the inner loop for one identifier; the
    accumulator is [(batch_data, local_successful, local_failed)]. *)
Definition scrape_one (bacteria_id : string)
    (acc : list Dict * list string * list string)
    : M (list Dict * list string * list string) :=
  let '(batch_data, local_successful, local_failed) := acc in
  try_except_Exception
    (bacteria_data <- scrape_bacteria bacteria_id ;;
     match bacteria_data with
     | Some d =>
         if bool_decide (d = ∅)                    (* an empty dict is falsy *)
         then ret (batch_data, local_successful, local_failed ++ [bacteria_id])
         else ret (batch_data ++ [d], local_successful ++ [bacteria_id],
                   local_failed)
     | None =>
         ret (batch_data, local_successful, local_failed ++ [bacteria_id])
     end)
    (fun _ =>
       ret (batch_data, local_successful, local_failed ++ [bacteria_id])).

Fixpoint scrape_items (batch_to_process : list string)
    (acc : list Dict * list string * list string)
    : M (list Dict * list string * list string) :=
  match batch_to_process with
  | [] => ret acc
  | bacteria_id :: rest =>
      acc' <- scrape_one bacteria_id acc ;;
      scrape_items rest acc'
  end.

(** line 117 *)
Definition to_process (successful failed : gset string)
    (ids : list string) : list string :=
  filter (fun bid => (bid ∉ successful) ∧ (bid ∉ failed)) ids.

(** lines 143-153 *)
Definition save_phase (batch_data : list Dict)
    (local_successful : list string) : M unit :=
  match batch_data with
  | [] => ret tt
  | _ :: _ =>
      try_except_Exception
        (_save_batch_to_db batch_data ;;;
         s <- get ;;
         set_successful_ids
           (successful_ids s ∪ list_to_set local_successful))
        (fun _ =>
           s <- get ;;
           set_failed_ids (failed_ids s ∪ list_to_set local_successful))
  end.

(** lines 171-173 *)
Definition update_scrape_log : M unit :=
  s <- get ;;
  set_scrape_log
    (mkScrapeLog (end_time (scrape_log s)) (total_urls (scrape_log s))
                 (Some (size (successful_ids s)))
                 (Some (size (failed_ids s)))
                 (error_message (scrape_log s))) ;;;
  commit_session.

(** lines 111-173: the body of the loop over batches.  An interrupt
    reaches it through a request only ([HttpInterrupt]): one arriving
    between two statements of the body is not modelled. *)
Definition process_batch (batch_size : Z) (bacteria_ids : list string)
    (batch_idx : Z) : M unit :=
  s <- get ;;
  let batch_to_process :=
    to_process (successful_ids s) (failed_ids s)
               (batch_ids batch_size bacteria_ids batch_idx) in
  match batch_to_process with
  | [] => ret tt                                        (* lines 122-124 *)
  | _ :: _ =>
      scraped <- scrape_items batch_to_process ([], [], []) ;;
      let '(batch_data, local_successful, local_failed) := scraped in
      save_phase batch_data local_successful ;;;
      s1 <- get ;;
      set_failed_ids (failed_ids s1 ∪ list_to_set local_failed) ;;;
      s2 <- get ;;                                      (* lines 159-164 *)
      let progress :=
        Progress.mk
          (batch_end batch_size (Z.of_nat (length bacteria_ids)) batch_idx - 1)
          (elements (successful_ids s2))
          (elements (failed_ids s2)) in
      set_progress progress ;;;
      _save_progress progress ;;;
      update_scrape_log
  end.

(** lines 176-180 *)
Definition finalize (bacteria_ids : list string) : M unit :=
  s <- get ;;
  set_scrape_log
    (mkScrapeLog (Some (length (trace s)))
                 (Some (length bacteria_ids))
                 (Some (size (successful_ids s)))
                 (Some (size (failed_ids s)))
                 (error_message (scrape_log s))) ;;;
  commit_session.

(** lines 184-193: both handlers, with the message they record *)
Definition abort (msg : string) : M unit :=
  s <- get ;;
  set_scrape_log
    (mkScrapeLog (Some (length (trace s)))
                 (total_urls (scrape_log s))
                 (successful_scrapes (scrape_log s))
                 (failed_scrapes (scrape_log s))
                 (Some msg)) ;;;
  commit_session.

(** lines 194-201 *)
Definition final_save (last_idx : Z) : M unit :=
  s <- get ;;
  _save_progress
    (Progress.mk
       (Z.max last_idx (Progress.last_processed_idx (progress s)))
       (elements (successful_ids s))
       (elements (failed_ids s))).

(** lines 96-100: load the progress and set the locals; the value is
    [last_idx]. *)
Definition load_locals : M Z :=
  loaded <- _load_progress ;;
  set_progress loaded ;;;
  set_successful_ids (list_to_set (Progress.successful_ids loaded)) ;;;
  set_failed_ids (list_to_set (Progress.failed_ids loaded)) ;;;
  ret (Progress.last_processed_idx loaded).

(** lines 109-182: the body of the outer [try] *)
Definition run_batches (batch_size last_idx : Z)
    (bacteria_ids : list string) : M unit :=
  for_each (batch_indices batch_size last_idx bacteria_ids)
           (process_batch batch_size bacteria_ids) ;;;
  finalize bacteria_ids.

(** [process_batches].  [discovered] is what [self.get_bacteria_ids()]
    returned at line 88 (discovery is a collaborator outside this model).
    The result is [Ok tt] when the method returns, [Raise e] when [e]
    leaves it. *)
Definition process_batches (batch_size : Z) (max_bacteria : option Z)
    (discovered : list string) : M unit :=
  let bacteria_ids := apply_limit max_bacteria discovered in
  last_idx <- load_locals ;;
  if batch_size =? 0
  then raise (Exception "ZeroDivisionError")            (* line 103 *)
  else
    try_finally
      (try_except_both
         (run_batches batch_size last_idx bacteria_ids)
         (abort "Interrupted by user")                  (* lines 184-188 *)
         (fun msg => abort msg))                        (* lines 189-193 *)
      (final_save last_idx).                            (* lines 194-201 *)

End Program.

(** ** Reading a trace *)

(** The records handed to [_save_progress], in order. *)
Definition saved_records (evs : list event) : list Progress.t :=
  omap (fun e => match e with EvSaveProgress p => Some p | _ => None end) evs.

Definition saved_cursors (evs : list event) : list Z :=
  Progress.last_processed_idx <$> saved_records evs.

(** The identifiers [scrape_bacteria] was called with, in order. *)
Definition scraped_ids (evs : list event) : list string :=
  omap (fun e => match e with EvScrape i => Some i | _ => None end) evs.

(** The URLs [requests.get] was called with, in order. *)
Definition fetched_urls (evs : list event) : list string :=
  omap (fun e => match e with EvGet u => Some u | _ => None end) evs.

(** The batches handed to [_save_batch_to_db], in order. *)
Definition saved_batches (evs : list event) : list (list Dict) :=
  omap (fun e => match e with EvSaveBatch b => Some b | _ => None end) evs.

(** Every [requests.get] comes right after a [time.sleep]. *)
Definition sleep_before_each_get (evs : list event) : Prop :=
  ∀ (i : nat) (url : string),
    evs !! i = Some (EvGet url) →
    ∃ j : nat, i = S j ∧ evs !! j = Some EvSleep.

(** A response that makes [get_page] go on to the next attempt. *)
Definition failed_attempt (r : http_result) : Prop :=
  match r with
  | HttpResponse status_code _ => status_code ≠ 200
  | HttpError _ => True
  | HttpInterrupt => False
  end.

(** The invariant of a progress record with respect to the discovered
    sequence: no identifier is in both sets, and every position up to the
    cursor is accounted for. *)
Definition progress_invariant (bacteria_ids : list string)
    (p : Progress.t) : Prop :=
  (∀ x : string,
     x ∈ Progress.successful_ids p → x ∈ Progress.failed_ids p → False)
  ∧ (∀ (i : nat) (x : string),
       bacteria_ids !! i = Some x →
       Z.of_nat i ≤ Progress.last_processed_idx p →
       x ∈ Progress.successful_ids p ∨ x ∈ Progress.failed_ids p).

(** [str(e)] as the handlers of [process_batches] record it. *)
Definition abort_message (e : exn) : string :=
  match e with
  | KeyboardInterrupt => "Interrupted by user"
  | Exception msg => msg
  end.

(** [s'] is [s] after the calls [evs], none of which touched the database,
    the progress file, the scrape log or the locals. *)
Definition only_counters (s s' : State) (evs : list event) : Prop :=
  s' = mkState (http_calls s') (commit_calls s') (trace s ++ evs) (db s)
               (progress_file s) (scrape_log s)
               (successful_ids s) (failed_ids s) (progress s).

(** The events of scraping the identifiers [ids]. *)
Definition scrape_event_of (ids : list string) (e : event) : Prop :=
  e = EvSleep
  ∨ ∃ bacteria_id : string,
      bacteria_id ∈ ids
      ∧ (e = EvScrape bacteria_id ∨ e = EvGet (detail_url bacteria_id)).

(** Every fetch of the page of [bacteria_id] fails, whenever it is made. *)
Definition fetch_always_fails (env : Env) (bacteria_id : string) : Prop :=
  ∀ n : nat, failed_attempt (requests_get env n (detail_url bacteria_id)).

(** What one turn of the loop over batches (lines 111-173) can do to the
    state: skip the batch, be interrupted while scraping, or scrape every
    item, hand the batch to the database, and checkpoint. *)
Inductive batch_outcome (env : Env) (batch_size : Z)
    (bacteria_ids : list string) (batch_idx : Z) (s : State)
    : result unit → State → Prop :=
| batch_skipped :
    to_process (successful_ids s) (failed_ids s)
               (batch_ids batch_size bacteria_ids batch_idx) = [] →
    batch_outcome env batch_size bacteria_ids batch_idx s (Ok tt) s
| batch_interrupted (s' : State) (evs : list event) :
    to_process (successful_ids s) (failed_ids s)
               (batch_ids batch_size bacteria_ids batch_idx) ≠ [] →
    only_counters s s' evs →
    Forall (scrape_event_of
              (to_process (successful_ids s) (failed_ids s)
                 (batch_ids batch_size bacteria_ids batch_idx))) evs →
    batch_outcome env batch_size bacteria_ids batch_idx s
                  (Raise KeyboardInterrupt) s'
| batch_checkpointed (r : result unit) (s' : State)
    (evs1 evs2 : list event) (bd : list Dict) (ls lf : list string) :
    let tp := to_process (successful_ids s) (failed_ids s)
                (batch_ids batch_size bacteria_ids batch_idx) in
    let p := Progress.mk
               (batch_end batch_size (Z.of_nat (length bacteria_ids))
                          batch_idx - 1)
               (elements (successful_ids s'))
               (elements (failed_ids s')) in
    tp ≠ [] →
    Forall (scrape_event_of tp) evs1 →
    scraped_ids evs1 = tp →
    ls ++ lf ≡ₚ tp →
    length bd = length ls →
    (∀ x : string, fetch_always_fails env x → x ∉ ls) →
    ((bd = [] ∧ evs2 = [] ∧ db s' = db s
      ∧ successful_ids s' = successful_ids s
      ∧ failed_ids s' = failed_ids s ∪ list_to_set lf)
     ∨ (bd ≠ [] ∧ evs2 = [EvSaveBatch bd; EvCommit]
        ∧ successful_ids s' = successful_ids s ∪ list_to_set ls
        ∧ failed_ids s' = failed_ids s ∪ list_to_set lf)
     ∨ (bd ≠ []
        ∧ (evs2 = [EvSaveBatch bd; EvRollback]
           ∨ evs2 = [EvSaveBatch bd; EvCommit; EvRollback])
        ∧ db s' = db s
        ∧ successful_ids s' = successful_ids s
        ∧ failed_ids s'
          = failed_ids s ∪ list_to_set ls ∪ list_to_set lf)) →
    trace s' = trace s ++ evs1 ++ evs2 ++ [EvSaveProgress p; EvCommit] →
    progress s' = p →
    progress_file s' = Stored p →
    error_message (scrape_log s') = error_message (scrape_log s) →
    r = Ok tt ∨ r = Raise (Exception "commit failed") →
    batch_outcome env batch_size bacteria_ids batch_idx s r s'.

(** What [_load_progress] returns for a given file. *)
Definition loaded_progress (f : FileState) : Progress.t :=
  match f with
  | Stored p => p
  | NoFile | Unreadable => zero_progress
  end.

(** The state after lines 96-100. *)
Definition after_load (s : State) : State :=
  let loaded := loaded_progress (progress_file s) in
  put_failed_ids (list_to_set (Progress.failed_ids loaded))
    (put_successful_ids (list_to_set (Progress.successful_ids loaded))
       (put_progress loaded s)).

(** The record the [finally] clause saves (lines 196-200). *)
Definition final_progress (last_idx : Z) (s : State) : Progress.t :=
  Progress.mk (Z.max last_idx (Progress.last_processed_idx (progress s)))
              (elements (successful_ids s))
              (elements (failed_ids s)).

(** The state after the [finally] clause. *)
Definition after_final_save (last_idx : Z) (s : State) : State :=
  put_progress_file (Stored (final_progress last_idx s))
    (add_event (EvSaveProgress (final_progress last_idx s)) s).

(** The state after an [except] clause of [process_batches]. *)
Definition after_abort (msg : string) (s : State) : State :=
  add_event EvCommit
    (count_commit
       (put_scrape_log
          (mkScrapeLog (Some (length (trace s)))
                       (total_urls (scrape_log s))
                       (successful_scrapes (scrape_log s))
                       (failed_scrapes (scrape_log s))
                       (Some msg)) s)).

(** The state after lines 176-180. *)
Definition after_finalize (bacteria_ids : list string) (s : State) : State :=
  add_event EvCommit
    (count_commit
       (put_scrape_log
          (mkScrapeLog (Some (length (trace s)))
                       (Some (length bacteria_ids))
                       (Some (size (successful_ids s)))
                       (Some (size (failed_ids s)))
                       (error_message (scrape_log s))) s)).

(** The outcome of a [db_session.commit()] made in state [s]. *)
Definition commit_result (env : Env) (s : State) : result unit :=
  if commit_ok env (commit_calls s)
  then Ok tt
  else Raise (Exception "commit failed").

(** The identifiers already decided when the run starts are never
    scraped nor fetched. *)
Definition untouched (known : gset string) (evs : list event) : Prop :=
  ∀ x : string,
    x ∈ known → (x ∉ scraped_ids evs) ∧ (detail_url x ∉ fetched_urls evs).


(** ** Concrete worlds and inputs *)

(** What the extractor returns for a detail page whose title carries the
    identifier: here the page text stands for the identifier. *)
Definition example_page (html : string) : Dict :=
  {[ "bacteria_id" := PStr html; "name" := PStr "Escherichia coli" ]}.

(** Every request is answered with status 200, every commit goes through. *)
Definition env_ok : Env :=
  mkEnv (fun _ url => HttpResponse 200 url)
        (fun html => Some (example_page html))
        (fun _ => true).

(** As [env_ok], but the page titles carry no identifier: the extractor
    then sets no ["bacteria_id"] key (mimedb.py, lines 94-99), and
    [_save_batch_to_db] raises [KeyError] at line 211. *)
Definition env_no_id : Env :=
  mkEnv (fun _ url => HttpResponse 200 url)
        (fun html => Some {[ "name" := PStr html ]})
        (fun _ => true).

(** The operator interrupts the first request. *)
Definition env_interrupted : Env :=
  mkEnv (fun _ _ => HttpInterrupt)
        (fun html => Some (example_page html))
        (fun _ => true).

(** The server answers every request with status 503. *)
Definition env_down : Env :=
  mkEnv (fun _ _ => HttpResponse 503 "")
        (fun html => Some (example_page html))
        (fun _ => true).

Definition three_ids : list string := ["X001"; "X002"; "X003"].

(** A progress file left by an earlier run that decided the first two. *)
Definition two_decided : Progress.t :=
  Progress.mk 1 ["X001"] ["X002"].

(** A stored row for ["X001"] named ["A"], and new data naming it ["B"]. *)
Definition row_A : Dict := {[ "bacteria_id" := PStr "X001"; "name" := PStr "A" ]}.
Definition data_B : Dict := {[ "bacteria_id" := PStr "X001"; "name" := PStr "B" ]}.

(** ** Proof support *)

(** Unfold the state updates and the monad's operations. *)
Ltac st_unfold :=
  unfold emit, set_db, set_progress_file, set_scrape_log, set_successful_ids,
    set_failed_ids, set_progress, tick_http, tick_commit, modify, get, ret,
    raise in *;
  unfold add_event, put_db, put_progress_file, put_scrape_log,
    put_successful_ids, put_failed_ids, put_progress, count_http,
    count_commit in *;
  simpl in *.

#[global] Arguments get_page : simpl never.
#[global] Arguments scrape_bacteria : simpl never.
#[global] Arguments scrape_one : simpl never.
#[global] Arguments _save_batch_to_db : simpl never.
#[global] Arguments save_phase : simpl never.
#[global] Arguments process_batch : simpl never.
#[global] Arguments commit_session : simpl never.
#[global] Arguments update_scrape_log : simpl never.
#[global] Arguments finalize : simpl never.
#[global] Arguments abort : simpl never.
#[global] Arguments final_save : simpl never.
#[global] Arguments run_batches : simpl never.
#[global] Arguments load_locals : simpl never.
#[global] Arguments batch_ids : simpl never.
#[global] Arguments batch_indices : simpl never.
#[global] Arguments batch_end : simpl never.
#[global] Arguments to_process : simpl never.

(** ** More of the fetcher *)

(** The number of [time.sleep] calls among the events. *)
Definition sleeps (evs : list event) : nat :=
  length (omap (fun e => match e with EvSleep => Some tt | _ => None end) evs).

(** The events of [k] failed attempts at [url]: a sleep before the request
    (line 39), the request, and the sleep after the failure (lines 51,
    54). *)
Definition failed_attempts (url : string) (k : nat) : list event :=
  mjoin (replicate k [EvSleep; EvGet url; EvSleep]).

(** The state after [k] failed attempts at [url]. *)
Definition after_failures (url : string) (k : nat) (s : State) : State :=
  mkState (http_calls s + k) (commit_calls s)
          (trace s ++ failed_attempts url k) (db s)
          (progress_file s) (scrape_log s)
          (successful_ids s) (failed_ids s) (progress s).

(** ** Discovery: [MimeDBScraper.get_bacteria_ids] (mimedb.py, lines 59-84) *)

From Stdlib Require Import Ascii.
From stdpp Require Import pretty.

Local Open Scope string_scope.
Local Open Scope list_scope.
Local Open Scope Z_scope.

Definition MICROBES_URL : string := BASE_URL +:+ "/microbes".

(** line 67: [f"{self.MICROBES_URL}?page={page}"] *)
Definition page_url (page : Z) : string :=
  MICROBES_URL +:+ "?page=" +:+ pretty page.

(** [s.split("/")[-1]]: what follows the last slash of [s] ([acc] is the
    segment read so far). *)
Fixpoint last_segment_from (acc s : string) : string :=
  match s with
  | EmptyString => acc
  | String c rest =>
      if Ascii.eqb c "/"%char
      then last_segment_from "" rest
      else last_segment_from (acc +:+ String c "") rest
  end.

Definition last_segment (s : string) : string := last_segment_from "" s.

Fixpoint contains_slash (s : string) : bool :=
  match s with
  | EmptyString => false
  | String c rest => Ascii.eqb c "/"%char || contains_slash rest
  end.

(** lines 77-80: the loop over the links of one page.  [hrefs] are the
    [href] attributes of the elements [soup.select] returned, [None] for
    a link without one: [link.get("href")] is then [None] and [.split]
    raises [AttributeError]. *)
Fixpoint collect_ids (hrefs : list (option string))
    (bacteria_ids : list string) : result (list string) :=
  match hrefs with
  | [] => Ok bacteria_ids
  | None :: _ => Raise (Exception "AttributeError")
  | Some href :: rest =>
      let bacteria_id := last_segment href in
      if negb (String.eqb bacteria_id "") && String.prefix "MMDBm" bacteria_id
      then collect_ids rest (bacteria_ids ++ [bacteria_id])
      else collect_ids rest bacteria_ids
  end.

Section Discovery.

Context (env : Env).

(** The HTML selection [soup.select("td.microbe-link a.btn-card")] of a
    listing page, as the [href] of each link found. *)
Context (select_links : string → list (option string)).

(** lines 66-82: the loop over the pages *)
Fixpoint discover_pages (pages : list Z) (bacteria_ids : list string)
    : M (list string) :=
  match pages with
  | [] => ret bacteria_ids
  | page :: rest =>
      html_content <- get_page env (page_url page) 3 ;;
      match html_content with
      | None => discover_pages rest bacteria_ids        (* lines 71-73 *)
      | Some html =>
          if String.eqb html ""
          then discover_pages rest bacteria_ids
          else
            match collect_ids (select_links html) bacteria_ids with
            | Ok bacteria_ids' => discover_pages rest bacteria_ids'
            | Raise e => raise e
            end
      end
  end.

(** [MimeDBScraper.get_bacteria_ids] *)
Definition get_bacteria_ids (max_pages : option Z) : M (list string) :=
  let max_pages := default 5 max_pages in               (* line 62 *)
  discover_pages (py_range 1 (max_pages + 1)) [].

(** [BatchScraper.process_batches] with its line 88:
    [bacteria_ids = self.get_bacteria_ids()], which passes
    [self.max_pages] (batch_scraper.py, lines 62-63). *)
Definition process_batches_with_discovery (batch_size max_pages : Z)
    (max_bacteria : option Z) : M unit :=
  bacteria_ids <- get_bacteria_ids (Some max_pages) ;;
  process_batches env batch_size max_bacteria bacteria_ids.

End Discovery.

(** The links of a listing page, for the concrete worlds. *)
Definition example_links (html : string) : list (option string) :=
  [Some "/microbes/MMDBm000001"; Some "/about"; Some "/microbes/MMDBm000002"].

(** ** The progress file as JSON *)

(** A value [json.load] returns.  A float is carried by its printed form;
    an object is the dict it becomes, as the list of its items. *)
#[warnings="-register-all"] Inductive json :=
| JNull
| JBool (b : bool)
| JInt (n : Z)
| JFloat (repr : string)
| JStr (s : string)
| JList (items : list json)
| JObj (fields : list (string * json)).

(** What [self.progress_file] holds, for every content [_load_progress]
    can meet.  [FileState] above is the part of it that a run of this
    program leaves behind. *)
Inductive FileContent :=
| Absent                 (* [os.path.exists] is false *)
| Broken                 (* [open] or [json.load] raises an [Exception] *)
| Holds (j : json).      (* [json.load] returns [j] *)

(** lines 73-77 *)
Definition zero_json : json :=
  JObj [("last_processed_idx", JInt (-1));
        ("successful_ids", JList []);
        ("failed_ids", JList [])].

(** What [json.load] returns for the file [json.dump] wrote for [p]. *)
Definition json_of_progress (p : Progress.t) : json :=
  JObj [("last_processed_idx", JInt (Progress.last_processed_idx p));
        ("successful_ids", JList (JStr <$> Progress.successful_ids p));
        ("failed_ids", JList (JStr <$> Progress.failed_ids p))].

Definition content_of (f : FileState) : FileContent :=
  match f with
  | NoFile => Absent
  | Unreadable => Broken
  | Stored p => Holds (json_of_progress p)
  end.

(** [BatchScraper._load_progress] (lines 65-77) on the content of the
    file: the value returned, and whether line 71 logged an error.  The
    value of [json.load] is returned as it is (line 69): nothing looks at
    its shape. *)
Definition _load_progress_json (c : FileContent) : json * bool :=
  match c with
  | Absent => (zero_json, false)                 (* line 66 fails, line 73 *)
  | Broken => (zero_json, true)                  (* lines 70-71, line 73 *)
  | Holds j => (j, false)                        (* line 69 *)
  end.

(** [j[key]] for a string [key]: only a dict can be indexed by a string. *)
Definition py_getitem (j : json) (key : string) : result json :=
  match j with
  | JObj fields =>
      match list_find (fun kv : string * json => kv.1 = key) fields with
      | Some (_, (_, v)) => Ok v
      | None => Raise (Exception "KeyError")
      end
  | _ => Raise (Exception "TypeError")
  end.

(** Lists and dicts are not hashable; every other JSON value is. *)
Definition hashable (j : json) : bool :=
  match j with
  | JList _ | JObj _ => false
  | _ => true
  end.

(** [set(j)]: the elements the set is built from, in iteration order.  A
    list gives its items, a string its characters, a dict its keys;
    anything else is not iterable. *)
Definition py_set (j : json) : result (list json) :=
  match j with
  | JList items =>
      if forallb hashable items
      then Ok items
      else Raise (Exception "TypeError")
  | JStr s => Ok ((fun c => JStr (String c "")) <$> String.list_ascii_of_string s)
  | JObj fields => Ok (JStr <$> fields.*1)
  | _ => Raise (Exception "TypeError")
  end.

Definition and_then {A B : Type} (r : result A) (k : A → result B)
    : result B :=
  match r with
  | Ok a => k a
  | Raise e => Raise e
  end.

(** lines 97-100 of [process_batches], which come before the [try] of
    line 108: an exception raised here leaves the method with no handler
    and no [finally].  The value is [last_idx] and the elements of the two
    sets. *)
Definition load_locals_json (c : FileContent)
    : result (json * list json * list json) :=
  let progress := (_load_progress_json c).1 in
  and_then (py_getitem progress "last_processed_idx") (fun last_idx =>
  and_then (py_getitem progress "successful_ids") (fun successful =>
  and_then (py_set successful) (fun successful_ids =>
  and_then (py_getitem progress "failed_ids") (fun failed =>
  and_then (py_set failed) (fun failed_ids =>
  Ok (last_idx, successful_ids, failed_ids)))))).

(** A value [set(...)] accepts. *)
Definition set_accepts (j : json) : bool :=
  match j with
  | JList items => forallb hashable items
  | JStr _ | JObj _ => true
  | _ => false
  end.

(** A progress record lists only identifiers of the sets [S] and [F]. *)
Definition record_within (S F : gset string) (p : Progress.t) : Prop :=
  (∀ x, x ∈ Progress.successful_ids p → x ∈ S)
  ∧ (∀ x, x ∈ Progress.failed_ids p → x ∈ F).

(** * Batch arithmetic *)

Section BatchArithmetic.

Context (batch_size : Z) (Hpos : 0 < batch_size).

Lemma take_min_length {A} (l : list A) (n m : nat) :
  (Nat.min n (length l) = Nat.min m (length l))%nat → take n l = take m l.
Proof.
  intros H. rewrite <- (take_ge l (length l)) by lia.
  rewrite !take_take. by rewrite H.
Qed.

(** For a batch index that is not negative the slice is the plain
    [batch_size] items from position [batch_idx * batch_size]. *)
Lemma batch_ids_take_drop (ids : list string) (k : Z) :
  0 ≤ k →
  batch_ids batch_size ids k
  = take (Z.to_nat batch_size) (drop (Z.to_nat (k * batch_size)) ids).
Proof.
  intros Hk. unfold batch_ids, py_slice, batch_end, batch_start.
  remember (Z.of_nat (length ids)) as L eqn:HL.
  assert (0 ≤ k * batch_size) by nia.
  assert (0 ≤ L) by lia.
  destruct (Z.ltb_spec (k * batch_size) 0) as [?|_]; [lia|].
  destruct (Z.ltb_spec (Z.min (k * batch_size + batch_size) L) 0) as [?|_];
    [lia|].
  destruct (Z.le_gt_cases L (k * batch_size)) as [Hge|Hlt].
  - rewrite (Z.min_r (k * batch_size) L) by lia.
    rewrite (drop_ge ids (Z.to_nat L)) by lia. rewrite (drop_ge ids (Z.to_nat (k * batch_size))) by lia. by rewrite !take_nil.
  - rewrite (Z.min_l (k * batch_size) L) by lia.
    apply take_min_length. rewrite length_drop. lia.
Qed.

Lemma batch_ids_lookup (ids : list string) (k : Z) (j : nat) :
  0 ≤ k →
  batch_ids batch_size ids k !! j
  = if decide (Z.of_nat j < batch_size)
    then ids !! (Z.to_nat (k * batch_size) + j)%nat
    else None.
Proof.
  intros Hk. rewrite batch_ids_take_drop by done.
  case_decide.
  - rewrite lookup_take_lt by lia. by rewrite lookup_drop.
  - by rewrite lookup_take_ge by lia.
Qed.

Lemma batch_ids_length (ids : list string) (k : Z) :
  0 ≤ k →
  Z.of_nat (length (batch_ids batch_size ids k))
  = Z.max 0 (Z.min batch_size (Z.of_nat (length ids) - k * batch_size)).
Proof.
  intros Hk. rewrite batch_ids_take_drop by done.
  rewrite length_take, length_drop. nia.
Qed.

(** [total_batches] is the ceiling of [len / batch_size]. *)
Lemma total_batches_ceil (len : Z) :
  (total_batches len batch_size - 1) * batch_size < len
  ≤ total_batches len batch_size * batch_size.
Proof.
  unfold total_batches.
  pose proof (Z.div_mod (len + batch_size - 1) batch_size ltac:(lia)).
  pose proof (Z.mod_pos_bound (len + batch_size - 1) batch_size Hpos).
  nia.
Qed.

Lemma elem_of_py_range (a b k : Z) : k ∈ py_range a b ↔ a ≤ k < b.
Proof.
  unfold py_range. rewrite list_elem_of_fmap. split.
  - intros (i & -> & Hi). apply elem_of_seq in Hi. lia.
  - intros Hk. exists (Z.to_nat (k - a)). split; [lia|].
    apply elem_of_seq. lia.
Qed.

Lemma py_range_cons (a b : Z) : a < b → py_range a b = a :: py_range (a + 1) b.
Proof.
  intros Hab. unfold py_range.
  replace (Z.to_nat (b - a)) with (S (Z.to_nat (b - (a + 1)))) by lia.
  simpl. f_equal; [f_equal; lia|].
  rewrite <- fmap_S_seq, <- list_fmap_compose. apply list_fmap_ext.
  intros ? i _. simpl. lia.
Qed.

End BatchArithmetic.

(** C4 (partition stability).  Batch membership is a function of the flat
    position alone:  position [i] is item [i mod batch_size] of batch
    [i / batch_size] and of no other batch, [total_batches] is the ceiling
    of [L / batch_size], and the loop visits the batch indices from
    [(cursor + 1) / batch_size]; with 25 identifiers and batch size 10 the
    batches have 10, 10 and 5 items, and from cursor 19 the loop visits
    batch 2 only, which is positions 20-24. *)
Theorem partition_stability (batch_size : Z) (bacteria_ids : list string) :
  0 < batch_size →
  let L := Z.of_nat (length bacteria_ids) in
  (∀ (i : nat) (x : string),
     bacteria_ids !! i = Some x →
     batch_ids batch_size bacteria_ids (Z.of_nat i / batch_size)
       !! Z.to_nat (Z.of_nat i `mod` batch_size) = Some x)
  ∧ (∀ (k : Z) (j : nat) (x : string),
       0 ≤ k →
       batch_ids batch_size bacteria_ids k !! j = Some x →
       ∃ i : nat,
         bacteria_ids !! i = Some x
         ∧ Z.of_nat i = k * batch_size + Z.of_nat j
         ∧ Z.of_nat i / batch_size = k)
  ∧ ((total_batches L batch_size - 1) * batch_size < L
     ≤ total_batches L batch_size * batch_size)
  ∧ (∀ last_idx k : Z,
       k ∈ batch_indices batch_size last_idx bacteria_ids
       ↔ (last_idx + 1) / batch_size ≤ k < total_batches L batch_size)
  ∧ (∀ last_idx : Z,
       (last_idx + 1) / batch_size < total_batches L batch_size →
       head (batch_indices batch_size last_idx bacteria_ids)
       = Some ((last_idx + 1) / batch_size))
  ∧ (batch_size = 10 → length bacteria_ids = 25%nat →
       total_batches L batch_size = 3
       ∧ (length <$> (batch_ids batch_size bacteria_ids <$> [0; 1; 2]))
         = [10; 10; 5]%nat
       ∧ batch_indices batch_size 19 bacteria_ids = [2]
       ∧ batch_ids batch_size bacteria_ids 2 = drop 20 bacteria_ids).
Proof.
  intros Hpos L. split; [|split; [|split; [|split; [|split]]]].
  - intros i x Hi.
    assert (0 ≤ Z.of_nat i / batch_size) by (apply Z.div_pos; lia).
    pose proof (Z.mod_pos_bound (Z.of_nat i) batch_size Hpos).
    pose proof (Z.div_mod (Z.of_nat i) batch_size ltac:(lia)).
    rewrite batch_ids_lookup by done.
    rewrite decide_True by lia.
    rewrite <- Hi. f_equal. nia.
  - intros k j x Hk Hj.
    rewrite batch_ids_lookup in Hj by done.
    case_decide; [|done].
    exists (Z.to_nat (k * batch_size) + j)%nat.
    split; [done|]. split; [nia|].
    symmetry. apply (Z.div_unique _ _ _ (Z.of_nat j)); nia.
  - apply total_batches_ceil; done.
  - intros last_idx k. unfold batch_indices, start_batch.
    apply elem_of_py_range.
  - intros last_idx Hlt. unfold batch_indices, start_batch.
    by rewrite py_range_cons.
  - intros -> Hlen. subst L. rewrite Hlen.
    split; [reflexivity|]. split; [|split].
    + rewrite !fmap_cons. simpl fmap.
      f_equal; [|f_equal; [|f_equal]].
      all: apply Nat2Z.inj; rewrite batch_ids_length by lia;
        rewrite Hlen; reflexivity.
    + unfold batch_indices. rewrite Hlen. reflexivity.
    + rewrite batch_ids_take_drop by lia.
      apply take_ge. rewrite length_drop. lia.
Qed.

Lemma partition_stability_witness :
  0 < 10
  ∧ batch_ids 10 (replicate 25 "MMDBm") (Z.of_nat 23 / 10)
      !! Z.to_nat (Z.of_nat 23 `mod` 10) = Some "MMDBm".
Proof.
  split; [lia|].
  apply (partition_stability 10 (replicate 25 "MMDBm") ltac:(lia)).
  reflexivity.
Defined.

(** * The fetcher *)

Section Fetcher.

Context (env : Env).

Lemma only_counters_refl (s : State) : only_counters s s [].
Proof. unfold only_counters. rewrite app_nil_r. by destruct s. Qed.

Lemma only_counters_trans (s1 s2 s3 : State) (e1 e2 : list event) :
  only_counters s1 s2 e1 → only_counters s2 s3 e2 →
  only_counters s1 s3 (e1 ++ e2).
Proof.
  unfold only_counters. intros H1 H2. rewrite H2, H1. simpl.
  by rewrite app_assoc.
Qed.

Lemma sleep_before_each_get_nil : sleep_before_each_get [].
Proof. intros i url H. done. Qed.

Lemma sleep_before_each_get_attempt (url : string) (evs : list event) :
  sleep_before_each_get evs →
  sleep_before_each_get (EvSleep :: EvGet url :: EvSleep :: evs).
Proof.
  intros H i u Hi. destruct i as [|[|[|i]]]; simpl in Hi; try done.
  - exists 0%nat. done.
  - destruct (H i u Hi) as (j & -> & Hj). exists (S (S (S j))). done.
Qed.

(** What one call of [get_page] does: at most [retries] calls of
    [requests.get], all for [url], each right after a sleep; nothing but
    the call counter and the trace changes; only an interrupt leaves it
    as an exception. *)
Lemma get_page_spec (url : string) (retries : nat) (s : State) :
  ∃ evs : list event,
    only_counters s (get_page env url retries s).2 evs
    ∧ commit_calls (get_page env url retries s).2 = commit_calls s
    ∧ http_calls (get_page env url retries s).2
      = (http_calls s + length (fetched_urls evs))%nat
    ∧ (length (fetched_urls evs) ≤ retries)%nat
    ∧ Forall (fun e => e = EvSleep ∨ e = EvGet url) evs
    ∧ sleep_before_each_get evs
    ∧ (∀ msg, (get_page env url retries s).1 ≠ Raise (Exception msg)).
Proof.
  unfold get_page. revert s.
  induction retries as [|k IH]; intros s.
  - exists []. simpl. split_and!; try done.
    apply only_counters_refl.
  - simpl.
    unfold bind, emit, modify, http_get, bind, tick_http, emit, modify, ret.
    simpl.
    assert (Hstop : ∀ (r : result (option string)),
      (∀ msg, r ≠ Raise (Exception msg)) →
      ∃ evs : list event,
        only_counters s
          (r, add_event (EvGet url) (count_http (add_event EvSleep s))).2 evs
        ∧ commit_calls s = commit_calls s
        ∧ S (http_calls s) = (http_calls s + length (fetched_urls evs))%nat
        ∧ (length (fetched_urls evs) ≤ S k)%nat
        ∧ Forall (fun e => e = EvSleep ∨ e = EvGet url) evs
        ∧ sleep_before_each_get evs
        ∧ (∀ msg, r ≠ Raise (Exception msg))).
    { intros r Hr. exists [EvSleep; EvGet url]. simpl. split_and!; try done.
      - unfold only_counters; st_unfold; by rewrite <- app_assoc.
      - lia.
      - lia.
      - repeat (apply List.Forall_cons || apply List.Forall_nil); auto.
      - intros i u Hi. destruct i as [|[|i]]; simpl in Hi; try done.
        exists 0%nat. done. }
    assert (Hnext :
      let s1 := add_event EvSleep
                  (add_event (EvGet url) (count_http (add_event EvSleep s))) in
      ∃ evs : list event,
        only_counters s (get_page_attempts env url k s1).2 evs
        ∧ commit_calls (get_page_attempts env url k s1).2 = commit_calls s
        ∧ http_calls (get_page_attempts env url k s1).2
          = (http_calls s + length (fetched_urls evs))%nat
        ∧ (length (fetched_urls evs) ≤ S k)%nat
        ∧ Forall (fun e => e = EvSleep ∨ e = EvGet url) evs
        ∧ sleep_before_each_get evs
        ∧ (∀ msg, (get_page_attempts env url k s1).1 ≠ Raise (Exception msg))).
    { intros s1.
      destruct (IH s1) as (evs & Hoc & Hcc & Hhc & Hlen & Hall & Hsl & Hex).
      exists (EvSleep :: EvGet url :: EvSleep :: evs).
      split_and!; try done.
      - unfold only_counters in *. rewrite Hoc at 1. subst s1. st_unfold.
        by rewrite <- !app_assoc.
      - rewrite Hhc. simpl. lia.
      - simpl. lia.
      - repeat (apply List.Forall_cons || apply List.Forall_nil); auto.
      - by apply sleep_before_each_get_attempt. }
    destruct (requests_get env (http_calls s) url) as [code text|msg|] eqn:Hr.
    + destruct (code =? 200) eqn:Hc.
      * apply (Hstop (Ok (Some text))). done.
      * apply Hnext.
    + apply Hnext.
    + apply (Hstop (Raise KeyboardInterrupt)). done.
Qed.

(** When every attempt fails, [get_page] makes exactly [retries] attempts
    and returns [None]. *)
Lemma get_page_exhausted (url : string) (retries : nat) (s : State) :
  (∀ i : nat, (i < retries)%nat →
     failed_attempt (requests_get env (http_calls s + i) url)) →
  (get_page env url retries s).1 = Ok None
  ∧ http_calls (get_page env url retries s).2
    = (http_calls s + retries)%nat.
Proof.
  unfold get_page. revert s.
  induction retries as [|k IH]; intros s Hfail.
  - simpl. split; [done|lia].
  - simpl.
    unfold bind, emit, modify, http_get, bind, tick_http, emit, modify, ret.
    simpl.
    pose proof (Hfail 0%nat ltac:(lia)) as H0.
    rewrite Nat.add_0_r in H0.
    assert (Hk : ∀ i : nat, (i < k)%nat →
      failed_attempt (requests_get env (S (http_calls s) + i) url)).
    { intros i Hi. specialize (Hfail (S i) ltac:(lia)).
      by replace (http_calls s + S i)%nat with (S (http_calls s) + i)%nat
        in Hfail by lia. }
    destruct (requests_get env (http_calls s) url) as [code text|msg|];
      simpl in H0; [|idtac|done].
    + destruct (Z.eqb_spec code 200) as [?|_]; [done|].
      match goal with |- context [get_page_attempts env url k ?s1] =>
        destruct (IH s1 Hk) as [-> ->] end.
      simpl. split; [done|lia].
    + match goal with |- context [get_page_attempts env url k ?s1] =>
        destruct (IH s1 Hk) as [-> ->] end.
      simpl. split; [done|lia].
Qed.

End Fetcher.

(** * Scraping the items of a batch *)

Section Scraping.

Context (env : Env).

Lemma scrape_bacteria_spec (bacteria_id : string) (s : State) :
  ∃ evs : list event,
    only_counters s (scrape_bacteria env bacteria_id s).2
                  (EvScrape bacteria_id :: evs)
    ∧ commit_calls (scrape_bacteria env bacteria_id s).2 = commit_calls s
    ∧ Forall (fun e => e = EvSleep ∨ e = EvGet (detail_url bacteria_id)) evs
    ∧ (length (fetched_urls evs) ≤ 3)%nat
    ∧ sleep_before_each_get evs
    ∧ ((∀ i : nat, (i < 3)%nat →
          failed_attempt
            (requests_get env (http_calls s + i) (detail_url bacteria_id))) →
       (scrape_bacteria env bacteria_id s).1 = Ok None).
Proof.
  unfold scrape_bacteria, bind. st_unfold.
  set (s0 := mkState _ _ _ _ _ _ _ _ _).
  destruct (get_page_spec env (detail_url bacteria_id) 3 s0)
    as (evs & Hoc & Hcc & Hhc & Hlen & Hall & Hsl & Hex).
  pose proof (get_page_exhausted env (detail_url bacteria_id) 3 s0) as Hexh.
  destruct (get_page env (detail_url bacteria_id) 3 s0) as [r s1] eqn:Hgp.
  simpl in *.
  assert (Hs1 : only_counters s s1 (EvScrape bacteria_id :: evs)).
  { unfold only_counters in *. rewrite Hoc. subst s0. simpl.
    by rewrite <- app_assoc. }
  exists evs.
  destruct r as [[html|]|e]; simpl.
  - destruct (String.eqb html "") eqn:Hhtml; simpl.
    + split_and!; done.
    + destruct (parse_bacteria_page env html); simpl;
        (split_and!; try done; intros Hf; by destruct (Hexh Hf)).
  - split_and!; done.
  - split_and!; try done. intros Hf. by destruct (Hexh Hf).
Qed.

Lemma scrape_one_spec (bacteria_id : string)
    (batch_data : list Dict) (local_successful local_failed : list string)
    (s : State) :
  let run :=
    scrape_one env bacteria_id (batch_data, local_successful, local_failed) s
  in
  ∃ evs : list event,
    only_counters s run.2 (EvScrape bacteria_id :: evs)
    ∧ commit_calls run.2 = commit_calls s
    ∧ Forall (fun e => e = EvSleep ∨ e = EvGet (detail_url bacteria_id)) evs
    ∧ (run.1 = Raise KeyboardInterrupt
       ∨ run.1 = Ok (batch_data, local_successful,
                     local_failed ++ [bacteria_id])
       ∨ ∃ d : Dict,
           d ≠ ∅
           ∧ run.1 = Ok (batch_data ++ [d],
                         local_successful ++ [bacteria_id], local_failed))
    ∧ ((∀ i : nat, (i < 3)%nat →
          failed_attempt
            (requests_get env (http_calls s + i) (detail_url bacteria_id))) →
       run.1 = Ok (batch_data, local_successful,
                   local_failed ++ [bacteria_id])).
Proof.
  intros run. subst run. unfold scrape_one, try_except_Exception, bind.
  destruct (scrape_bacteria_spec bacteria_id s)
    as (evs & Hoc & Hcc & Hall & Hlen & Hsl & Hfail).
  destruct (scrape_bacteria env bacteria_id s) as [r s1] eqn:Hsb.
  simpl in *. exists evs.
  destruct r as [[d|]|[|msg]]; st_unfold;
    [destruct (bool_decide (d = ∅)) eqn:Hd; simpl;
       [|apply bool_decide_eq_false in Hd]| | |];
    (split_and!; try done;
     try (by left); try (by right; left);
     try (right; right; by exists d);
     try (intros Hf; by specialize (Hfail Hf))).
Qed.

Lemma scraped_ids_app (e1 e2 : list event) :
  scraped_ids (e1 ++ e2) = scraped_ids e1 ++ scraped_ids e2.
Proof. apply omap_app. Qed.

Lemma scraped_ids_fetch (url : string) (evs : list event) :
  Forall (fun e => e = EvSleep ∨ e = EvGet url) evs →
  scraped_ids evs = [].
Proof.
  induction 1 as [|e l He _ IH]; [done|].
  destruct He as [-> | ->]; simpl; exact IH.
Qed.

Lemma scrape_event_of_mono (ids ids' : list string) (e : event) :
  ids ⊆ ids' → scrape_event_of ids e → scrape_event_of ids' e.
Proof.
  intros Hsub [->|(i & Hi & He)]; [by left|].
  right. exists i. split; [by apply Hsub|done].
Qed.

(** The inner loop (lines 131-141): each identifier is scraped once, in
    order, and ends in exactly one of the two local lists; only an
    interrupt stops the loop. *)
Lemma scrape_items_spec (batch_to_process : list string)
    (batch_data : list Dict) (local_successful local_failed : list string)
    (s : State) :
  let run :=
    scrape_items env batch_to_process
                 (batch_data, local_successful, local_failed) s in
  ∃ evs : list event,
    only_counters s run.2 evs
    ∧ commit_calls run.2 = commit_calls s
    ∧ Forall (scrape_event_of batch_to_process) evs
    ∧ match run.1 with
      | Ok (batch_data', local_successful', local_failed') =>
          ∃ (bd : list Dict) (ls lf : list string),
            batch_data' = batch_data ++ bd
            ∧ local_successful' = local_successful ++ ls
            ∧ local_failed' = local_failed ++ lf
            ∧ length bd = length ls
            ∧ ls ++ lf ≡ₚ batch_to_process
            ∧ scraped_ids evs = batch_to_process
            ∧ (∀ x : string, fetch_always_fails env x → x ∉ ls)
      | Raise e => e = KeyboardInterrupt
      end.
Proof.
  revert batch_data local_successful local_failed s.
  induction batch_to_process as [|b rest IH];
    intros batch_data local_successful local_failed s run; subst run.
  - exists []. simpl. split_and!; try done; [apply only_counters_refl|].
    exists [], [], []. rewrite !app_nil_r. split_and!; try done.
    intros x _. apply not_elem_of_nil.
  - simpl. unfold bind.
    destruct (scrape_one_spec b batch_data local_successful local_failed s)
      as (evs1 & Hoc1 & Hcc1 & Hall1 & Hres1 & Hfail1).
    destruct (scrape_one env b (batch_data, local_successful, local_failed) s)
      as [r1 s1] eqn:Hone.
    simpl in *.
    assert (Hev1 : Forall (scrape_event_of (b :: rest))
                          (EvScrape b :: evs1)).
    { apply List.Forall_cons.
      - right. exists b. split; [apply list_elem_of_here|by left].
      - eapply Forall_impl; [exact Hall1|]. intros e [-> | ->]; [by left|].
        right. exists b. split; [apply list_elem_of_here|by right]. }
    destruct Hres1 as [-> |[-> |(d & Hd & ->)]].
    + exists (EvScrape b :: evs1). simpl. split_and!; done.
    + destruct (IH batch_data local_successful (local_failed ++ [b]) s1)
        as (evs2 & Hoc2 & Hcc2 & Hall2 & Hres2).
      destruct (scrape_items env rest _ s1) as [r2 s2] eqn:Hrest.
      simpl in *. exists ((EvScrape b :: evs1) ++ evs2).
      split_and!.
      * eapply only_counters_trans; eauto.
      * congruence.
      * apply Forall_app. split; [done|].
        eapply Forall_impl; [exact Hall2|]. intros e.
        apply scrape_event_of_mono. set_solver.
      * destruct r2 as [[[bd' ls'] lf']|e]; [|done].
        destruct Hres2 as (bd & ls & lf & -> & -> & -> & Hlen & Hperm & Hsc & Hx).
        exists bd, ls, (b :: lf). split_and!; try done.
        -- by rewrite <- app_assoc.
        -- rewrite <- Permutation_middle. by rewrite Hperm.
        -- change (EvScrape b :: evs1) with ([EvScrape b] ++ evs1).
           rewrite !scraped_ids_app, (scraped_ids_fetch _ _ Hall1), Hsc.
           done.
    + destruct (IH (batch_data ++ [d]) (local_successful ++ [b]) local_failed s1)
        as (evs2 & Hoc2 & Hcc2 & Hall2 & Hres2).
      destruct (scrape_items env rest _ s1) as [r2 s2] eqn:Hrest.
      simpl in *. exists ((EvScrape b :: evs1) ++ evs2).
      split_and!.
      * eapply only_counters_trans; eauto.
      * congruence.
      * apply Forall_app. split; [done|].
        eapply Forall_impl; [exact Hall2|]. intros e.
        apply scrape_event_of_mono. set_solver.
      * destruct r2 as [[[bd' ls'] lf']|e]; [|done].
        destruct Hres2 as (bd & ls & lf & -> & -> & -> & Hlen & Hperm & Hsc & Hx).
        exists (d :: bd), (b :: ls), lf. split_and!; try done.
        -- by rewrite <- app_assoc.
        -- by rewrite <- app_assoc.
        -- simpl. by rewrite Hlen.
        -- simpl. by rewrite Hperm.
        -- change (EvScrape b :: evs1) with ([EvScrape b] ++ evs1).
           rewrite !scraped_ids_app, (scraped_ids_fetch _ _ Hall1), Hsc.
           done.
        -- intros x Hxf. rewrite not_elem_of_cons. split; [|by apply Hx].
           intros Hxb. subst x.
           assert (Hb : Ok (batch_data ++ [d], local_successful ++ [b],
                            local_failed)
                        = Ok (batch_data, local_successful,
                              local_failed ++ [b])).
           { apply Hfail1. intros i _. apply Hxf. }
           assert (Hbd : batch_data ++ [d] = batch_data) by congruence.
           apply (f_equal length) in Hbd. rewrite length_app in Hbd.
           simpl in Hbd. lia.
Qed.

End Scraping.

(** * Persistence *)

Section Persistence.

Context (env : Env).

Lemma commit_session_eq (s : State) :
  commit_session env s
  = (if commit_ok env (commit_calls s)
     then Ok tt
     else Raise (Exception "commit failed"),
     add_event EvCommit (count_commit s)).
Proof.
  unfold commit_session, db_commit, bind. st_unfold.
  by destruct (commit_ok env (commit_calls s)).
Qed.

Lemma stage_batch_no_interrupt (batch_data rows added : list Dict) :
  stage_batch batch_data rows added ≠ Raise KeyboardInterrupt.
Proof.
  revert rows added. induction batch_data as [|data rest IH];
    intros rows added; simpl; [done|].
  destruct (data !! "bacteria_id") as [v|]; [|done].
  destruct (find_existing rows v) as [[i existing]|]; [apply IH|].
  unfold Bacteria_new. case_bool_decide; [apply IH|done].
Qed.

(** [_save_batch_to_db] either commits, or rolls back and raises an
    [Exception] with the committed rows as they were. *)
Lemma save_batch_to_db_spec (batch_data : list Dict) (s : State) :
  let run := _save_batch_to_db env batch_data s in
  ∃ (evs : list event),
    run.2 = mkState (http_calls s) (commit_calls run.2)
                    (trace s ++ EvSaveBatch batch_data :: evs) (db run.2)
                    (progress_file s) (scrape_log s)
                    (successful_ids s) (failed_ids s) (progress s)
    ∧ ((run.1 = Ok tt ∧ evs = [EvCommit])
       ∨ (∃ msg : string,
            run.1 = Raise (Exception msg)
            ∧ db run.2 = db s
            ∧ (evs = [EvRollback] ∨ evs = [EvCommit; EvRollback]))).
Proof.
  intros run. subst run.
  unfold _save_batch_to_db, try_except_Exception, db_rollback, db_commit, bind.
  st_unfold.
  pose proof (stage_batch_no_interrupt batch_data (db s) []) as Hni.
  destruct (stage_batch batch_data (db s) []) as [[rows added]|[|msg]];
    [|done|].
  - destruct (unique_ids added); simpl.
    + destruct (commit_ok env (commit_calls s)); simpl.
      * exists [EvCommit]. split; [by rewrite <- app_assoc|]. by left.
      * exists [EvCommit; EvRollback].
        split; [by rewrite <- !app_assoc|]. right. eexists. split_and!; eauto.
    + exists [EvCommit; EvRollback].
      split; [by rewrite <- !app_assoc|]. right. eexists. split_and!; eauto.
  - simpl. exists [EvRollback].
    split; [by rewrite <- !app_assoc|]. right. eexists. split_and!; eauto.
Qed.

(** lines 143-153 never raise: a persistence failure is absorbed into
    [failed_ids]. *)
Lemma save_phase_spec (batch_data : list Dict) (local_successful : list string)
    (s : State) :
  let run := save_phase env batch_data local_successful s in
  run.1 = Ok tt
  ∧ ∃ evs : list event,
      run.2 = mkState (http_calls s) (commit_calls run.2)
                      (trace s ++ evs) (db run.2)
                      (progress_file s) (scrape_log s)
                      (successful_ids run.2) (failed_ids run.2) (progress s)
      ∧ ((batch_data = [] ∧ evs = [] ∧ run.2 = s)
         ∨ (batch_data ≠ [] ∧ evs = [EvSaveBatch batch_data; EvCommit]
            ∧ successful_ids run.2
              = successful_ids s ∪ list_to_set local_successful
            ∧ failed_ids run.2 = failed_ids s)
         ∨ (batch_data ≠ []
            ∧ (evs = [EvSaveBatch batch_data; EvRollback]
               ∨ evs = [EvSaveBatch batch_data; EvCommit; EvRollback])
            ∧ db run.2 = db s
            ∧ successful_ids run.2 = successful_ids s
            ∧ failed_ids run.2
              = failed_ids s ∪ list_to_set local_successful)).
Proof.
  intros run. subst run. unfold save_phase.
  destruct batch_data as [|d rest].
  { st_unfold. split; [done|]. exists []. rewrite app_nil_r.
    split; [by destruct s|]. by left. }
  unfold try_except_Exception, bind.
  destruct (save_batch_to_db_spec (d :: rest) s) as (evs & Hst & Hres).
  destruct (_save_batch_to_db env (d :: rest) s) as [r s1] eqn:Hsave.
  simpl in *.
  destruct Hres as [[-> ->]|(msg & -> & Hdb & Hevs)]; st_unfold.
  - split; [done|]. exists [EvSaveBatch (d :: rest); EvCommit].
    rewrite Hst. simpl. split; [done|]. right; left. done.
  - split; [done|]. exists (EvSaveBatch (d :: rest) :: evs).
    rewrite Hst. simpl. split; [done|]. right; right.
    split_and!; try done. destruct Hevs as [-> | ->]; auto.
Qed.

End Persistence.

(** * One batch *)

Section Batch.

Context (env : Env).

Lemma process_batch_outcome (batch_size : Z) (bacteria_ids : list string)
    (batch_idx : Z) (s : State) :
  batch_outcome env batch_size bacteria_ids batch_idx s
    (process_batch env batch_size bacteria_ids batch_idx s).1
    (process_batch env batch_size bacteria_ids batch_idx s).2.
Proof.
  unfold process_batch, bind. st_unfold.
  destruct (to_process (successful_ids s) (failed_ids s)
              (batch_ids batch_size bacteria_ids batch_idx))
    as [|b rest] eqn:Htp.
  { simpl. by apply batch_skipped. }
  destruct (scrape_items_spec env (b :: rest) [] [] [] s)
    as (evs1 & Hoc1 & Hcc1 & Hall1 & Hres1).
  destruct (scrape_items env (b :: rest) ([], [], []) s)
    as [r1 s1] eqn:Hscrape.
  simpl in Hoc1, Hcc1, Hres1.
  destruct r1 as [[[bd ls] lf]|e]; simpl.
  2:{ subst e. eapply batch_interrupted; [by rewrite Htp|exact Hoc1|].
      by rewrite Htp. }
  destruct Hres1 as (bd' & ls' & lf' & Hbd & Hls & Hlf & Hlen & Hperm & Hsc & Hx).
  simpl in Hbd, Hls, Hlf. subst bd' ls' lf'.
  destruct (save_phase_spec env bd ls s1) as (Hr2 & evs2 & Hst2 & Hres2).
  destruct (save_phase env bd ls s1) as [r2 s2] eqn:Hsave.
  simpl in Hr2, Hst2, Hres2. subst r2.
  unfold _save_progress, update_scrape_log, bind. st_unfold.
  rewrite commit_session_eq. simpl.
  unfold only_counters in Hoc1.
  assert (Hs1 : successful_ids s1 = successful_ids s
                ∧ failed_ids s1 = failed_ids s ∧ db s1 = db s
                ∧ trace s1 = trace s ++ evs1
                ∧ scrape_log s1 = scrape_log s).
  { rewrite Hoc1. done. }
  destruct Hs1 as (HS1 & HF1 & Hdb1 & Htr1 & Hlog1).
  assert (Hs2 : trace s2 = trace s ++ evs1 ++ evs2
                ∧ scrape_log s2 = scrape_log s).
  { rewrite Hst2. simpl. rewrite Htr1, Hlog1. by rewrite <- app_assoc. }
  destruct Hs2 as (Htr2 & Hlog2).
  eapply (batch_checkpointed env batch_size bacteria_ids batch_idx s _ _
            evs1 evs2 bd ls lf); simpl; rewrite ?Htp; try done.
  - destruct Hres2 as [(-> & -> & ->)|[(Hne & -> & HS & HF)|(Hne & Hev & Hdb & HS & HF)]].
    + left. split_and!; try done. by rewrite HF1.
    + right; left. split_and!; try done; congruence.
    + right; right. split_and!; try done; congruence.
  - rewrite Htr2. by rewrite <- !app_assoc.
  - by rewrite Hlog2.
  - destruct (commit_ok env (commit_calls s2)); auto.
Qed.

End Batch.

(** * The run *)

Section Run.

Context (env : Env).

Lemma load_progress_eq (s : State) :
  _load_progress s = (Ok (loaded_progress (progress_file s)), s).
Proof.
  unfold _load_progress, bind. st_unfold. by destruct (progress_file s).
Qed.

Lemma load_locals_eq (s : State) :
  load_locals s
  = (Ok (Progress.last_processed_idx (loaded_progress (progress_file s))),
     after_load s).
Proof.
  unfold load_locals, bind. rewrite load_progress_eq. reflexivity.
Qed.

Lemma final_save_eq (last_idx : Z) (s : State) :
  final_save last_idx s = (Ok tt, after_final_save last_idx s).
Proof. reflexivity. Qed.

Lemma abort_eq (msg : string) (s : State) :
  abort env msg s = (commit_result env s, after_abort msg s).
Proof.
  unfold abort, bind. st_unfold. rewrite commit_session_eq. reflexivity.
Qed.

Lemma finalize_eq (bacteria_ids : list string) (s : State) :
  finalize env bacteria_ids s
  = (commit_result env s, after_finalize bacteria_ids s).
Proof.
  unfold finalize, bind. st_unfold. rewrite commit_session_eq. reflexivity.
Qed.

(** [process_batches] in terms of the outcome of the [try] body. *)
Lemma process_batches_eq (batch_size : Z) (max_bacteria : option Z)
    (discovered : list string) (s : State) :
  batch_size ≠ 0 →
  let bacteria_ids := apply_limit max_bacteria discovered in
  let last_idx :=
    Progress.last_processed_idx (loaded_progress (progress_file s)) in
  process_batches env batch_size max_bacteria discovered s
  = match run_batches env batch_size last_idx bacteria_ids (after_load s) with
    | (Ok u, s1) => (Ok u, after_final_save last_idx s1)
    | (Raise e, s1) =>
        (commit_result env s1,
         after_final_save last_idx (after_abort (abort_message e) s1))
    end.
Proof.
  intros HB bacteria_ids last_idx.
  unfold process_batches, bind. rewrite load_locals_eq.
  destruct (Z.eqb_spec batch_size 0) as [?|_]; [done|].
  unfold try_finally, try_except_both.
  fold bacteria_ids. fold last_idx.
  destruct (run_batches env batch_size last_idx bacteria_ids (after_load s))
    as [[u|[|msg]] s1].
  - by rewrite final_save_eq.
  - rewrite abort_eq, final_save_eq. simpl.
    by destruct (commit_result env s1).
  - rewrite abort_eq, final_save_eq. simpl.
    by destruct (commit_result env s1).
Qed.

(** An invariant of a loop: [I rest s] holds before each turn, [rest] being
    the items still to visit; [E] holds when a turn raises. *)
Lemma for_each_inv {A : Type} (body : A → M unit)
    (I : list A → State → Prop) (E : exn → State → Prop) :
  (∀ (x : A) (rest : list A) (s : State),
     I (x :: rest) s →
     match body x s with
     | (Ok _, s') => I rest s'
     | (Raise e, s') => E e s'
     end) →
  ∀ (xs : list A) (s : State),
    I xs s →
    match for_each xs body s with
    | (Ok _, s') => I [] s'
    | (Raise e, s') => E e s'
    end.
Proof.
  intros Hbody xs. induction xs as [|x rest IH]; intros s HI; [done|].
  simpl. unfold bind. specialize (Hbody x rest s HI).
  destruct (body x s) as [[u|e] s1]; [|done].
  by apply IH.
Qed.

End Run.

(** * What a turn of the loop means for the bookkeeping *)

Section Summary.

Context (env : Env) (batch_size : Z) (bacteria_ids : list string).

Lemma elem_of_to_process (S F : gset string) (ids : list string) (x : string) :
  x ∈ to_process S F ids ↔ (x ∉ S) ∧ (x ∉ F) ∧ x ∈ ids.
Proof. unfold to_process. rewrite list_elem_of_filter. tauto. Qed.


Lemma to_process_NoDup (S F : gset string) (ids : list string) :
  NoDup ids → NoDup (to_process S F ids).
Proof. intros H. unfold to_process. by apply NoDup_filter. Qed.

Lemma scrape_events_scraped (tp : list string) (evs : list event) :
  Forall (scrape_event_of tp) evs → ∀ x, x ∈ scraped_ids evs → x ∈ tp.
Proof.
  induction 1 as [|e l He _ IH]; intros x Hx; [by apply elem_of_nil in Hx|].
  destruct He as [->|(i & Hi & [-> | ->])]; simpl in Hx; auto.
  apply elem_of_cons in Hx as [->|Hx]; auto.
Qed.

Lemma scrape_events_fetched (tp : list string) (evs : list event) :
  Forall (scrape_event_of tp) evs →
  ∀ u, u ∈ fetched_urls evs → ∃ x, x ∈ tp ∧ u = detail_url x.
Proof.
  induction 1 as [|e l He _ IH]; intros x Hx; [by apply elem_of_nil in Hx|].
  destruct He as [->|(i & Hi & [-> | ->])]; simpl in Hx; auto.
  apply elem_of_cons in Hx as [->|Hx]; eauto.
Qed.

Lemma scrape_events_saved (tp : list string) (evs : list event) :
  Forall (scrape_event_of tp) evs →
  saved_records evs = [] ∧ saved_batches evs = [] ∧ EvRollback ∉ evs.
Proof.
  induction 1 as [|e l He _ (IH1 & IH2 & IH3)].
  { split_and!; try done. apply not_elem_of_nil. }
  rewrite not_elem_of_cons.
  destruct He as [->|(i & Hi & [-> | ->])]; simpl; split_and!; done.
Qed.

Lemma saved_records_app (e1 e2 : list event) :
  saved_records (e1 ++ e2) = saved_records e1 ++ saved_records e2.
Proof. apply omap_app. Qed.


Lemma fetched_urls_app (e1 e2 : list event) :
  fetched_urls (e1 ++ e2) = fetched_urls e1 ++ fetched_urls e2.
Proof. apply omap_app. Qed.

Lemma saved_cursors_app (e1 e2 : list event) :
  saved_cursors (e1 ++ e2) = saved_cursors e1 ++ saved_cursors e2.
Proof. unfold saved_cursors. by rewrite saved_records_app, fmap_app. Qed.

(** The bookkeeping view of one turn.  Either nothing was checkpointed and
    the sets and the cursor are as before, or exactly one record was
    saved: the new [progress], whose sets are the old ones plus the whole
    to-process list. *)
Lemma batch_summary (batch_idx : Z) (s s' : State) (r : result unit) :
  batch_outcome env batch_size bacteria_ids batch_idx s r s' →
  let tp := to_process (successful_ids s) (failed_ids s)
              (batch_ids batch_size bacteria_ids batch_idx) in
  ∃ evs : list event,
    trace s' = trace s ++ evs
    ∧ error_message (scrape_log s') = error_message (scrape_log s)
    ∧ (∀ x : string, x ∈ scraped_ids evs → x ∈ tp)
    ∧ (∀ u : string, u ∈ fetched_urls evs → ∃ x, x ∈ tp ∧ u = detail_url x)
    ∧ ((saved_records evs = []
        ∧ successful_ids s' = successful_ids s
        ∧ failed_ids s' = failed_ids s
        ∧ progress s' = progress s
        ∧ progress_file s' = progress_file s
        ∧ db s' = db s
        ∧ (tp = [] → s' = s)
        ∧ (r = Ok tt → tp = []))
       ∨ (saved_records evs = [progress s']
          ∧ progress s'
            = Progress.mk
                (batch_end batch_size (Z.of_nat (length bacteria_ids))
                           batch_idx - 1)
                (elements (successful_ids s'))
                (elements (failed_ids s'))
          ∧ progress_file s' = Stored (progress s')
          ∧ tp ≠ []
          ∧ successful_ids s ⊆ successful_ids s'
          ∧ failed_ids s ⊆ failed_ids s'
          ∧ successful_ids s' ∪ failed_ids s'
            = successful_ids s ∪ failed_ids s ∪ list_to_set tp
          ∧ (NoDup tp → successful_ids s ## failed_ids s →
             successful_ids s' ## failed_ids s'))).
Proof.
  intros Hout tp.
  destruct Hout as [Hnil|s' evs Hne Hoc Hall|r s' evs1 evs2 bd ls lf tp' p
      Hne Hall Hsc Hperm Hlen Hfail Hpersist Htrace Hprog Hfile Herr Hr].
  - exists []. rewrite app_nil_r. split_and!; try done.
    + intros x Hx. by apply elem_of_nil in Hx.
    + intros x Hx. by apply elem_of_nil in Hx.
    + left. split_and!; done.
  - unfold only_counters in Hoc. exists evs.
    pose proof (scrape_events_scraped _ _ Hall) as Hsc.
    pose proof (scrape_events_fetched _ _ Hall) as Hfu.
    destruct (scrape_events_saved _ _ Hall) as (Hsv & _ & _).
    rewrite Hoc. simpl. split_and!; try done.
    left. split_and!; done.
  - subst tp'. fold tp in Hne, Hall, Hsc, Hperm.
    exists (evs1 ++ evs2 ++ [EvSaveProgress p; EvCommit]).
    destruct (scrape_events_saved _ _ Hall) as (Hsv1 & _ & _).
    assert (Hev2 : scraped_ids evs2 = [] ∧ fetched_urls evs2 = []
                   ∧ saved_records evs2 = []).
    { destruct Hpersist as [(_ & -> & _)|[(_ & -> & _)|(_ & [-> | ->] & _)]];
        done. }
    destruct Hev2 as (Hsc2 & Hfu2 & Hsv2).
    assert (Htp : ∀ x, x ∈ tp → (x ∉ successful_ids s) ∧ (x ∉ failed_ids s)).
    { intros x Hx. apply elem_of_to_process in Hx. tauto. }
    assert (Hin : ∀ x, x ∈ tp ↔ x ∈ ls ∨ x ∈ lf).
    { intros x. rewrite <- Hperm. apply elem_of_app. }
    split_and!; try done.
    + intros x. rewrite !scraped_ids_app, Hsc, Hsc2. simpl.
      by rewrite app_nil_r.
    + intros u. rewrite !fetched_urls_app, Hfu2. simpl. rewrite app_nil_r.
      by apply scrape_events_fetched.
    + right. rewrite !saved_records_app, Hsv1, Hsv2. simpl.
      rewrite Hprog.
      assert (Hls : bd = [] → ls = []).
      { intros ->. simpl in Hlen. by destruct ls. }
      split_and!; try done.
      * destruct Hpersist as [(_ & _ & _ & -> & _)|[(_ & _ & -> & _)|(_ & _ & _ & -> & _)]];
          set_solver.
      * destruct Hpersist as [(_ & _ & _ & _ & ->)|[(_ & _ & _ & ->)|(_ & _ & _ & _ & ->)]];
          set_solver.
      * destruct Hpersist as [(Hbd & _ & _ & -> & ->)|[(_ & _ & -> & ->)|(_ & _ & _ & -> & ->)]].
        -- specialize (Hls Hbd). subst ls. set_solver.
        -- set_solver.
        -- set_solver.
      * intros Hnd Hdisj.
        assert (Hlslf : ∀ x, x ∈ ls → x ∈ lf → False).
        { rewrite <- Hperm in Hnd. apply NoDup_app in Hnd as (_ & Hd & _).
          exact Hd. }
        destruct Hpersist as [(Hbd & _ & _ & -> & ->)|[(_ & _ & -> & ->)|(_ & _ & _ & -> & ->)]].
        -- set_solver.
        -- set_solver.
        -- set_solver.
Qed.

End Summary.

(** * Invariants of a run *)

Section RunInvariant.

Context (env : Env) (batch_size : Z) (max_bacteria : option Z)
        (discovered : list string).

(** To establish [J] of the state in which the [finally] clause runs:
    [I rest] is the loop invariant, [rest] being the batches still to
    visit; a turn that raises must leave [J]; the scrape-log updates of
    lines 176-180 and of the handlers must keep [J]. *)
Lemma process_batches_inv (I : list Z → State → Prop) (J : State → Prop)
    (s0 : State) :
  batch_size ≠ 0 →
  let bacteria_ids := apply_limit max_bacteria discovered in
  let last_idx :=
    Progress.last_processed_idx (loaded_progress (progress_file s0)) in
  I (batch_indices batch_size last_idx bacteria_ids) (after_load s0) →
  (∀ (k : Z) (rest : list Z) (s s' : State) (r : result unit),
     I (k :: rest) s →
     batch_outcome env batch_size bacteria_ids k s r s' →
     match r with Ok _ => I rest s' | Raise _ => J s' end) →
  (∀ s : State, I [] s → J s) →
  (∀ s : State, J s → J (after_finalize bacteria_ids s)) →
  (∀ (msg : string) (s : State), J s → J (after_abort msg s)) →
  ∃ s1 : State,
    J s1
    ∧ (process_batches env batch_size max_bacteria discovered s0).2
      = after_final_save last_idx s1.
Proof.
  intros HB bacteria_ids last_idx Hinit Hstep Hend Hfin Habort.
  rewrite process_batches_eq by done.
  fold bacteria_ids. fold last_idx.
  unfold run_batches, bind.
  pose proof (for_each_inv (process_batch env batch_size bacteria_ids)
                I (fun _ => J)) as Hloop.
  specialize (Hloop ltac:(
    intros k rest s HI;
    pose proof (Hstep k rest s _ _ HI
                  (process_batch_outcome env batch_size bacteria_ids k s));
    by destruct (process_batch env batch_size bacteria_ids k s) as [[?|?] ?])).
  specialize (Hloop _ _ Hinit).
  destruct (for_each (batch_indices batch_size last_idx bacteria_ids)
              (process_batch env batch_size bacteria_ids) (after_load s0))
    as [[u|e] s1].
  - rewrite finalize_eq.
    destruct (commit_result env s1) as [u'|e]; simpl.
    + eexists. split; [|reflexivity]. by apply Hfin, Hend.
    + eexists. split; [|reflexivity]. by apply Habort, Hfin, Hend.
  - simpl. eexists. split; [|reflexivity]. by apply Habort.
Qed.

End RunInvariant.

(** * No double processing *)

Section NoDoubleProcessing.

Context (env : Env) (batch_size : Z) (max_bacteria : option Z)
        (discovered : list string).

Lemma string_app_inj (p a b : string) : p +:+ a = p +:+ b → a = b.
Proof. induction p as [|c p IH]; simpl; [done|]. intros [= H]. auto. Qed.

Lemma detail_url_inj (x y : string) : detail_url x = detail_url y → x = y.
Proof.
  unfold detail_url. intros H.
  apply string_app_inj in H. by apply string_app_inj in H.
Qed.

Lemma untouched_app (known : gset string) (e1 e2 : list event) :
  untouched known e1 → untouched known e2 → untouched known (e1 ++ e2).
Proof.
  intros H1 H2 x Hx. rewrite scraped_ids_app, fetched_urls_app.
  rewrite !elem_of_app. destruct (H1 x Hx), (H2 x Hx). tauto.
Qed.

Lemma process_batches_untouched (s0 : State) :
  let known := successful_ids (after_load s0) ∪ failed_ids (after_load s0) in
  ∃ evs : list event,
    trace (process_batches env batch_size max_bacteria discovered s0).2
    = trace s0 ++ evs
    ∧ untouched known evs.
Proof.
  intros known.
  destruct (decide (batch_size = 0)) as [->|HB].
  { exists []. unfold process_batches, bind. rewrite load_locals_eq. simpl.
    rewrite app_nil_r. split; [done|]. intros x _.
    split; apply not_elem_of_nil. }
  set (J := fun s : State =>
    known ⊆ successful_ids s ∪ failed_ids s
    ∧ ∃ evs, trace s = trace s0 ++ evs ∧ untouched known evs).
  destruct (process_batches_inv env batch_size max_bacteria discovered
              (fun _ => J) J s0 HB) as (s1 & (Hsub & evs & Htr & Hun) & ->).
  - split; [done|]. exists []. rewrite app_nil_r. split; [done|].
    intros x _. split; apply not_elem_of_nil.
  - intros k rest s s' r (Hsub & evs & Htr & Hun) Hout.
    apply batch_summary in Hout
      as (evs' & Htr' & _ & Hsc & Hfu & Hcases).
    assert (J s') as HJ; [|by destruct r].
    split.
    + destruct Hcases as [(_ & -> & -> & _)|(_ & _ & _ & _ & HS & HF & _)];
        set_solver.
    + exists (evs ++ evs'). rewrite Htr', Htr, app_assoc.
      split; [done|]. apply untouched_app; [done|].
      intros x Hx. split.
      * intros Hin. apply Hsc, elem_of_to_process in Hin. set_solver.
      * intros Hin. apply Hfu in Hin as (y & Hy & Heq).
        apply detail_url_inj in Heq. subst y.
        apply elem_of_to_process in Hy. set_solver.
  - done.
  - intros s (Hsub & evs & Htr & Hun). split; [done|].
    exists (evs ++ [EvCommit]). simpl. rewrite Htr, app_assoc.
    split; [done|]. apply untouched_app; [done|].
    intros x _. split; apply not_elem_of_nil.
  - intros msg s (Hsub & evs & Htr & Hun). split; [done|].
    exists (evs ++ [EvCommit]). simpl. rewrite Htr, app_assoc.
    split; [done|]. apply untouched_app; [done|].
    intros x _. split; apply not_elem_of_nil.
  - eexists (evs ++ [_]). simpl. rewrite Htr, app_assoc.
    split; [done|]. apply untouched_app; [done|].
    intros x _. split; apply not_elem_of_nil.
Qed.

Lemma process_batch_skip (bacteria_ids : list string) (batch_idx : Z)
    (s : State) :
  to_process (successful_ids s) (failed_ids s)
             (batch_ids batch_size bacteria_ids batch_idx) = [] →
  process_batch env batch_size bacteria_ids batch_idx s = (Ok tt, s).
Proof. intros H. unfold process_batch, bind. st_unfold. by rewrite H. Qed.

End NoDoubleProcessing.

(** C3 (no double processing).  An identifier that the loaded progress
    record lists as successful or failed is never passed to
    [scrape_bacteria] and its page is never fetched; a batch with nothing
    left to process leaves the whole state as it was: no database call,
    no progress save, no event at all. *)
Theorem no_double_processing (env : Env) (batch_size : Z)
    (max_bacteria : option Z) (discovered : list string)
    (s0 : State) (loaded : Progress.t) :
  progress_file s0 = Stored loaded →
  (∃ evs : list event,
     trace (process_batches env batch_size max_bacteria discovered s0).2
     = trace s0 ++ evs
     ∧ ∀ x : string,
         x ∈ Progress.successful_ids loaded ∨ x ∈ Progress.failed_ids loaded →
         (x ∉ scraped_ids evs) ∧ (detail_url x ∉ fetched_urls evs))
  ∧ (∀ (s : State) (batch_idx : Z),
       to_process (successful_ids s) (failed_ids s)
         (batch_ids batch_size (apply_limit max_bacteria discovered)
                    batch_idx) = [] →
       process_batch env batch_size (apply_limit max_bacteria discovered)
                     batch_idx s = (Ok tt, s)).
Proof.
  intros Hfile. split.
  - destruct (process_batches_untouched env batch_size max_bacteria
                discovered s0) as (evs & Htr & Hun).
    exists evs. split; [done|]. intros x Hx. apply Hun.
    unfold after_load. rewrite Hfile. simpl.
    rewrite elem_of_union, !elem_of_list_to_set. done.
  - intros s k. apply process_batch_skip.
Qed.

(** * Cursor monotonicity *)

Section CursorMonotone.

Context (env : Env) (batch_size : Z) (max_bacteria : option Z)
        (discovered : list string).
Context (Hpos : 0 < batch_size).

Lemma batch_end_mono (len k k' : Z) :
  k ≤ k' → batch_end batch_size len k ≤ batch_end batch_size len k'.
Proof. unfold batch_end, batch_start. intros H. nia. Qed.

Lemma py_range_sorted (a b : Z) : StronglySorted Z.lt (py_range a b).
Proof.
  unfold py_range. generalize (Z.to_nat (b - a)) as n. intros n.
  revert a. induction n as [|n IH]; intros a; simpl; [constructor|].
  apply StronglySorted_cons. split.
  - apply Forall_forall. intros k Hk.
    apply list_elem_of_fmap in Hk as (i & -> & Hi).
    apply elem_of_seq in Hi. lia.
  - rewrite <- fmap_S_seq, <- list_fmap_compose.
    specialize (IH (a + 1)).
    erewrite list_fmap_ext; [exact IH|].
    intros ? i _. simpl. lia.
Qed.

Lemma StronglySorted_snoc (l : list Z) (x : Z) :
  StronglySorted Z.le l → (∀ c, c ∈ l → c ≤ x) →
  StronglySorted Z.le (l ++ [x]).
Proof.
  intros Hl Hx. apply StronglySorted_app. split_and!; try done.
  - intros c y Hc Hy. apply list_elem_of_singleton in Hy as ->. auto.
  - repeat constructor.
Qed.

Lemma StronglySorted_lookup_le (l : list Z) (i j : nat) (ci cj : Z) :
  StronglySorted Z.le l → (i ≤ j)%nat →
  l !! i = Some ci → l !! j = Some cj → ci ≤ cj.
Proof.
  intros Hl. revert i j.
  induction Hl as [|x l Hl IH Hx]; intros i j Hij Hi Hj; [done|].
  destruct i as [|i], j as [|j]; simpl in *; simplify_eq; try lia.
  - rewrite Forall_forall in Hx. apply Hx.
    eapply list_elem_of_lookup_2; eauto.
  - apply (IH i j); [lia|done|done].
Qed.

Lemma process_batches_cursors (s0 : State) :
  ∃ evs : list event,
    trace (process_batches env batch_size max_bacteria discovered s0).2
    = trace s0 ++ evs
    ∧ StronglySorted Z.le (saved_cursors evs).
Proof.
  set (bacteria_ids := apply_limit max_bacteria discovered).
  set (len := Z.of_nat (length bacteria_ids)).
  set (J := fun s : State =>
    ∃ evs, trace s = trace s0 ++ evs
           ∧ StronglySorted Z.le (saved_cursors evs)
           ∧ ∀ c, c ∈ saved_cursors evs →
                  c ≤ Progress.last_processed_idx (progress s)).
  set (I := fun (rest : list Z) (s : State) =>
    StronglySorted Z.lt rest
    ∧ ∃ evs, trace s = trace s0 ++ evs
             ∧ StronglySorted Z.le (saved_cursors evs)
             ∧ (∀ c, c ∈ saved_cursors evs →
                     c ≤ Progress.last_processed_idx (progress s))
             ∧ (∀ c k, c ∈ saved_cursors evs → k ∈ rest →
                       c ≤ batch_end batch_size len k - 1)).
  destruct (process_batches_inv env batch_size max_bacteria discovered
              I J s0 ltac:(lia)) as (s1 & (evs & Htr & Hsorted & Hle) & ->).
  - split; [apply py_range_sorted|]. exists []. rewrite app_nil_r.
    split_and!; try done.
    + constructor.
    + intros c Hc. by apply elem_of_nil in Hc.
    + intros c k Hc. by apply elem_of_nil in Hc.
  - intros k rest s s' r (Hrest & evs & Htr & Hsorted & Hle & Hnext) Hout.
    apply StronglySorted_cons in Hrest as (Hk & Hrest).
    apply batch_summary in Hout as (evs' & Htr' & _ & _ & _ & Hcases).
    assert (I rest s') as HI.
    { split; [done|]. exists (evs ++ evs'). rewrite Htr', Htr, app_assoc.
      split; [done|]. rewrite saved_cursors_app. unfold saved_cursors at 2 4 6.
      destruct Hcases as [(-> & _ & _ & -> & _)|(-> & Hp & _)]; simpl.
      - rewrite app_nil_r. split_and!; try done.
        intros c k' Hc Hk'. apply Hnext; [done|]. by apply list_elem_of_further.
      - assert (Hcur : Progress.last_processed_idx (progress s')
                       = batch_end batch_size len k - 1) by by rewrite Hp.
        rewrite Hcur. split_and!.
        + apply StronglySorted_snoc; [done|]. intros c Hc.
          apply Hnext; [done|]. apply list_elem_of_here.
        + intros c Hc. apply elem_of_app in Hc as [Hc|Hc].
          * apply Hnext; [done|]. apply list_elem_of_here.
          * apply list_elem_of_singleton in Hc. lia.
        + intros c k' Hc Hk'. apply elem_of_app in Hc as [Hc|Hc].
          * apply Hnext; [done|]. by apply list_elem_of_further.
          * apply list_elem_of_singleton in Hc. subst c.
            rewrite Forall_forall in Hk. specialize (Hk k' Hk').
            pose proof (batch_end_mono len k k' ltac:(lia)). lia. }
    destruct r; [done|]. destruct HI as (_ & evs2 & ? & ? & ? & _).
    exists evs2. done.
  - intros s (_ & evs & ? & ? & ? & _). by exists evs.
  - intros s (evs & Htr & Hsorted & Hle).
    exists (evs ++ [EvCommit]). simpl. rewrite Htr, app_assoc.
    rewrite saved_cursors_app. simpl. rewrite app_nil_r. done.
  - intros msg s (evs & Htr & Hsorted & Hle).
    exists (evs ++ [EvCommit]). simpl. rewrite Htr, app_assoc.
    rewrite saved_cursors_app. simpl. rewrite app_nil_r. done.
  - eexists (evs ++ [_]). simpl. rewrite Htr, app_assoc.
    split; [done|]. rewrite saved_cursors_app. simpl.
    apply StronglySorted_snoc; [done|].
    intros c Hc. specialize (Hle c Hc). unfold final_progress. simpl. lia.
Qed.

End CursorMonotone.

(** C7 (cursor monotonicity).  Within one run the cursors of the records
    handed to [_save_progress], the save of the [finally] clause
    included, never decrease: a later save never carries a smaller
    [last_processed_idx] than an earlier one. *)
Theorem cursor_monotone (env : Env) (batch_size : Z)
    (max_bacteria : option Z) (discovered : list string) (s0 : State) :
  0 < batch_size →
  ∃ evs : list event,
    trace (process_batches env batch_size max_bacteria discovered s0).2
    = trace s0 ++ evs
    ∧ StronglySorted Z.le (saved_cursors evs)
    ∧ (∀ (i j : nat) (ci cj : Z),
         (i ≤ j)%nat →
         saved_cursors evs !! i = Some ci →
         saved_cursors evs !! j = Some cj →
         ci ≤ cj).
Proof.
  intros Hpos.
  destruct (process_batches_cursors env batch_size max_bacteria discovered
              Hpos s0) as (evs & Htr & Hsorted).
  exists evs. split_and!; try done.
  intros i j ci cj. by apply StronglySorted_lookup_le.
Qed.

(** * The invariant of the saved progress records *)

Section ProgressInvariant.

Context (env : Env) (batch_size : Z) (max_bacteria : option Z)
        (discovered : list string).
Context (Hpos : 0 < batch_size).

Lemma py_slice_sublist {A : Type} (l : list A) (a b : Z) :
  py_slice l a b `sublist_of` l.
Proof.
  unfold py_slice. etrans; [apply sublist_take|apply sublist_drop].
Qed.

Lemma batch_ids_sublist (ids : list string) (k : Z) :
  batch_ids batch_size ids k `sublist_of` ids.
Proof. apply py_slice_sublist. Qed.

(** A position below the end of batch [k] that is not below its start is
    an item of the batch. *)
Lemma batch_ids_covers (ids : list string) (k : Z) (i : nat) (x : string) :
  ids !! i = Some x →
  k * batch_size ≤ Z.of_nat i < (k + 1) * batch_size →
  x ∈ batch_ids batch_size ids k.
Proof.
  intros Hi Hrange.
  assert (0 ≤ k) by nia.
  apply list_elem_of_lookup.
  exists (Z.to_nat (Z.of_nat i - k * batch_size)).
  rewrite batch_ids_lookup by done.
  rewrite decide_True by lia.
  rewrite <- Hi. f_equal. lia.
Qed.

Lemma process_batches_invariant (s0 : State) :
  let bacteria_ids := apply_limit max_bacteria discovered in
  NoDup bacteria_ids →
  progress_invariant bacteria_ids (loaded_progress (progress_file s0)) →
  ∃ evs : list event,
    trace (process_batches env batch_size max_bacteria discovered s0).2
    = trace s0 ++ evs
    ∧ Forall (progress_invariant bacteria_ids) (saved_records evs).
Proof.
  intros bacteria_ids Hnd [Hdisj0 Hcov0].
  set (loaded := loaded_progress (progress_file s0)) in *.
  set (last_idx := Progress.last_processed_idx loaded).
  set (total := total_batches (Z.of_nat (length bacteria_ids)) batch_size).
  set (covered := fun (n : Z) (s : State) =>
    ∀ (i : nat) (x : string),
      bacteria_ids !! i = Some x → Z.of_nat i < n →
      x ∈ successful_ids s ∪ failed_ids s).
  set (J := fun s : State =>
    successful_ids s ## failed_ids s
    ∧ covered (Z.max last_idx (Progress.last_processed_idx (progress s)) + 1) s
    ∧ ∃ evs, trace s = trace s0 ++ evs
             ∧ Forall (progress_invariant bacteria_ids) (saved_records evs)).
  set (I := fun (rest : list Z) (s : State) =>
    J s ∧ ∃ k, rest = py_range k total ∧ covered (k * batch_size) s).
  assert (Hinv : ∀ s : State,
    successful_ids s ## failed_ids s →
    ∀ c : Z, covered (c + 1) s →
    progress_invariant bacteria_ids
      (Progress.mk c (elements (successful_ids s))
                     (elements (failed_ids s)))).
  { intros s Hd c Hc. split; simpl.
    - intros x. rewrite !elem_of_elements. intros ? ?. set_solver.
    - intros i x Hi Hle. rewrite !elem_of_elements.
      apply elem_of_union, (Hc i x Hi). lia. }
  destruct (process_batches_inv env batch_size max_bacteria discovered
              I J s0 ltac:(lia))
    as (s1 & (Hd1 & Hc1 & evs & Htr & Hall) & ->).
  - fold bacteria_ids. fold loaded. fold last_idx.
    assert (Hload : covered (last_idx + 1) (after_load s0)).
    { intros i x Hi Hlt. unfold after_load. fold loaded. simpl.
      rewrite elem_of_union, !elem_of_list_to_set.
      apply (Hcov0 i x Hi). unfold last_idx in Hlt. lia. }
    split; [split_and!|].
    + unfold after_load. fold loaded. simpl.
      apply elem_of_disjoint. intros x.
      rewrite !elem_of_list_to_set. apply Hdisj0.
    + unfold after_load at 1. fold loaded. simpl. fold last_idx.
      by rewrite Z.max_id.
    + exists []. rewrite app_nil_r. split; [done|]. constructor.
    + exists (start_batch last_idx batch_size). split; [done|].
      intros i x Hi Hlt. apply (Hload i x Hi).
      unfold start_batch in Hlt.
      pose proof (Z.div_mod (last_idx + 1) batch_size ltac:(lia)).
      pose proof (Z.mod_pos_bound (last_idx + 1) batch_size Hpos).
      nia.
  - fold bacteria_ids.
    intros k rest s s' r
      ((Hd & Hc & evs & Htr & Hall) & k0 & Hrest & Hbelow) Hout.
    assert (Hk : k0 < total ∧ k = k0 ∧ rest = py_range (k0 + 1) total).
    { destruct (Z.lt_ge_cases k0 total) as [Hlt|Hge].
      - rewrite py_range_cons in Hrest by done. by simplify_eq.
      - unfold py_range in Hrest.
        replace (Z.to_nat (total - k0)) with 0%nat in Hrest by lia. done. }
    destruct Hk as (Hlt & -> & ->).
    apply batch_summary in Hout as (evs' & Htr' & _ & _ & _ & Hcases).
    set (tp := to_process (successful_ids s) (failed_ids s)
                 (batch_ids batch_size bacteria_ids k0)) in *.
    assert (HJ : J s' ∧ (∀ x, x ∈ batch_ids batch_size bacteria_ids k0 →
                              x ∈ successful_ids s ∪ failed_ids s
                              ∨ x ∈ tp) ∧
                 (successful_ids s ∪ failed_ids s ⊆
                    successful_ids s' ∪ failed_ids s') ∧
                 (r = Ok tt → ∀ x, x ∈ tp → x ∈ successful_ids s' ∪ failed_ids s')).
    { assert (Hsplit : ∀ x, x ∈ batch_ids batch_size bacteria_ids k0 →
                x ∈ successful_ids s ∪ failed_ids s ∨ x ∈ tp).
      { intros x Hx.
        destruct (decide (x ∈ successful_ids s ∪ failed_ids s)) as [|Hn];
          [by left|right].
        apply elem_of_to_process. set_solver. }
      destruct Hcases as [(Hsv & HS & HF & Hp & _ & _ & _ & Hok)
                         |(Hsv & Hp & _ & _ & HS & HF & Hun & Hdj)].
      - split_and!; try done.
        + split_and!.
          * by rewrite HS, HF.
          * rewrite Hp. intros i x Hi Hl. rewrite HS, HF. eauto.
          * exists (evs ++ evs'). rewrite Htr', Htr, app_assoc.
            split; [done|]. rewrite saved_records_app, Hsv, app_nil_r. done.
        + by rewrite HS, HF.
        + intros Hr x Hx. rewrite (Hok Hr) in Hx. by apply elem_of_nil in Hx.
      - assert (Hd' : successful_ids s' ## failed_ids s').
        { apply Hdj; [|done]. apply to_process_NoDup.
          eapply sublist_NoDup; [exact Hnd|apply batch_ids_sublist]. }
        assert (Hcov' : covered ((k0 + 1) * batch_size) s').
        { intros i x Hi Hl. rewrite Hun.
          destruct (Z.lt_ge_cases (Z.of_nat i) (k0 * batch_size)) as [Hb|Hb].
          - specialize (Hbelow i x Hi Hb). set_solver.
          - assert (Hx : x ∈ batch_ids batch_size bacteria_ids k0)
              by (eapply batch_ids_covers; eauto; lia).
            destruct (Hsplit x Hx); set_solver. }
        split_and!; try done.
        + split_and!; try done.
          * rewrite Hp. simpl. intros i x Hi Hl.
            destruct (Z.lt_ge_cases (Z.of_nat i) (last_idx + 1)) as [Hb|Hb].
            -- assert (x ∈ successful_ids s ∪ failed_ids s) by
                 (apply (Hc i x Hi); lia).
               set_solver.
            -- apply (Hcov' i x Hi). unfold batch_end, batch_start in Hl.
               lia.
          * exists (evs ++ evs'). rewrite Htr', Htr, app_assoc.
            split; [done|]. rewrite saved_records_app, Hsv.
            apply Forall_app. split; [done|]. constructor; [|constructor].
            rewrite Hp. apply Hinv; [done|].
            intros i x Hi Hl. apply (Hcov' i x Hi).
            unfold batch_end, batch_start in Hl. lia.
        + set_solver.
        + intros _ x Hx. rewrite Hun. set_solver. }
    destruct HJ as (HJ & Hsplit & Hmono & Hok).
    destruct r as [[]|e]; [|done].
    split; [done|]. exists (k0 + 1). split; [done|].
    intros i x Hi Hl.
    destruct (Z.lt_ge_cases (Z.of_nat i) (k0 * batch_size)) as [Hb|Hb].
    + apply Hmono. by apply (Hbelow i x Hi).
    + assert (Hx : x ∈ batch_ids batch_size bacteria_ids k0)
        by (eapply batch_ids_covers; eauto; lia).
      destruct (Hsplit x Hx); [by apply Hmono|by apply Hok].
  - by intros s [HJ _].
  - intros s (Hd & Hc & evs & Htr & Hall). split_and!; try done.
    exists (evs ++ [EvCommit]). simpl. rewrite Htr, app_assoc.
    split; [done|]. rewrite saved_records_app. simpl. by rewrite app_nil_r.
  - intros msg s (Hd & Hc & evs & Htr & Hall). split_and!; try done.
    exists (evs ++ [EvCommit]). simpl. rewrite Htr, app_assoc.
    split; [done|]. rewrite saved_records_app. simpl. by rewrite app_nil_r.
  - fold loaded. fold last_idx.
    eexists (evs ++ [_]). simpl. rewrite Htr, app_assoc.
    split; [done|]. rewrite saved_records_app. simpl.
    apply Forall_app. split; [done|]. constructor; [|constructor].
    unfold final_progress. by apply Hinv.
Qed.

End ProgressInvariant.

(** C6 (invariant of the progress record).  When the identifiers of the
    sequence the run works on are pairwise distinct and the loaded record
    satisfies the invariant for that sequence, every record handed to
    [_save_progress] satisfies it too: no identifier is both successful
    and failed, and every position up to [last_processed_idx] is in one
    of the two sets. *)
Theorem saved_progress_invariant (env : Env) (batch_size : Z)
    (max_bacteria : option Z) (discovered : list string) (s0 : State) :
  0 < batch_size →
  NoDup (apply_limit max_bacteria discovered) →
  progress_invariant (apply_limit max_bacteria discovered)
                     (loaded_progress (progress_file s0)) →
  ∃ evs : list event,
    trace (process_batches env batch_size max_bacteria discovered s0).2
    = trace s0 ++ evs
    ∧ ∀ p : Progress.t,
        p ∈ saved_records evs →
        progress_invariant (apply_limit max_bacteria discovered) p.
Proof.
  intros Hpos Hnd Hinv.
  destruct (process_batches_invariant env batch_size max_bacteria discovered
              Hpos s0 Hnd Hinv) as (evs & Htr & Hall).
  exists evs. split; [done|]. by apply Forall_forall.
Qed.

(** * Running again after a complete run *)

Section Resume.

Context (batch_size : Z) (max_bacteria : option Z) (discovered : list string).
Context (Hpos : 0 < batch_size).

(** The three ways a run ends, by the outcome of the loop over batches and
    of the commit of lines 176-180. *)
Lemma process_batches_cases (env : Env) (s0 : State) :
  let bacteria_ids := apply_limit max_bacteria discovered in
  let last_idx :=
    Progress.last_processed_idx (loaded_progress (progress_file s0)) in
  let loop :=
    for_each (batch_indices batch_size last_idx bacteria_ids)
             (process_batch env batch_size bacteria_ids) (after_load s0) in
  process_batches env batch_size max_bacteria discovered s0
  = match loop.1 with
    | Ok _ =>
        if commit_ok env (commit_calls loop.2)
        then (Ok tt,
              after_final_save last_idx (after_finalize bacteria_ids loop.2))
        else (commit_result env (after_finalize bacteria_ids loop.2),
              after_final_save last_idx
                (after_abort "commit failed"
                   (after_finalize bacteria_ids loop.2)))
    | Raise e =>
        (commit_result env loop.2,
         after_final_save last_idx (after_abort (abort_message e) loop.2))
    end.
Proof.
  intros bacteria_ids last_idx loop.
  rewrite process_batches_eq by lia.
  fold bacteria_ids. fold last_idx. unfold run_batches, bind. fold loop.
  destruct loop as [[[]|e] sl]; simpl; [|done].
  rewrite finalize_eq. unfold commit_result at 1.
  by destruct (commit_ok env (commit_calls sl)).
Qed.





End Resume.


(** * Batch atomicity *)

(** C1 (batch atomicity).  When [_save_batch_to_db] raises, it has rolled
    back and the committed rows are as before.  For a turn of the loop in
    which that happened (its events contain the rollback): the rows of
    table [bacteria] are still as before the turn, and every item of the
    turn's to-process list is in [failed_ids] and not in
    [successful_ids], in the locals and in the progress record the turn
    saved. *)
Theorem batch_atomicity (env : Env) :
  (∀ (batch_data : list Dict) (s : State) (e : exn),
     (_save_batch_to_db env batch_data s).1 = Raise e →
     db (_save_batch_to_db env batch_data s).2 = db s
     ∧ ∃ evs : list event,
         trace (_save_batch_to_db env batch_data s).2
         = trace s ++ evs ++ [EvRollback])
  ∧ (∀ (batch_size : Z) (bacteria_ids : list string) (batch_idx : Z)
       (s : State) (evs : list event),
       let s' := (process_batch env batch_size bacteria_ids batch_idx s).2 in
       trace s' = trace s ++ evs →
       EvRollback ∈ evs →
       db s' = db s
       ∧ ∃ p : Progress.t,
           progress_file s' = Stored p
           ∧ EvSaveProgress p ∈ evs
           ∧ ∀ x : string,
               x ∈ to_process (successful_ids s) (failed_ids s)
                     (batch_ids batch_size bacteria_ids batch_idx) →
               x ∈ failed_ids s'
               ∧ (x ∉ successful_ids s')
               ∧ x ∈ Progress.failed_ids p
               ∧ (x ∉ Progress.successful_ids p)).
Proof.
  split.
  - intros batch_data s e Hraise.
    destruct (save_batch_to_db_spec env batch_data s) as (evs & Hst & Hres).
    destruct (_save_batch_to_db env batch_data s) as [r s1].
    simpl in *. subst r.
    destruct Hres as [[? _]|(msg & _ & Hdb & Hevs)]; [done|].
    split; [done|]. rewrite Hst. simpl.
    destruct Hevs as [-> | ->].
    + by exists [EvSaveBatch batch_data].
    + by exists [EvSaveBatch batch_data; EvCommit].
  - intros batch_size bacteria_ids batch_idx s evs s' Htr Hrb. subst s'.
    pose proof (process_batch_outcome env batch_size bacteria_ids batch_idx s)
      as Hout.
    destruct (process_batch env batch_size bacteria_ids batch_idx s)
      as [r s'].
    simpl in *.
    destruct Hout as [Hnil|s' evs0 Hne Hoc Hall|r s' evs1 evs2 bd ls lf tp p
      Hne Hall Hsc Hperm Hlen Hfail Hpersist Htrace Hprog Hfile Herr Hr].
    + rewrite <- (app_nil_r (trace s)) in Htr at 1.
      apply app_inv_head in Htr. subst evs. by apply elem_of_nil in Hrb.
    + unfold only_counters in Hoc. rewrite Hoc in Htr. simpl in Htr.
      apply app_inv_head in Htr. subst evs0.
      by destruct (scrape_events_saved _ _ Hall) as (_ & _ & Hno).
    + rewrite Htrace in Htr. apply app_inv_head in Htr. subst evs.
      destruct (scrape_events_saved _ _ Hall) as (_ & _ & Hno).
      assert (Hfailed : db s' = db s
                ∧ successful_ids s' = successful_ids s
                ∧ failed_ids s'
                  = failed_ids s ∪ list_to_set ls ∪ list_to_set lf).
      { destruct Hpersist as [(_ & -> & _)|[(_ & -> & _)|(_ & _ & ? & ? & ?)]];
          [exfalso..|done].
        all: rewrite !elem_of_app, ?elem_of_cons, ?elem_of_nil in Hrb;
          naive_solver. }
      destruct Hfailed as (Hdb & HS & HF).
      split; [done|]. exists p. split; [done|]. split.
      { rewrite !elem_of_app, !elem_of_cons. auto. }
      intros x Hx.
      assert (x ∈ ls ∨ x ∈ lf) as Hin
        by (apply elem_of_app; by rewrite Hperm).
      apply elem_of_to_process in Hx as (HxS & HxF & _).
      subst p. simpl. rewrite !elem_of_elements, HS, HF.
      split_and!; try done; set_solver.
Qed.

(** * Loading the progress file *)

(** On the files a run can leave or lose: [_load_progress] changes
    nothing; when the file is missing or unreadable it returns the zero
    record, and the run then starts with empty sets at batch 0, over all
    the batches. *)
Lemma load_progress_zero_record (s : State) :
  progress_file s = NoFile ∨ progress_file s = Unreadable →
  _load_progress s = (Ok (Progress.mk (-1) [] []), s)
  ∧ (∀ s' : State, ∃ p : Progress.t, _load_progress s' = (Ok p, s'))
  ∧ (load_locals s).1 = Ok (-1)
  ∧ successful_ids (load_locals s).2 = ∅
  ∧ failed_ids (load_locals s).2 = ∅
  ∧ (∀ (batch_size : Z) (bacteria_ids : list string),
       0 < batch_size →
       batch_indices batch_size (-1) bacteria_ids
       = py_range 0 (total_batches (Z.of_nat (length bacteria_ids))
                                   batch_size)).
Proof.
  intros Hfile. split_and!.
  - rewrite load_progress_eq. by destruct Hfile as [-> | ->].
  - intros s'. eexists. apply load_progress_eq.
  - rewrite load_locals_eq. by destruct Hfile as [-> | ->].
  - rewrite load_locals_eq. unfold after_load.
    by destruct Hfile as [-> | ->].
  - rewrite load_locals_eq. unfold after_load.
    by destruct Hfile as [-> | ->].
  - intros batch_size bacteria_ids Hpos. unfold batch_indices, start_batch.
    replace (-1 + 1) with 0 by lia. by rewrite Z.div_0_l by lia.
Qed.

(** ** The progress file, whatever it holds *)

Lemma forallb_hashable_strings (l : list string) :
  forallb hashable (JStr <$> l) = true.
Proof. induction l as [|x l IH]; [done|]. simpl. exact IH. Qed.

(** On the files a run leaves, the JSON reading of lines 97-100 gives the
    JSON form of what [load_locals] sets. *)
Lemma load_locals_json_content_of (f : FileState) :
  let loaded := loaded_progress f in
  load_locals_json (content_of f)
  = Ok (JInt (Progress.last_processed_idx loaded),
        JStr <$> Progress.successful_ids loaded,
        JStr <$> Progress.failed_ids loaded).
Proof.
  destruct f as [| |[cursor S F]]; [reflexivity|reflexivity|].
  unfold load_locals_json, content_of, json_of_progress. simpl.
  unfold and_then, py_getitem. 
  change (list_find (fun kv : string * json => kv.1 = "last_processed_idx") _)
    with (Some (0%nat, ("last_processed_idx", JInt cursor))).
  simpl.
  by rewrite !forallb_hashable_strings.
Qed.

Lemma py_set_accepts (j : json) :
  (∃ l, py_set j = Ok l) ↔ set_accepts j = true.
Proof.
  destruct j as [| | | | |items|]; simpl; try (split; [intros [? ?]|]; done);
    try (split; [done|eauto]).
  destruct (forallb hashable items); split; try done; eauto.
  by intros [? ?].
Qed.

Lemma py_getitem_raises (j : json) (key : string) (e : exn) :
  py_getitem j key = Raise e →
  e = Exception "KeyError" ∨ e = Exception "TypeError".
Proof.
  destruct j as [| | | | | |fields]; simpl; try (intros [= <-]; by right).
  destruct (list_find _ fields) as [[? [? ?]]|]; [done|].
  intros [= <-]. by left.
Qed.

Lemma py_set_raises (j : json) (e : exn) :
  py_set j = Raise e → e = Exception "TypeError".
Proof.
  destruct j as [| | | | |items|]; simpl; try done; try by intros [= <-].
  destruct (forallb hashable items); [done|]. by intros [= <-].
Qed.

(** C9, as stated, fails: the progress file holds [{}], well-formed JSON
    that is no progress record.  [_load_progress] returns it as it is,
    not the zero record, and logs nothing; line 98 then raises [KeyError]
    before the [try]: the run does not start from scratch, it does not
    start. *)
Lemma wrong_shape_file_is_no_fresh_start :
  let c := Holds (JObj []) in
  _load_progress_json c = (JObj [], false)
  ∧ (_load_progress_json c).1 ≠ zero_json
  ∧ load_locals_json c = Raise (Exception "KeyError").
Proof. split_and!; done. Qed.

(** C9, amended.  [_load_progress] returns a value on every content and
    logs an error exactly when reading the file raised.  When the file is
    missing or reading it raises, the value is the zero record (cursor -1,
    no identifiers), lines 97-100 pass and the run starts with empty sets
    from -1.  A file holding well-formed JSON is returned as it is, with
    nothing logged: lines 97-100 pass exactly when it is an object with
    the keys [last_processed_idx], [successful_ids] and [failed_ids], the
    last two holding values [set] accepts; otherwise they raise
    [KeyError] or [TypeError], before the [try].  On a file written by a
    run they give back the record. *)
Theorem load_progress_fallback_on_read_failure (c : FileContent) :
  ((_load_progress_json c).2 = true ↔ c = Broken)
  ∧ (c = Absent ∨ c = Broken →
     (_load_progress_json c).1 = zero_json
     ∧ load_locals_json c = Ok (JInt (-1), [], [])
     ∧ ∀ s : State,
         content_of (progress_file s) = c →
         (load_locals s).1 = Ok (-1)
         ∧ successful_ids (load_locals s).2 = ∅
         ∧ failed_ids (load_locals s).2 = ∅)
  ∧ (∀ j : json,
       c = Holds j →
       _load_progress_json c = (j, false)
       ∧ ((∃ locals, load_locals_json c = Ok locals)
          ↔ ∃ last_idx successful failed : json,
              py_getitem j "last_processed_idx" = Ok last_idx
              ∧ py_getitem j "successful_ids" = Ok successful
              ∧ py_getitem j "failed_ids" = Ok failed
              ∧ set_accepts successful = true
              ∧ set_accepts failed = true)
       ∧ ∀ e : exn,
           load_locals_json c = Raise e →
           e = Exception "KeyError" ∨ e = Exception "TypeError")
  ∧ (∀ f : FileState,
       c = content_of f →
       load_locals_json c
       = Ok (JInt (Progress.last_processed_idx (loaded_progress f)),
             JStr <$> Progress.successful_ids (loaded_progress f),
             JStr <$> Progress.failed_ids (loaded_progress f))).
Proof.
  split_and!.
  - destruct c; simpl; split; done.
  - intros Hc. split_and!.
    + by destruct Hc as [-> | ->].
    + by destruct Hc as [-> | ->].
    + intros s Hs.
      assert (Hfile : progress_file s = NoFile ∨ progress_file s = Unreadable).
      { destruct (progress_file s); simpl in Hs;
          destruct Hc as [-> | ->]; try done; auto. }
      destruct (load_progress_zero_record s Hfile) as (_ & _ & H1 & H2 & H3 & _).
      done.
  - intros j ->. split; [done|].
    unfold load_locals_json. simpl. split.
    + split.
      * intros [locals Hok].
        destruct (py_getitem j "last_processed_idx") as [last_idx|?];
          [|done]. simpl in Hok.
        destruct (py_getitem j "successful_ids") as [successful|?];
          [|done]. simpl in Hok.
        destruct (py_set successful) as [l1|?] eqn:H1; [|done].
        simpl in Hok.
        destruct (py_getitem j "failed_ids") as [failed|?]; [|done].
        simpl in Hok.
        destruct (py_set failed) as [l2|?] eqn:H2; [|done].
        exists last_idx, successful, failed.
        split_and!; try done; apply py_set_accepts; eauto.
      * intros (last_idx & successful & failed & G1 & G2 & G3 & H1 & H2).
        apply py_set_accepts in H1 as [l1 H1].
        apply py_set_accepts in H2 as [l2 H2].
        rewrite G1, G2. simpl. rewrite H1, G3. simpl. rewrite H2. simpl.
        eauto.
    + intros e.
      destruct (py_getitem j "last_processed_idx") as [last_idx|e1] eqn:G1;
        simpl; [|intros [= <-]; by eapply py_getitem_raises].
      destruct (py_getitem j "successful_ids") as [successful|e2] eqn:G2;
        simpl; [|intros [= <-]; by eapply py_getitem_raises].
      destruct (py_set successful) as [l1|e3] eqn:H1;
        simpl; [|intros [= <-]; right; by eapply py_set_raises].
      destruct (py_getitem j "failed_ids") as [failed|e4] eqn:G3;
        simpl; [|intros [= <-]; by eapply py_getitem_raises].
      destruct (py_set failed) as [l2|e5] eqn:H2;
        simpl; [done|intros [= <-]; right; by eapply py_set_raises].
  - intros f ->. apply load_locals_json_content_of.
Qed.

(** * Duplicate policy of [save_bacteria] *)


(** * Retries of the fetcher, and a failed fetch in a batch *)


(** * Aborting a run *)

(** C5, as stated, fails: the operator interrupts the first request of a
    run over one identifier; [process_batches] records the interruption in
    the scrape log and then returns as it does after a run without
    fault.  Nothing is re-raised and no status is returned. *)
Lemma interrupt_is_swallowed :
  let run := process_batches env_interrupted 10 None ["X001"]
               (initial_state [] NoFile) in
  error_message (scrape_log run.2) = Some "Interrupted by user"
  ∧ run.1 = Ok tt
  ∧ run.1 = (process_batches env_ok 10 None ["X001"]
               (initial_state [] NoFile)).1.
Proof. vm_compute. done. Qed.

(** C5, amended.  When the body of the [try] (the loop over batches and
    the closing of the scrape log) raises [e], interrupt or exception:
    the scrape log gets its [end_time] and the message of [e]; the
    [finally] clause then saves the progress with, as cursor, the larger
    of the loaded cursor and the cursor of the last checkpoint, and with
    the sets as they were when [e] was raised; and the method returns
    normally.  Only when the commit made by the handler itself raises does
    an exception leave the method, after the save. *)
Theorem abort_is_recorded_then_swallowed (env : Env) (batch_size : Z)
    (max_bacteria : option Z) (discovered : list string)
    (s0 sA s1 : State) (last_idx : Z) (e : exn) :
  batch_size ≠ 0 →
  load_locals s0 = (Ok last_idx, sA) →
  run_batches env batch_size last_idx
              (apply_limit max_bacteria discovered) sA = (Raise e, s1) →
  let run := process_batches env batch_size max_bacteria discovered s0 in
  let saved :=
    Progress.mk (Z.max last_idx (Progress.last_processed_idx (progress s1)))
                (elements (successful_ids s1))
                (elements (failed_ids s1)) in
  end_time (scrape_log run.2) = Some (length (trace s1))
  ∧ error_message (scrape_log run.2) = Some (abort_message e)
  ∧ trace run.2 = trace s1 ++ [EvCommit; EvSaveProgress saved]
  ∧ progress_file run.2 = Stored saved
  ∧ (commit_ok env (commit_calls s1) = true → run.1 = Ok tt)
  ∧ (commit_ok env (commit_calls s1) = false →
     run.1 = Raise (Exception "commit failed")).
Proof.
  intros HB Hload Hrun run saved. subst run saved.
  rewrite load_locals_eq in Hload. injection Hload as <- <-.
  rewrite process_batches_eq by done. rewrite Hrun. simpl.
  unfold commit_result. split_and!; try done.
  - by rewrite <- app_assoc.
  - by intros ->.
  - by intros ->.
Qed.

Lemma abort_is_recorded_then_swallowed_witness :
  let s0 := initial_state [] NoFile in
  let run := process_batches env_interrupted 10 None ["X001"] s0 in
  error_message (scrape_log run.2) = Some "Interrupted by user"
  ∧ progress_file run.2 = Stored (Progress.mk (-1) [] [])
  ∧ run.1 = Ok tt.
Proof.
  intros s0 run.
  destruct (abort_is_recorded_then_swallowed env_interrupted 10 None ["X001"]
              s0 (load_locals s0).2
              (run_batches env_interrupted 10 (-1) ["X001"]
                 (load_locals s0).2).2
              (-1) KeyboardInterrupt)
    as (_ & Herr & _ & Hfile & Hok & _).
  - lia.
  - reflexivity.
  - vm_compute. reflexivity.
  - split_and!.
    + exact Herr.
    + exact Hfile.
    + apply Hok. reflexivity.
Defined.

(** * The theorems at concrete inputs *)

Lemma batch_atomicity_witness :
  let s := initial_state [row_A] NoFile in
  let s' := (process_batch env_no_id 10 three_ids 0 s).2 in
  EvRollback ∈ trace s'
  ∧ db s' = [row_A]
  ∧ "X003" ∈ failed_ids s'.
Proof.
  intros s s'.
  assert (Hrb : EvRollback ∈ trace s').
  { apply list_elem_of_lookup. exists 10%nat. vm_compute. reflexivity. }
  split; [exact Hrb|].
  destruct (proj2 (batch_atomicity env_no_id) 10 three_ids 0 s (trace s')
              eq_refl Hrb) as (Hdb & p & _ & _ & Hall).
  split; [exact Hdb|].
  apply (Hall "X003").
  apply list_elem_of_lookup. exists 2%nat. vm_compute. reflexivity.
Defined.


Lemma no_double_processing_witness :
  let s0 := initial_state [] (Stored two_decided) in
  progress_file s0 = Stored two_decided
  ∧ ∃ evs : list event,
      trace (process_batches env_ok 2 None three_ids s0).2 = trace s0 ++ evs
      ∧ ("X001" ∉ scraped_ids evs) ∧ ("X002" ∉ scraped_ids evs).
Proof.
  intros s0. split; [reflexivity|].
  destruct (no_double_processing env_ok 2 None three_ids s0 two_decided
              eq_refl) as ((evs & Htr & Hun) & _).
  exists evs. split; [exact Htr|]. split.
  - apply (Hun "X001"). left. apply list_elem_of_here.
  - apply (Hun "X002"). right. apply list_elem_of_here.
Defined.

Lemma three_ids_NoDup : NoDup three_ids.
Proof.
  unfold three_ids. repeat (apply NoDup_cons; split); try apply NoDup_nil_2;
    rewrite ?elem_of_cons, ?elem_of_nil; naive_solver.
Qed.

Lemma two_decided_invariant : progress_invariant three_ids two_decided.
Proof.
  split; simpl.
  - intros x Hs Hf. apply list_elem_of_singleton in Hs, Hf. congruence.
  - intros i x Hi Hle. destruct i as [|[|i]]; simpl in Hi.
    + left. injection Hi as <-. apply list_elem_of_here.
    + right. injection Hi as <-. apply list_elem_of_here.
    + lia.
Qed.

Lemma saved_progress_invariant_witness :
  let s0 := initial_state [] (Stored two_decided) in
  0 < 2
  ∧ NoDup three_ids
  ∧ progress_invariant three_ids two_decided
  ∧ ∃ evs : list event,
      trace (process_batches env_ok 2 None three_ids s0).2 = trace s0 ++ evs
      ∧ ∀ p, p ∈ saved_records evs → progress_invariant three_ids p.
Proof.
  intros s0. split; [lia|]. split; [exact three_ids_NoDup|].
  split; [exact two_decided_invariant|].
  exact (saved_progress_invariant env_ok 2 None three_ids s0 ltac:(lia)
           three_ids_NoDup two_decided_invariant).
Defined.

Lemma cursor_monotone_witness :
  0 < 2
  ∧ ∃ evs : list event,
      trace (process_batches env_ok 2 None three_ids
               (initial_state [] NoFile)).2 = [] ++ evs
      ∧ StronglySorted Z.le (saved_cursors evs).
Proof.
  split; [lia|].
  destruct (cursor_monotone env_ok 2 None three_ids (initial_state [] NoFile)
              ltac:(lia)) as (evs & Htr & Hsorted & _).
  exists evs. split; [exact Htr|exact Hsorted].
Defined.




(** * More of the fetcher *)

Section FetcherOutcome.

Context (env : Env).

Lemma failed_attempts_S (url : string) (k : nat) :
  failed_attempts url (S k)
  = [EvSleep; EvGet url; EvSleep] ++ failed_attempts url k.
Proof. reflexivity. Qed.

Lemma sleeps_app (e1 e2 : list event) :
  sleeps (e1 ++ e2) = (sleeps e1 + sleeps e2)%nat.
Proof. unfold sleeps. by rewrite omap_app, length_app. Qed.

Lemma failed_attempts_counts (url : string) (k : nat) :
  length (fetched_urls (failed_attempts url k)) = k
  ∧ sleeps (failed_attempts url k) = (2 * k)%nat.
Proof.
  induction k as [|k [IH1 IH2]]; [done|].
  rewrite failed_attempts_S, fetched_urls_app, sleeps_app, length_app.
  rewrite IH1, IH2. simpl. split; [done|]. unfold sleeps. simpl. lia.
Qed.

Lemma failed_attempts_urls (url : string) (k : nat) :
  fetched_urls (failed_attempts url k) = replicate k url.
Proof.
  induction k as [|k IH]; [done|].
  rewrite failed_attempts_S, fetched_urls_app, IH. done.
Qed.

(** As long as the attempts fail, [get_page] goes on with one attempt
    less. *)
Lemma get_page_after_failures (url : string) (retries k : nat) (s : State) :
  (k ≤ retries)%nat →
  (∀ i : nat, (i < k)%nat →
     failed_attempt (requests_get env (http_calls s + i) url)) →
  get_page env url retries s
  = get_page env url (retries - k) (after_failures url k s).
Proof.
  unfold get_page. revert retries s.
  induction k as [|k IH]; intros retries s Hle Hfail.
  - rewrite Nat.sub_0_r. f_equal. unfold after_failures, failed_attempts.
    simpl. rewrite Nat.add_0_r, app_nil_r. by destruct s.
  - destruct retries as [|retries]; [lia|].
    pose proof (Hfail 0%nat ltac:(lia)) as H0.
    rewrite Nat.add_0_r in H0.
    simpl get_page_attempts at 1.
    unfold bind, http_get, bind. st_unfold.
    assert (Hnext :
      get_page_attempts env url retries
        (mkState (S (http_calls s)) (commit_calls s)
           (((trace s ++ [EvSleep]) ++ [EvGet url]) ++ [EvSleep]) (db s)
           (progress_file s) (scrape_log s) (successful_ids s)
           (failed_ids s) (progress s))
      = get_page_attempts env url (retries - k)
          (after_failures url (S k) s)).
    { rewrite IH; [|lia|].
      - f_equal. unfold after_failures. simpl.
        rewrite failed_attempts_S. rewrite <- !app_assoc. simpl.
        f_equal. lia.
      - intros i Hi. simpl. specialize (Hfail (S i) ltac:(lia)).
        by replace (http_calls s + S i)%nat with (S (http_calls s + i))
          in Hfail by lia. }
    destruct (requests_get env (http_calls s) url) as [code text|msg|];
      simpl in H0; [|exact Hnext|done].
    destruct (Z.eqb_spec code 200) as [?|_]; [done|exact Hnext].
Qed.

End FetcherOutcome.

(** X1.  [get_page] returns the text of the first attempt answered with
    status 200: when the [k] attempts before it failed, it has made
    exactly [k + 1] requests and slept [2 k + 1] times (before every
    request, and once more after every failure). *)
Theorem get_page_first_success (env : Env) (url : string)
    (retries k : nat) (text : string) (s : State) :
  (k < retries)%nat →
  (∀ i : nat, (i < k)%nat →
     failed_attempt (requests_get env (http_calls s + i) url)) →
  requests_get env (http_calls s + k) url = HttpResponse 200 text →
  (get_page env url retries s).1 = Ok (Some text)
  ∧ ∃ evs : list event,
      trace (get_page env url retries s).2 = trace s ++ evs
      ∧ fetched_urls evs = replicate (S k) url
      ∧ sleeps evs = (2 * k + 1)%nat.
Proof.
  intros Hk Hfail Hok.
  rewrite (get_page_after_failures env url retries k s) by (done || lia).
  destruct (retries - k)%nat as [|n] eqn:Hn; [lia|].
  unfold get_page. simpl. unfold bind, http_get, bind. st_unfold.
  rewrite Hok. simpl. split; [done|].
  exists (failed_attempts url k ++ [EvSleep; EvGet url]).
  split; [by rewrite <- !app_assoc|].
  rewrite fetched_urls_app, sleeps_app.
  destruct (failed_attempts_counts url k) as [_ ->].
  split; [|unfold sleeps; simpl; lia].
  rewrite failed_attempts_urls. simpl.
  clear. induction k as [|k IH]; [done|]. simpl. by rewrite IH.
Qed.

Lemma get_page_first_success_witness :
  (get_page env_ok "https://mimedb.org/microbes/X001" 3
     (initial_state [] NoFile)).1
  = Ok (Some "https://mimedb.org/microbes/X001").
Proof.
  apply (get_page_first_success env_ok "https://mimedb.org/microbes/X001"
           3 0 "https://mimedb.org/microbes/X001" (initial_state [] NoFile)).
  - lia.
  - intros i Hi. lia.
  - reflexivity.
Defined.

(** X2.  When all [retries] attempts fail, [get_page] returns [None]
    having made exactly [retries] requests and slept exactly
    [2 * retries] times, and its events are those attempts and nothing
    else. *)
Theorem get_page_exhausted_waits (env : Env) (url : string)
    (retries : nat) (s : State) :
  (∀ i : nat, (i < retries)%nat →
     failed_attempt (requests_get env (http_calls s + i) url)) →
  get_page env url retries s
  = (Ok None, after_failures url retries s)
  ∧ length (fetched_urls (failed_attempts url retries)) = retries
  ∧ sleeps (failed_attempts url retries) = (2 * retries)%nat.
Proof.
  intros Hfail.
  rewrite (get_page_after_failures env url retries retries s) by (done || lia).
  rewrite Nat.sub_diag. split; [done|]. apply failed_attempts_counts.
Qed.

Lemma get_page_exhausted_waits_witness :
  (get_page env_down "u" 3 (initial_state [] NoFile)).1 = Ok None
  ∧ sleeps (trace (get_page env_down "u" 3 (initial_state [] NoFile)).2)
    = 6%nat.
Proof.
  destruct (get_page_exhausted_waits env_down "u" 3 (initial_state [] NoFile))
    as (Heq & _ & Hsl).
  - intros i _. simpl. lia.
  - rewrite Heq. split; [reflexivity|exact Hsl].
Defined.

(** X3.  An interrupt during a request is not caught by [get_page]: when
    the attempts before it failed, [KeyboardInterrupt] leaves the method
    right after that request, with no further sleep or request. *)
Theorem get_page_interrupt_propagates (env : Env) (url : string)
    (retries k : nat) (s : State) :
  (k < retries)%nat →
  (∀ i : nat, (i < k)%nat →
     failed_attempt (requests_get env (http_calls s + i) url)) →
  requests_get env (http_calls s + k) url = HttpInterrupt →
  (get_page env url retries s).1 = Raise KeyboardInterrupt
  ∧ trace (get_page env url retries s).2
    = trace s ++ failed_attempts url k ++ [EvSleep; EvGet url].
Proof.
  intros Hk Hfail Hint.
  rewrite (get_page_after_failures env url retries k s) by (done || lia).
  destruct (retries - k)%nat as [|n] eqn:Hn; [lia|].
  unfold get_page. simpl. unfold bind, http_get, bind. st_unfold.
  rewrite Hint. simpl. split; [done|]. by rewrite <- !app_assoc.
Qed.

Lemma get_page_interrupt_propagates_witness :
  (get_page env_interrupted "u" 3 (initial_state [] NoFile)).1
  = Raise KeyboardInterrupt.
Proof.
  apply (get_page_interrupt_propagates env_interrupted "u" 3 0
           (initial_state [] NoFile)).
  - lia.
  - intros i Hi. lia.
  - reflexivity.
Defined.

(** * Discovery *)

Section DiscoveryFacts.

Context (env : Env) (select_links : string → list (option string)).

Lemma last_segment_from_no_slash (acc s : string) :
  contains_slash acc = false →
  contains_slash (last_segment_from acc s) = false.
Proof.
  revert acc. induction s as [|c rest IH]; intros acc Hacc; simpl; [done|].
  destruct (Ascii.eqb c "/"%char) eqn:Hc; [by apply IH|].
  apply IH. clear IH. induction acc as [|a acc IHa]; simpl in *.
  - by rewrite Hc.
  - apply orb_false_iff in Hacc as [-> Hacc]. simpl. by apply IHa.
Qed.

Lemma collect_ids_spec (hrefs : list (option string)) (acc ids : list string) :
  collect_ids hrefs acc = Ok ids →
  ∃ new : list string,
    ids = acc ++ new
    ∧ Forall (fun bacteria_id =>
                String.prefix "MMDBm" bacteria_id = true
                ∧ contains_slash bacteria_id = false
                ∧ ∃ href, Some href ∈ hrefs ∧ bacteria_id = last_segment href)
             new.
Proof.
  revert acc. induction hrefs as [|[href|] rest IH]; intros acc Hc;
    simpl in Hc.
  - injection Hc as <-. exists []. by rewrite app_nil_r.
  - destruct (negb (String.eqb (last_segment href) "")
              && String.prefix "MMDBm" (last_segment href)) eqn:Hkeep.
    + apply IH in Hc as (new & -> & Hnew).
      exists (last_segment href :: new). rewrite <- app_assoc.
      split; [done|]. constructor.
      * apply andb_true_iff in Hkeep as [_ Hp]. split_and!; try done.
        -- by apply last_segment_from_no_slash.
        -- exists href. split; [apply list_elem_of_here|done].
      * eapply Forall_impl; [exact Hnew|]. intros x (? & ? & h & Hh & ?).
        split_and!; try done. exists h. split; [|done].
        by apply list_elem_of_further.
    + apply IH in Hc as (new & -> & Hnew). exists new. split; [done|].
      eapply Forall_impl; [exact Hnew|]. intros x (? & ? & h & Hh & ?).
      split_and!; try done. exists h. split; [|done].
      by apply list_elem_of_further.
  - done.
Qed.

Lemma sleep_before_each_get_app (e1 e2 : list event) :
  sleep_before_each_get e1 → sleep_before_each_get e2 →
  sleep_before_each_get (e1 ++ e2).
Proof.
  intros H1 H2 i url Hi.
  destruct (decide (i < length e1)%nat) as [Hlt|Hge].
  - rewrite lookup_app_l in Hi by done.
    destruct (H1 i url Hi) as (j & -> & Hj). exists j. split; [done|].
    rewrite lookup_app_l by lia. done.
  - rewrite lookup_app_r in Hi by lia.
    destruct (H2 _ url Hi) as (j & Hij & Hj).
    exists (length e1 + j)%nat. split; [lia|].
    rewrite lookup_app_r by lia. rewrite <- Hj. f_equal. lia.
Qed.

(** What the loop over the listing pages does. *)
Lemma discover_pages_spec (pages : list Z) (acc : list string) (s : State) :
  let run := discover_pages env select_links pages acc s in
  ∃ evs : list event,
    only_counters s run.2 evs
    ∧ commit_calls run.2 = commit_calls s
    ∧ Forall (fun e => e = EvSleep
                       ∨ ∃ page, page ∈ pages ∧ e = EvGet (page_url page)) evs
    ∧ (length (fetched_urls evs) ≤ 3 * length pages)%nat
    ∧ sleep_before_each_get evs
    ∧ ∀ ids, run.1 = Ok ids →
        ∃ new : list string,
          ids = acc ++ new
          ∧ Forall (fun bacteria_id =>
                      String.prefix "MMDBm" bacteria_id = true
                      ∧ contains_slash bacteria_id = false) new.
Proof.
  revert acc s. induction pages as [|page rest IH]; intros acc s run;
    subst run.
  - exists []. simpl. split_and!; try done; [apply only_counters_refl|].
    intros ids [= <-]. exists []. by rewrite app_nil_r.
  - simpl. unfold bind.
    destruct (get_page_spec env (page_url page) 3 s)
      as (evs1 & Hoc1 & Hcc1 & _ & Hlen1 & Hall1 & Hsl1 & Hex1).
    destruct (get_page env (page_url page) 3 s) as [r1 s1] eqn:Hgp.
    simpl in *.
    assert (Hall1' : Forall (fun e => e = EvSleep
                       ∨ ∃ p, p ∈ page :: rest ∧ e = EvGet (page_url p)) evs1).
    { eapply Forall_impl; [exact Hall1|]. intros e [-> | ->]; [by left|].
      right. exists page. split; [apply list_elem_of_here|done]. }
    assert (Hgo : ∀ acc',
      (∃ new, acc' = acc ++ new
              ∧ Forall (fun bacteria_id =>
                          String.prefix "MMDBm" bacteria_id = true
                          ∧ contains_slash bacteria_id = false) new) →
      ∃ evs : list event,
        only_counters s (discover_pages env select_links rest acc' s1).2 evs
        ∧ commit_calls (discover_pages env select_links rest acc' s1).2
          = commit_calls s
        ∧ Forall (fun e => e = EvSleep
                   ∨ ∃ p, p ∈ page :: rest ∧ e = EvGet (page_url p)) evs
        ∧ (length (fetched_urls evs) ≤ 3 * S (length rest))%nat
        ∧ sleep_before_each_get evs
        ∧ ∀ ids, (discover_pages env select_links rest acc' s1).1 = Ok ids →
            ∃ new, ids = acc ++ new
                   ∧ Forall (fun bacteria_id =>
                               String.prefix "MMDBm" bacteria_id = true
                               ∧ contains_slash bacteria_id = false) new).
    { intros acc' (new1 & -> & Hnew1).
      destruct (IH (acc ++ new1) s1)
        as (evs2 & Hoc2 & Hcc2 & Hall2 & Hlen2 & Hsl2 & Hres2).
      exists (evs1 ++ evs2). split_and!.
      - eapply only_counters_trans; eauto.
      - congruence.
      - apply Forall_app. split; [done|].
        eapply Forall_impl; [exact Hall2|]. intros e [-> |(p & Hp & ->)];
          [by left|]. right. exists p. split; [|done].
        by apply list_elem_of_further.
      - rewrite fetched_urls_app, length_app. lia.
      - by apply sleep_before_each_get_app.
      - intros ids Hids. destruct (Hres2 ids Hids) as (new2 & -> & Hnew2).
        exists (new1 ++ new2). rewrite app_assoc. split; [done|].
        by apply Forall_app. }
    assert (Hsame : ∃ new, acc = acc ++ new
              ∧ Forall (fun bacteria_id =>
                          String.prefix "MMDBm" bacteria_id = true
                          ∧ contains_slash bacteria_id = false) new).
    { exists []. by rewrite app_nil_r. }
    destruct r1 as [[html|]|e]; simpl.
    + destruct (String.eqb html ""); [by apply Hgo|].
      destruct (collect_ids (select_links html) acc) as [ids'|e] eqn:Hcol.
      * apply Hgo. apply collect_ids_spec in Hcol as (new & -> & Hnew).
        exists new. split; [done|].
        eapply Forall_impl; [exact Hnew|]. intros x (? & ? & _). done.
      * exists evs1. unfold raise. simpl. split_and!; try done. lia.
    + by apply Hgo.
    + exists evs1. split_and!; try done. lia.
Qed.

End DiscoveryFacts.

(** X4.  Every identifier that discovery returns starts with ["MMDBm"]
    and contains no slash (it is the last path segment of a link). *)
Theorem discovered_ids_are_microbe_ids (env : Env)
    (select_links : string → list (option string)) (max_pages : option Z)
    (s : State) (ids : list string) :
  (get_bacteria_ids env select_links max_pages s).1 = Ok ids →
  ∀ bacteria_id : string,
    bacteria_id ∈ ids →
    String.prefix "MMDBm" bacteria_id = true
    ∧ contains_slash bacteria_id = false
    ∧ bacteria_id ≠ "".
Proof.
  intros Hrun bacteria_id Hin. unfold get_bacteria_ids in Hrun.
  destruct (discover_pages_spec env select_links
              (py_range 1 (default 5 max_pages + 1)) [] s)
    as (evs & _ & _ & _ & _ & _ & Hres).
  destruct (Hres ids Hrun) as (new & -> & Hnew).
  rewrite Forall_forall in Hnew. destruct (Hnew bacteria_id Hin) as [Hp Hs].
  split_and!; try done. intros ->. done.
Qed.


Lemma discovered_ids_are_microbe_ids_witness :
  (get_bacteria_ids env_ok example_links (Some 1) (initial_state [] NoFile)).1
  = Ok ["MMDBm000001"; "MMDBm000002"]
  ∧ String.prefix "MMDBm" "MMDBm000002" = true.
Proof.
  assert (Hrun : (get_bacteria_ids env_ok example_links (Some 1)
                    (initial_state [] NoFile)).1
                 = Ok ["MMDBm000001"; "MMDBm000002"])
    by (vm_compute; reflexivity).
  split; [exact Hrun|].
  apply (discovered_ids_are_microbe_ids env_ok example_links (Some 1)
           (initial_state [] NoFile) _ Hrun "MMDBm000002").
  apply list_elem_of_further, list_elem_of_here.
Defined.

Lemma py_range_length (a b : Z) : length (py_range a b) = Z.to_nat (b - a).
Proof. unfold py_range. by rewrite length_fmap, length_seq. Qed.

(** What [get_bacteria_ids] does to the state: requests for the listing
    pages, and nothing else. *)
Lemma get_bacteria_ids_frame (env : Env)
    (select_links : string → list (option string)) (max_pages : option Z)
    (s : State) :
  let run := get_bacteria_ids env select_links max_pages s in
  ∃ evs : list event,
    trace run.2 = trace s ++ evs
    ∧ (length (fetched_urls evs) ≤ 3 * Z.to_nat (default 5%Z max_pages))%nat
    ∧ (∀ url : string,
         url ∈ fetched_urls evs →
         ∃ page : Z, 1 ≤ page ≤ default 5 max_pages ∧ url = page_url page)
    ∧ sleep_before_each_get evs
    ∧ scraped_ids evs = []
    ∧ saved_records evs = []
    ∧ db run.2 = db s
    ∧ progress_file run.2 = progress_file s
    ∧ scrape_log run.2 = scrape_log s
    ∧ commit_calls run.2 = commit_calls s.
Proof.
  intros run. subst run. unfold get_bacteria_ids.
  destruct (discover_pages_spec env select_links
              (py_range 1 (default 5 max_pages + 1)) [] s)
    as (evs & Hoc & Hcc & Hall & Hlen & Hsl & _).
  exists evs. unfold only_counters in Hoc. rewrite Hoc. simpl.
  rewrite py_range_length in Hlen.
  split_and!; try done.
  - replace (default 5 max_pages + 1 - 1) with (default 5 max_pages) in Hlen
      by lia. done.
  - intros url Hurl. clear -Hall Hurl.
    induction Hall as [|e l He _ IH]; [by apply elem_of_nil in Hurl|].
    destruct He as [-> |(page & Hp & ->)]; simpl in Hurl; [by apply IH|].
    apply elem_of_cons in Hurl as [->|Hurl]; [|by apply IH].
    exists page. apply elem_of_py_range in Hp. split; [lia|done].
  - clear -Hall. induction Hall as [|e l He _ IH]; [done|].
    by destruct He as [-> |(page & Hp & ->)].
  - clear -Hall. induction Hall as [|e l He _ IH]; [done|].
    by destruct He as [-> |(page & Hp & ->)].
Qed.

(** X5.  Discovery is read-only and bounded: it makes at most three
    requests per page, only for the listing pages 1 to [max_pages] (5
    when none is given), each right after a sleep, and leaves the
    database rows, the progress file, the scrape log and the commit
    counter as they were.  With [max_pages] at most 0 it requests
    nothing. *)
Theorem discovery_is_bounded_and_read_only (env : Env)
    (select_links : string → list (option string)) (max_pages : option Z)
    (s : State) :
  let run := get_bacteria_ids env select_links max_pages s in
  ∃ evs : list event,
    trace run.2 = trace s ++ evs
    ∧ (length (fetched_urls evs) ≤ 3 * Z.to_nat (default 5%Z max_pages))%nat
    ∧ (∀ url : string,
         url ∈ fetched_urls evs →
         ∃ page : Z, 1 ≤ page ≤ default 5 max_pages ∧ url = page_url page)
    ∧ sleep_before_each_get evs
    ∧ scraped_ids evs = []
    ∧ saved_records evs = []
    ∧ db run.2 = db s
    ∧ progress_file run.2 = progress_file s
    ∧ scrape_log run.2 = scrape_log s
    ∧ commit_calls run.2 = commit_calls s.
Proof.
  intros run. subst run.
  destruct (get_bacteria_ids_frame env select_links max_pages s)
    as (evs & Hframe).
  exists evs. exact Hframe.
Qed.

Lemma string_app_nil_r (a : string) : a +:+ "" = a.
Proof.
  induction a as [|c a IH]; [done|].
  change (String c (a +:+ "") = String c a). by rewrite IH.
Qed.

Lemma string_app_snoc (a : string) (c : ascii) (r : string) :
  (a +:+ String c "") +:+ r = a +:+ String c r.
Proof.
  induction a as [|c' a IH]; [done|].
  change (String c' ((a +:+ String c "") +:+ r)
          = String c' (a +:+ String c r)).
  by rewrite IH.
Qed.

Lemma last_segment_from_app (acc p s : string) :
  last_segment_from acc (p +:+ s)
  = last_segment_from (last_segment_from acc p) s.
Proof.
  revert acc. induction p as [|c p IH]; intros acc; [done|].
  change (last_segment_from acc (String c (p +:+ s))
          = last_segment_from (last_segment_from acc (String c p)) s).
  simpl. destruct (Ascii.eqb c "/"%char); apply IH.
Qed.

Lemma last_segment_from_no_slash_eq (acc s : string) :
  contains_slash s = false → last_segment_from acc s = acc +:+ s.
Proof.
  revert acc. induction s as [|c rest IH]; intros acc Hs; simpl in *.
  - by rewrite string_app_nil_r.
  - apply orb_false_iff in Hs as [-> Hs]. rewrite IH by done.
    apply string_app_snoc.
Qed.

(** X6.  The identifier read off a link and the URL built from an
    identifier fit together: for an identifier without a slash, the last
    segment of its detail URL is the identifier again. *)
Theorem last_segment_of_detail_url (bacteria_id : string) :
  contains_slash bacteria_id = false →
  last_segment (detail_url bacteria_id) = bacteria_id.
Proof.
  intros Hns. unfold last_segment, detail_url.
  rewrite !last_segment_from_app.
  change (last_segment_from (last_segment_from "" BASE_URL) "/microbes/")
    with "".
  by rewrite last_segment_from_no_slash_eq.
Qed.

Lemma last_segment_of_detail_url_witness :
  contains_slash "MMDBm000001" = false
  ∧ last_segment (detail_url "MMDBm000001") = "MMDBm000001".
Proof.
  split; [reflexivity|].
  apply (last_segment_of_detail_url "MMDBm000001"). reflexivity.
Defined.

(** * Discovery inside a run *)

Section DiscoveryInRun.

Context (env : Env) (select_links : string → list (option string)).




End DiscoveryInRun.

(** X7.  An exception or interrupt raised during discovery (line 88, which
    is outside the [try]) leaves [process_batches] as it is: no handler
    runs, so the scrape log gets no [end_time] and no [error_message], no
    progress record is saved and the progress file is untouched. *)
Theorem discovery_failure_is_not_handled (env : Env)
    (select_links : string → list (option string))
    (batch_size max_pages : Z) (max_bacteria : option Z)
    (s : State) (e : exn) :
  (get_bacteria_ids env select_links (Some max_pages) s).1 = Raise e →
  let run := process_batches_with_discovery env select_links batch_size
               max_pages max_bacteria s in
  run.1 = Raise e
  ∧ scrape_log run.2 = scrape_log s
  ∧ progress_file run.2 = progress_file s
  ∧ db run.2 = db s
  ∧ ∃ evs : list event,
      trace run.2 = trace s ++ evs ∧ saved_records evs = [].
Proof.
  intros Hraise run. subst run.
  unfold process_batches_with_discovery, bind.
  destruct (get_bacteria_ids_frame env select_links
              (Some max_pages) s)
    as (evs & Htr & _ & _ & _ & _ & Hsv & Hdb & Hfile & Hlog & _).
  destruct (get_bacteria_ids env select_links (Some max_pages) s)
    as [r s1].
  simpl in *. subst r. simpl. split_and!; try done. by exists evs.
Qed.

Lemma discovery_failure_is_not_handled_witness :
  let s := initial_state [] NoFile in
  let run := process_batches_with_discovery env_interrupted example_links
               10 5 None s in
  run.1 = Raise KeyboardInterrupt
  ∧ error_message (scrape_log run.2) = None
  ∧ progress_file run.2 = NoFile.
Proof.
  intros s run.
  destruct (discovery_failure_is_not_handled env_interrupted example_links
              10 5 None s KeyboardInterrupt)
    as (Hr & Hlog & Hfile & _).
  - vm_compute. reflexivity.
  - split; [exact Hr|]. split; [|exact Hfile].
    exact (f_equal error_message Hlog).
Defined.



(** * More of [save_bacteria] *)

(** X9.  [save_bacteria] never raises: it returns [True] or [False].  On a
    scraper with a session, [False] comes with a rollback as the last
    call, and [True] with no rollback at all. *)
Theorem save_bacteria_never_raises (env : Env) (db_session : bool)
    (bacteria_data : Dict) (duplicate_action : string) (s : State) :
  let run := save_bacteria env db_session bacteria_data duplicate_action s in
  ∃ evs : list event,
    trace run.2 = trace s ++ evs
    ∧ ((run.1 = Ok true ∧ EvRollback ∉ evs)
       ∨ (run.1 = Ok false ∧ db_session = false ∧ run.2 = s)
       ∨ (run.1 = Ok false ∧ db_session = true
          ∧ last evs = Some EvRollback)).
Proof.
  intros run. subst run. unfold save_bacteria.
  destruct db_session; simpl.
  2:{ exists []. st_unfold. rewrite app_nil_r. split; [done|].
      right; left. done. }
  unfold try_except_Exception, bind, insert_bacteria, Bacteria_new,
    db_commit, db_rollback, bind.
  st_unfold.
  destruct (bacteria_data !! "bacteria_id") as [v|]; simpl.
  2:{ exists [EvRollback]. split; [done|]. right; right. done. }
  destruct (find_existing (db s) v) as [[i existing]|]; simpl.
  - destruct (String.eqb duplicate_action "skip"); simpl.
    { exists []. rewrite app_nil_r. split; [done|]. left.
      split; [done|]. apply not_elem_of_nil. }
    destruct (String.eqb duplicate_action "update"); simpl.
    { destruct (commit_ok env (commit_calls s)); simpl.
      - exists [EvCommit]. split; [done|]. left. split; [done|].
        rewrite elem_of_cons, elem_of_nil. naive_solver.
      - exists [EvCommit; EvRollback]. rewrite <- app_assoc.
        split; [done|]. right; right. done. }
    destruct (String.eqb duplicate_action "force"); simpl.
    { destruct (commit_ok env (commit_calls s)); simpl.
      - case_bool_decide; simpl.
        + destruct (commit_ok env (S (commit_calls s))); simpl.
          * exists [EvCommit; EvCommit]. rewrite <- app_assoc.
            split; [done|]. left. split; [done|].
            rewrite !elem_of_cons, elem_of_nil. naive_solver.
          * exists [EvCommit; EvCommit; EvRollback]. rewrite <- !app_assoc.
            split; [done|]. right; right. done.
        + exists [EvCommit; EvRollback]. rewrite <- !app_assoc.
          split; [done|]. right; right. done.
      - exists [EvCommit; EvRollback]. rewrite <- app_assoc.
        split; [done|]. right; right. done. }
    destruct (commit_ok env (commit_calls s)); simpl.
    + exists [EvCommit]. split; [done|]. left. split; [done|].
      rewrite elem_of_cons, elem_of_nil. naive_solver.
    + exists [EvCommit; EvRollback]. rewrite <- app_assoc.
      split; [done|]. right; right. done.
  - case_bool_decide; simpl.
    + destruct (commit_ok env (commit_calls s)); simpl.
      * exists [EvCommit]. split; [done|]. left. split; [done|].
        rewrite elem_of_cons, elem_of_nil. naive_solver.
      * exists [EvCommit; EvRollback]. rewrite <- app_assoc.
        split; [done|]. right; right. done.
    + exists [EvRollback]. split; [done|]. right; right. done.
Qed.

(** X10.  Data without a ["bacteria_id"] key is refused: [save_bacteria]
    returns [False], makes no commit, only a rollback, and the rows stay
    as they were, whatever the policy. *)
Theorem save_bacteria_without_id (env : Env) (bacteria_data : Dict)
    (duplicate_action : string) (s : State) :
  bacteria_data !! "bacteria_id" = None →
  save_bacteria env true bacteria_data duplicate_action s
  = (Ok false, add_event EvRollback s).
Proof.
  intros Hid. unfold save_bacteria, try_except_Exception, bind. simpl.
  rewrite Hid. reflexivity.
Qed.

Lemma save_bacteria_without_id_witness :
  let nameless : Dict := {[ "name" := PStr "B" ]} in
  nameless !! "bacteria_id" = None
  ∧ (save_bacteria env_ok true nameless "update"
       (initial_state [row_A] NoFile)).1 = Ok false.
Proof.
  intros nameless.
  assert (Hid : nameless !! "bacteria_id" = None) by (vm_compute; reflexivity).
  split; [exact Hid|].
  by rewrite (save_bacteria_without_id env_ok nameless "update"
                (initial_state [row_A] NoFile) Hid).
Defined.

(** X11.  The ["update"] policy on an existing row, for data that names
    columns only, the commit going through: the row stays at its
    position; a column named by the data takes the data's value, every
    other attribute of the row, [updated_at] apart (the ORM refreshes
    it), keeps its value; all other rows are untouched. *)
Theorem save_bacteria_update_in_place (env : Env) (bacteria_data : Dict)
    (v : pyval) (i : nat) (existing : Dict) (s : State) :
  dom bacteria_data ⊆ Bacteria_columns →
  bacteria_data !! "bacteria_id" = Some v →
  find_existing (db s) v = Some (i, existing) →
  commit_ok env (commit_calls s) = true →
  let run := save_bacteria env true bacteria_data "update" s in
  run.1 = Ok true
  ∧ length (db run.2) = length (db s)
  ∧ (∀ j : nat, j ≠ i → db run.2 !! j = db s !! j)
  ∧ ∃ row : Dict,
      db run.2 !! i = Some row
      ∧ (∀ key : string,
           is_Some (bacteria_data !! key) →
           row !! key = bacteria_data !! key)
      ∧ (∀ key : string,
           bacteria_data !! key = None → key ≠ "updated_at" →
           row !! key = existing !! key).
Proof.
  intros Hcols Hid Hex Hc run. subst run.
  unfold save_bacteria, try_except_Exception, bind. simpl.
  rewrite Hid. st_unfold. rewrite Hex. simpl.
  unfold db_commit, bind. st_unfold. rewrite Hc. simpl.
  unfold find_existing in Hex. apply list_find_Some in Hex as (Hi & _ & _).
  split_and!; try done.
  - by rewrite length_insert.
  - intros j Hj. by rewrite list_lookup_insert_ne.
  - exists (update_row existing bacteria_data). split_and!.
    + apply list_lookup_insert_eq. by eapply lookup_lt_Some.
    + intros key [x Hx]. unfold update_row.
      rewrite Hx. apply lookup_union_Some_l.
      apply map_lookup_filter_Some. split; [done|]. simpl.
      apply Hcols. apply elem_of_dom. by exists x.
    + intros key Hkey _. unfold update_row.
      apply lookup_union_r. apply map_lookup_filter_None.
      by left.
Qed.

Lemma save_bacteria_update_in_place_witness :
  let s := initial_state [row_A] NoFile in
  let run := save_bacteria env_ok true data_B "update" s in
  run.1 = Ok true ∧ db run.2 = [data_B].
Proof.
  intros s run.
  destruct (save_bacteria_update_in_place env_ok data_B (PStr "X001")
              0 row_A s) as (Hr & _).
  - assert (Hc : bool_decide (dom data_B ⊆ Bacteria_columns) = true)
      by (vm_compute; reflexivity).
    by apply bool_decide_eq_true in Hc.
  - vm_compute. reflexivity.
  - vm_compute. reflexivity.
  - reflexivity.
  - split; [exact Hr|]. vm_compute. reflexivity.
Defined.

(** X12.  A policy that is none of ["skip"], ["update"], ["force"] is
    handled exactly as ["update"]. *)
Theorem save_bacteria_unknown_action_is_update (env : Env)
    (db_session : bool) (bacteria_data : Dict) (duplicate_action : string)
    (s : State) :
  duplicate_action ≠ "skip" →
  duplicate_action ≠ "update" →
  duplicate_action ≠ "force" →
  save_bacteria env db_session bacteria_data duplicate_action s
  = save_bacteria env db_session bacteria_data "update" s.
Proof.
  intros Hskip Hupdate Hforce. unfold save_bacteria.
  apply String.eqb_neq in Hskip, Hupdate, Hforce.
  rewrite Hskip, Hupdate, Hforce. reflexivity.
Qed.

Lemma save_bacteria_unknown_action_is_update_witness :
  save_bacteria env_ok true data_B "replace" (initial_state [row_A] NoFile)
  = save_bacteria env_ok true data_B "update" (initial_state [row_A] NoFile).
Proof.
  apply (save_bacteria_unknown_action_is_update env_ok true data_B "replace");
    discriminate.
Defined.

(** X13.  The ["force"] policy can lose the record: the delete is
    committed before the insert is tried, so when the commit of the
    insert fails, [save_bacteria] returns [False] and the old row is
    gone. *)
Theorem save_bacteria_force_can_lose_the_row (env : Env)
    (bacteria_data : Dict) (v : pyval) (i : nat) (existing : Dict)
    (s : State) :
  bacteria_data !! "bacteria_id" = Some v →
  find_existing (db s) v = Some (i, existing) →
  commit_ok env (commit_calls s) = true →
  commit_ok env (S (commit_calls s)) = false →
  let run := save_bacteria env true bacteria_data "force" s in
  run.1 = Ok false
  ∧ db run.2 = delete i (db s)
  ∧ length (db run.2) = pred (length (db s)).
Proof.
  intros Hid Hex Hc1 Hc2 run. subst run.
  unfold save_bacteria, try_except_Exception, bind. simpl.
  rewrite Hid. st_unfold. rewrite Hex. simpl.
  unfold db_commit, insert_bacteria, Bacteria_new, bind. st_unfold.
  rewrite Hc1. simpl.
  unfold find_existing in Hex. apply list_find_Some in Hex as (Hi & _ & _).
  apply lookup_lt_Some in Hi.
  assert (Hlen : length (delete i (db s)) = pred (length (db s))).
  { rewrite length_delete by (apply lookup_lt_is_Some_2; done). lia. }
  case_bool_decide as Hcols; simpl.
  - unfold db_commit, bind. st_unfold. rewrite Hc2. simpl. done.
  - done.
Qed.

Lemma save_bacteria_force_can_lose_the_row_witness :
  let env := mkEnv (requests_get env_ok) (parse_bacteria_page env_ok)
                   (fun n => Nat.eqb n 0) in
  let run := save_bacteria env true data_B "force"
               (initial_state [row_A] NoFile) in
  run.1 = Ok false ∧ db run.2 = [].
Proof.
  intros env run.
  destruct (save_bacteria_force_can_lose_the_row env data_B (PStr "X001")
              0 row_A (initial_state [row_A] NoFile)) as (Hr & Hdb & _).
  - vm_compute. reflexivity.
  - vm_compute. reflexivity.
  - reflexivity.
  - reflexivity.
  - split; [exact Hr|exact Hdb].
Defined.

(** X14.  Under any policy other than ["force"], a call that returns
    [False] has left the rows of the table as they were. *)
Theorem save_bacteria_failure_keeps_rows (env : Env) (db_session : bool)
    (bacteria_data : Dict) (duplicate_action : string) (s : State) :
  duplicate_action ≠ "force" →
  let run := save_bacteria env db_session bacteria_data duplicate_action s in
  run.1 = Ok false →
  db run.2 = db s.
Proof.
  intros Hforce run. subst run. apply String.eqb_neq in Hforce.
  unfold save_bacteria. destruct db_session; simpl; [|done].
  unfold try_except_Exception, bind, insert_bacteria, Bacteria_new,
    db_commit, db_rollback, bind.
  st_unfold. rewrite Hforce.
  destruct (bacteria_data !! "bacteria_id") as [v|]; simpl; [|done].
  destruct (find_existing (db s) v) as [[i existing]|]; simpl.
  - destruct (String.eqb duplicate_action "skip"); simpl; [done|].
    destruct (String.eqb duplicate_action "update"); simpl;
      destruct (commit_ok env (commit_calls s)); simpl; done.
  - case_bool_decide; simpl; [|done].
    destruct (commit_ok env (commit_calls s)); simpl; done.
Qed.

Lemma save_bacteria_failure_keeps_rows_witness :
  let nameless : Dict := {[ "name" := PStr "B" ]} in
  db (save_bacteria env_ok true nameless "update"
        (initial_state [row_A] NoFile)).2 = [row_A].
Proof.
  intros nameless.
  apply (save_bacteria_failure_keeps_rows env_ok true nameless "update"
           (initial_state [row_A] NoFile)).
  - discriminate.
  - vm_compute. reflexivity.
Defined.

(** * More of [_save_batch_to_db] *)

Section BatchPersistence.

Context (env : Env).

Lemma unique_ids_singleton (row : Dict) : unique_ids [row] = true.
Proof.
  unfold unique_ids. apply bool_decide_eq_true. simpl.
  unfold filter. simpl. case_decide; repeat constructor.
  apply not_elem_of_nil.
Qed.

Lemma col_update_row (existing data : Dict) (v : pyval) :
  data !! "bacteria_id" = Some v →
  col (update_row existing data) "bacteria_id" = v.
Proof.
  intros Hid. unfold col, update_row.
  erewrite lookup_union_Some_l; [done|].
  apply map_lookup_filter_Some. split; [done|]. simpl.
  unfold Bacteria_columns. rewrite elem_of_list_to_set.
  apply list_elem_of_further, list_elem_of_here.
Qed.

Lemma find_existing_ids (rows : list Dict) (v : pyval) :
  is_Some (find_existing rows v)
  ↔ is_Some (list_find (fun c => c = v)
               ((fun row => col row "bacteria_id" ) <$> rows)).
Proof.
  rewrite list_find_fmap. unfold find_existing.
  rewrite fmap_is_Some. done.
Qed.

(** Staging a batch: the identifiers of the persistent rows stay as they
    are, the pending objects only grow, and every record staged can be
    found, among the rows or among the pending objects. *)
Lemma stage_batch_spec (batch_data rows added rows' added' : list Dict) :
  stage_batch batch_data rows added = Ok (rows', added') →
  (fun row => col row "bacteria_id") <$> rows'
  = (fun row => col row "bacteria_id") <$> rows
  ∧ (∃ new, added' = added ++ new
            ∧ Forall (fun row =>
                 find_existing rows (col row "bacteria_id") = None
                 ∧ row ∈ batch_data
                 ∧ dom row ⊆ Bacteria_columns) new)
  ∧ ∀ data, data ∈ batch_data →
      ∃ v, data !! "bacteria_id" = Some v
           ∧ (is_Some (find_existing rows v)
              ∨ ∃ row, row ∈ added' ∧ col row "bacteria_id" = v).
Proof.
  revert rows added. induction batch_data as [|data rest IH];
    intros rows added Hst; simpl in Hst.
  { injection Hst as <- <-. split_and!; try done.
    - exists []. by rewrite app_nil_r.
    - intros data Hd. by apply elem_of_nil in Hd. }
  destruct (data !! "bacteria_id") as [v|] eqn:Hid; [|done].
  assert (Hfind : ∀ (rs1 rs2 : list Dict) (w : pyval),
    (fun row => col row "bacteria_id") <$> rs1
    = (fun row => col row "bacteria_id") <$> rs2 →
    is_Some (find_existing rs1 w) ↔ is_Some (find_existing rs2 w)).
  { intros rs1 rs2 w Heq. by rewrite !find_existing_ids, Heq. }
  destruct (find_existing rows v) as [[i existing]|] eqn:Hex.
  - apply IH in Hst as (Hids & (new & -> & Hnew) & Hall).
    assert (Hkeep : (fun row => col row "bacteria_id")
                      <$> <[i:=update_row existing data]> rows
                    = (fun row => col row "bacteria_id") <$> rows).
    { unfold find_existing in Hex.
      apply list_find_Some in Hex as (Hi & Hc & _).
      rewrite list_fmap_insert, (col_update_row _ _ v Hid).
      apply list_insert_id. rewrite list_lookup_fmap, Hi. simpl.
      by f_equal. }
    split_and!.
    + by rewrite Hids.
    + exists new. split; [done|].
      eapply Forall_impl; [exact Hnew|]. intros row (Hn & Hin & Hcols).
      split_and!; try done.
      * destruct (find_existing rows (col row "bacteria_id")) eqn:Hf;
          [|done].
        assert (is_Some (find_existing (<[i:=update_row existing data]> rows)
                           (col row "bacteria_id"))) as [x Hx].
        { apply (Hfind _ rows); [done|]. by eexists. }
        congruence.
      * by apply list_elem_of_further.
    + intros d Hd. apply elem_of_cons in Hd as [->|Hd].
      * exists v. split; [done|]. left. by eexists.
      * destruct (Hall d Hd) as (w & Hw & Hor). exists w. split; [done|].
        destruct Hor as [Hs|?]; [left|by right].
        by apply (Hfind _ _ w Hkeep).
  - unfold Bacteria_new in Hst. case_bool_decide as Hcols; [|done].
    apply IH in Hst as (Hids & (new & -> & Hnew) & Hall).
    split_and!; try done.
    + exists (data :: new). rewrite <- app_assoc. split; [done|].
      constructor.
      * unfold col at 1. rewrite Hid. simpl. split_and!; try done.
        apply list_elem_of_here.
      * eapply Forall_impl; [exact Hnew|]. intros row (Hn & Hin & Hc).
        split_and!; try done. by apply list_elem_of_further.
    + intros d Hd. apply elem_of_cons in Hd as [->|Hd].
      * exists v. split; [done|]. right. exists data. split.
        -- rewrite !elem_of_app, list_elem_of_singleton. auto.
        -- unfold col. by rewrite Hid.
      * apply (Hall d Hd).
Qed.

(** The pending objects after a successful staging are the records whose
    identifier no row has, in the order of the batch. *)
Lemma stage_batch_added (batch_data rows added rows' added' : list Dict) :
  stage_batch batch_data rows added = Ok (rows', added') →
  added' = added
           ++ filter (fun data =>
                        find_existing rows (col data "bacteria_id") = None)
                     batch_data.
Proof.
  revert rows added. induction batch_data as [|data rest IH];
    intros rows added Hst; simpl in Hst.
  { injection Hst as <- <-. by rewrite app_nil_r. }
  destruct (data !! "bacteria_id") as [v|] eqn:Hid; [|done].
  assert (Hcol : col data "bacteria_id" = v) by (unfold col; by rewrite Hid).
  destruct (find_existing rows v) as [[i existing]|] eqn:Hex.
  - pose proof Hst as Hst'. apply IH in Hst as ->.
    rewrite filter_cons_False by (rewrite Hcol, Hex; done).
    f_equal. apply list_filter_iff. intros d.
    unfold find_existing in Hex. apply list_find_Some in Hex as (Hi & Hc & _).
    assert (Hkeep : (fun row => col row "bacteria_id")
                      <$> <[i:=update_row existing data]> rows
                    = (fun row => col row "bacteria_id") <$> rows).
    { rewrite list_fmap_insert, (col_update_row _ _ v Hid).
      apply list_insert_id. rewrite list_lookup_fmap, Hi. simpl. by f_equal. }
    by rewrite !eq_None_not_Some, !find_existing_ids, Hkeep.
  - unfold Bacteria_new in Hst. case_bool_decide; [|done].
    apply IH in Hst as ->.
    rewrite filter_cons_True by (rewrite Hcol; done).
    by rewrite <- app_assoc.
Qed.

Lemma lookup_two_split {A : Type} (l : list A) (i j : nat) (a b : A) :
  (i < j)%nat → l !! i = Some a → l !! j = Some b →
  ∃ l1 l2 l3, l = l1 ++ a :: l2 ++ b :: l3.
Proof.
  intros Hij Hi Hj.
  rewrite <- (take_drop_middle l i a Hi).
  assert (Hj' : drop (S i) l !! (j - S i)%nat = Some b).
  { rewrite lookup_drop. rewrite <- Hj. f_equal. lia. }
  rewrite <- (take_drop_middle _ _ _ Hj'). eauto.
Qed.

Lemma twice_not_NoDup {A : Type} (l1 l2 l3 : list A) (v : A) :
  ¬ NoDup (l1 ++ v :: l2 ++ v :: l3).
Proof.
  intros Hnd. apply NoDup_app in Hnd as (_ & _ & Hnd).
  apply NoDup_cons in Hnd as [Hin _]. apply Hin.
  rewrite elem_of_app, elem_of_cons. auto.
Qed.

(** When [_save_batch_to_db] returns, it has staged the whole batch and
    committed the staged rows followed by the pending objects. *)
Lemma save_batch_to_db_ok (batch_data : list Dict) (s : State) :
  (_save_batch_to_db env batch_data s).1 = Ok tt →
  ∃ rows added,
    stage_batch batch_data (db s) [] = Ok (rows, added)
    ∧ unique_ids added = true
    ∧ db (_save_batch_to_db env batch_data s).2 = rows ++ added.
Proof.
  unfold _save_batch_to_db, try_except_Exception, db_rollback, db_commit, bind.
  st_unfold.
  destruct (stage_batch batch_data (db s) []) as [[rows added]|[|msg]];
    simpl; [|done..].
  destruct (unique_ids added) eqn:Hu; simpl; [|done].
  destruct (commit_ok env (commit_calls s)); simpl; [|done].
  intros _. by exists rows, added.
Qed.

End BatchPersistence.

(** X15.  The batch path applies the ["update"] policy: handing a batch
    of one record to [_save_batch_to_db] leaves the table exactly as
    [save_bacteria] with ["update"] does for that record, and succeeds
    exactly when that call returns [True]. *)
Theorem batch_of_one_is_update (env : Env) (data : Dict) (s : State) :
  db (_save_batch_to_db env [data] s).2
  = db (save_bacteria env true data "update" s).2
  ∧ ((_save_batch_to_db env [data] s).1 = Ok tt
     ↔ (save_bacteria env true data "update" s).1 = Ok true).
Proof.
  unfold _save_batch_to_db, save_bacteria, try_except_Exception, db_rollback,
    insert_bacteria, db_commit, bind.
  st_unfold.
  destruct (data !! "bacteria_id") as [v|]; simpl; [|done].
  destruct (find_existing (db s) v) as [[i existing]|]; simpl.
  - rewrite app_nil_r.
    destruct (commit_ok env (commit_calls s)); simpl; done.
  - unfold Bacteria_new. case_bool_decide; simpl; [|done].
    rewrite unique_ids_singleton.
    destruct (commit_ok env (commit_calls s)); simpl; done.
Qed.

(** X16.  After a batch save that returned, every record of the batch has
    an identifier and a row with that identifier is in the table; the
    rows that were there before are still there, in place, with the
    identifiers they had. *)
Theorem saved_batch_is_found (env : Env) (batch_data : list Dict)
    (s : State) :
  (_save_batch_to_db env batch_data s).1 = Ok tt →
  let rows' := db (_save_batch_to_db env batch_data s).2 in
  (fun row => col row "bacteria_id") <$> take (length (db s)) rows'
  = (fun row => col row "bacteria_id") <$> db s
  ∧ ∀ data : Dict,
      data ∈ batch_data →
      ∃ v : pyval,
        data !! "bacteria_id" = Some v ∧ is_Some (find_existing rows' v).
Proof.
  intros Hok rows'. subst rows'.
  destruct (save_batch_to_db_ok env batch_data s Hok)
    as (rows & added & Hst & _ & ->).
  destruct (stage_batch_spec _ _ _ _ _ Hst) as (Hids & _ & Hall).
  assert (Hlen : length rows = length (db s)).
  { apply (f_equal length) in Hids. by rewrite !length_fmap in Hids. }
  split.
  - rewrite <- Hlen, take_app_length. done.
  - intros data Hd. destruct (Hall data Hd) as (v & Hv & Hor).
    exists v. split; [done|].
    destruct Hor as [Hs|(row & Hrow & Hc)].
    + apply find_existing_ids. rewrite fmap_app.
      apply find_existing_ids in Hs. rewrite <- Hids in Hs.
      destruct Hs as [[j c] Hj]. eexists.
      by apply list_find_app_l.
    + unfold find_existing. eapply list_find_elem_of; [|exact Hc].
      rewrite elem_of_app. by right.
Qed.

Lemma saved_batch_is_found_witness :
  let s := initial_state [row_A] NoFile in
  (_save_batch_to_db env_ok [data_B] s).1 = Ok tt
  ∧ is_Some (find_existing (db (_save_batch_to_db env_ok [data_B] s).2)
               (PStr "X001")).
Proof.
  intros s.
  assert (Hok : (_save_batch_to_db env_ok [data_B] s).1 = Ok tt)
    by (vm_compute; reflexivity).
  split; [exact Hok|].
  destruct (saved_batch_is_found env_ok [data_B] s Hok) as (_ & Hall).
  destruct (Hall data_B (list_elem_of_here _ _)) as (v & Hv & Hfound).
  assert (Hid : data_B !! "bacteria_id" = Some (PStr "X001"))
    by (vm_compute; reflexivity).
  rewrite Hid in Hv. injection Hv as <-. exact Hfound.
Defined.

(** X17.  Two records of one batch that carry the same identifier, not
    NULL and not yet in the table, make the whole batch fail: the session
    does not flush before a query ([autoflush=False]), so both are added
    and the commit violates the unique index.  [_save_batch_to_db]
    raises and the table is as before. *)
Theorem duplicate_new_id_fails_the_batch (env : Env)
    (batch_data : list Dict) (s : State) (i j : nat) (d1 d2 : Dict)
    (v : pyval) :
  i ≠ j →
  batch_data !! i = Some d1 →
  batch_data !! j = Some d2 →
  d1 !! "bacteria_id" = Some v →
  d2 !! "bacteria_id" = Some v →
  v ≠ PNone →
  find_existing (db s) v = None →
  (∃ msg : string,
     (_save_batch_to_db env batch_data s).1 = Raise (Exception msg))
  ∧ db (_save_batch_to_db env batch_data s).2 = db s.
Proof.
  intros Hij Hi Hj Hv1 Hv2 Hnn Hnone.
  destruct (save_batch_to_db_spec env batch_data s) as (evs & _ & Hres).
  destruct Hres as [[Hok _]|(msg & Hr & Hdb & _)]; [exfalso|eauto].
  destruct (save_batch_to_db_ok env batch_data s Hok)
    as (rows & added & Hst & Huniq & _).
  apply stage_batch_added in Hst. simpl in Hst. subst added.
  unfold unique_ids in Huniq. apply bool_decide_eq_true in Huniq.
  assert (Hc1 : col d1 "bacteria_id" = v) by (unfold col; by rewrite Hv1).
  assert (Hc2 : col d2 "bacteria_id" = v) by (unfold col; by rewrite Hv2).
  assert (Hsplit : ∃ a b l1 l2 l3,
            batch_data = l1 ++ a :: l2 ++ b :: l3
            ∧ col a "bacteria_id" = v ∧ col b "bacteria_id" = v).
  { destruct (decide (i < j)%nat).
    - destruct (lookup_two_split batch_data i j d1 d2) as (l1 & l2 & l3 & ?);
        [lia|done|done|]. by exists d1, d2, l1, l2, l3.
    - destruct (lookup_two_split batch_data j i d2 d1) as (l1 & l2 & l3 & ?);
        [lia|done|done|]. by exists d2, d1, l1, l2, l3. }
  destruct Hsplit as (a & b & l1 & l2 & l3 & -> & Ha & Hb).
  revert Huniq.
  rewrite filter_app, filter_cons_True by (rewrite Ha; done).
  rewrite filter_app, filter_cons_True by (rewrite Hb; done).
  rewrite fmap_app, fmap_cons, fmap_app, fmap_cons, Ha, Hb.
  rewrite filter_app, filter_cons_True by done.
  rewrite filter_app, filter_cons_True by done.
  apply twice_not_NoDup.
Qed.

Lemma duplicate_new_id_fails_the_batch_witness :
  let s := initial_state [row_A] NoFile in
  let twin : Dict := {[ "bacteria_id" := PStr "X009" ]} in
  db (_save_batch_to_db env_ok [twin; data_B; twin] s).2 = [row_A].
Proof.
  intros s twin.
  destruct (duplicate_new_id_fails_the_batch env_ok [twin; data_B; twin] s
              0 2 twin twin (PStr "X009")) as (_ & Hdb).
  - lia.
  - reflexivity.
  - reflexivity.
  - vm_compute. reflexivity.
  - vm_compute. reflexivity.
  - discriminate.
  - vm_compute. reflexivity.
  - exact Hdb.
Defined.

(** * What a run leaves for the next one *)

Section RunLeaves.

Context (env : Env) (batch_size : Z) (max_bacteria : option Z)
        (discovered : list string).
Context (HB : batch_size ≠ 0).


End RunLeaves.





(** ** What the last save keeps *)

Section CheckpointsKept.

Context (env : Env) (batch_size : Z) (max_bacteria : option Z)
        (discovered : list string).
Context (HB : batch_size ≠ 0).

(** In the state in which the [finally] clause runs, the sets hold every
    identifier of every record saved so far. *)
Lemma process_batches_keeps_checkpoints (s0 : State) :
  let last_idx :=
    Progress.last_processed_idx (loaded_progress (progress_file s0)) in
  ∃ (s1 : State) (evs : list event),
    (process_batches env batch_size max_bacteria discovered s0).2
    = after_final_save last_idx s1
    ∧ trace s1 = trace s0 ++ evs
    ∧ Forall (record_within (successful_ids s1) (failed_ids s1))
             (saved_records evs).
Proof.
  intros last_idx.
  set (J := fun s : State =>
    ∃ evs, trace s = trace s0 ++ evs
      ∧ Forall (record_within (successful_ids s) (failed_ids s))
               (saved_records evs)).
  destruct (process_batches_inv env batch_size max_bacteria discovered
              (fun _ => J) J s0 HB) as (s1 & (evs & Htr & Hall) & ->).
  - exists []. rewrite app_nil_r. split; [done|]. apply Forall_nil_2.
  - intros k rest s s' r (evs & Htr & Hall) Hout.
    apply batch_summary in Hout as (evs' & Htr' & _ & _ & _ & Hcases).
    assert (J s') as HJ; [|by destruct r].
    exists (evs ++ evs'). rewrite Htr', Htr, app_assoc.
    split; [done|]. rewrite saved_records_app.
    destruct Hcases as [(-> & -> & -> & _)
                       |(-> & Hp & _ & _ & HS' & HF' & _)].
    + by rewrite app_nil_r.
    + apply Forall_app. split.
      * eapply Forall_impl; [exact Hall|].
        intros p [H1 H2]. split; intros x Hx; set_solver.
      * apply Forall_singleton. rewrite Hp. split; simpl; intros x Hx;
          by apply elem_of_elements in Hx.
  - done.
  - intros s (evs & Htr & Hall).
    exists (evs ++ [EvCommit]). simpl. rewrite Htr, app_assoc.
    rewrite saved_records_app. simpl. rewrite app_nil_r. done.
  - intros msg s (evs & Htr & Hall).
    exists (evs ++ [EvCommit]). simpl. rewrite Htr, app_assoc.
    rewrite saved_records_app. simpl. rewrite app_nil_r. done.
  - by exists s1, evs.
Qed.

End CheckpointsKept.

(** X20.  The save of the [finally] clause is the last save of a run and
    loses nothing an earlier save of the run recorded: every identifier
    of every record saved in the loop is in the final record, in the same
    set. *)
Theorem final_save_keeps_every_checkpoint (env : Env) (batch_size : Z)
    (max_bacteria : option Z) (discovered : list string) (s0 : State) :
  batch_size ≠ 0 →
  ∃ (evs : list event) (checkpoints : list Progress.t) (final : Progress.t),
    trace (process_batches env batch_size max_bacteria discovered s0).2
    = trace s0 ++ evs
    ∧ saved_records evs = checkpoints ++ [final]
    ∧ ∀ c : Progress.t,
        c ∈ checkpoints →
        (∀ x, x ∈ Progress.successful_ids c →
              x ∈ Progress.successful_ids final)
        ∧ (∀ x, x ∈ Progress.failed_ids c → x ∈ Progress.failed_ids final).
Proof.
  intros HB.
  destruct (process_batches_keeps_checkpoints env batch_size max_bacteria
              discovered HB s0) as (s1 & evs & -> & Htr & Hall).
  eexists (evs ++ [_]), (saved_records evs), _. simpl.
  rewrite Htr, app_assoc. split; [done|].
  rewrite saved_records_app. split; [done|].
  intros c Hc. rewrite Forall_forall in Hall.
  destruct (Hall c Hc) as [H1 H2].
  unfold final_progress. simpl.
  split; intros x Hx; apply elem_of_elements; auto.
Qed.

Lemma final_save_keeps_every_checkpoint_witness :
  ∃ (evs : list event) (checkpoints : list Progress.t) (final : Progress.t),
    trace (process_batches env_ok 2 None three_ids
             (initial_state [] NoFile)).2 = [] ++ evs
    ∧ saved_records evs = checkpoints ++ [final].
Proof.
  destruct (final_save_keeps_every_checkpoint env_ok 2 None
              three_ids (initial_state [] NoFile))
    as (evs & cps & final & Htr & Hsv & _).
  - lia.
  - exists evs, cps, final. split; [exact Htr|exact Hsv].
Defined.

(** * A fresh run that goes through *)

Section FreshRun.

Context (env : Env) (batch_size : Z) (bacteria_ids : list string).
Context (Hpos : 0 < batch_size).

(** A turn that returns has scraped exactly its to-process list, in
    order, and added exactly that list to the two sets. *)
Lemma batch_ok_scraped (batch_idx : Z) (s s' : State) :
  batch_outcome env batch_size bacteria_ids batch_idx s (Ok tt) s' →
  let tp := to_process (successful_ids s) (failed_ids s)
              (batch_ids batch_size bacteria_ids batch_idx) in
  ∃ evs : list event,
    trace s' = trace s ++ evs
    ∧ scraped_ids evs = tp
    ∧ successful_ids s' ∪ failed_ids s'
      = successful_ids s ∪ failed_ids s ∪ list_to_set tp
    ∧ (NoDup tp → successful_ids s ## failed_ids s →
       successful_ids s' ## failed_ids s').
Proof.
  intros Hout tp.
  pose proof (batch_summary env batch_size bacteria_ids batch_idx s s' _ Hout)
    as (evs0 & Htr0 & _ & _ & _ & Hcases).
  inversion Hout as [Hnil| |r s'' evs1 evs2 bd ls lf tp' p
      Hne Hall Hsc Hperm Hlen Hfail Hpersist Htrace Hprog Hfile Herr Hr];
    subst.
  - exists []. fold tp in Hnil. rewrite Hnil, app_nil_r.
    split_and!; try done. set_solver.
  - exists (evs1 ++ evs2 ++ [EvSaveProgress p; EvCommit]).
    split; [done|].
    rewrite !scraped_ids_app, Hsc.
    assert (Hsc2 : scraped_ids evs2 = []).
    { destruct Hpersist as [(_ & -> & _)|[(_ & -> & _)|(_ & [-> | ->] & _)]];
        done. }
    rewrite Hsc2. simpl. rewrite app_nil_r.
    destruct Hcases as [(_ & _ & _ & _ & _ & _ & _ & Hok)
                       |(_ & _ & _ & _ & _ & _ & Hun & Hdj)].
    + by specialize (Hok eq_refl).
    + done.
Qed.

Lemma filter_all {A : Type} (P : A → Prop) `{∀ x, Decision (P x)}
    (l : list A) :
  Forall P l → filter P l = l.
Proof.
  induction 1 as [|x l Hx _ IH]; [done|].
  rewrite filter_cons_True by done. by rewrite IH.
Qed.

Lemma take_batch (k : Z) :
  0 ≤ k →
  take (Z.to_nat ((k + 1) * batch_size)) bacteria_ids
  = take (Z.to_nat (k * batch_size)) bacteria_ids
    ++ batch_ids batch_size bacteria_ids k.
Proof.
  intros Hk. rewrite (batch_ids_take_drop batch_size Hpos) by done.
  rewrite take_take_drop. f_equal. nia.
Qed.

(** With distinct identifiers and the earlier batches decided, nothing of
    batch [k] is decided yet. *)
Lemma to_process_fresh (k : Z) (S F : gset string) :
  0 ≤ k → NoDup bacteria_ids →
  S ∪ F = list_to_set (take (Z.to_nat (k * batch_size)) bacteria_ids) →
  to_process S F (batch_ids batch_size bacteria_ids k)
  = batch_ids batch_size bacteria_ids k.
Proof.
  intros Hk Hnd Hun.
  rewrite <- (take_drop (Z.to_nat (k * batch_size)) bacteria_ids) in Hnd.
  apply NoDup_app in Hnd as (_ & Hdisj & _).
  unfold to_process. apply filter_all. apply Forall_forall.
  intros x Hx.
  rewrite batch_ids_take_drop in Hx by done.
  apply elem_of_take in Hx as (i & Hi & _).
  apply list_elem_of_lookup_2 in Hi.
  assert (Hnot : x ∉ S ∪ F).
  { rewrite Hun, elem_of_list_to_set. intros Hin. by apply (Hdisj x). }
  set_solver.
Qed.

(** The loop over all batches of a fresh run, when it returns. *)
Lemma fresh_loop (s : State) :
  NoDup bacteria_ids →
  successful_ids s = ∅ → failed_ids s = ∅ →
  let loop :=
    for_each (batch_indices batch_size (-1) bacteria_ids)
             (process_batch env batch_size bacteria_ids) s in
  loop.1 = Ok tt →
  ∃ evs : list event,
    trace loop.2 = trace s ++ evs
    ∧ scraped_ids evs = bacteria_ids
    ∧ successful_ids loop.2 ∪ failed_ids loop.2 = list_to_set bacteria_ids
    ∧ successful_ids loop.2 ## failed_ids loop.2.
Proof.
  intros Hnd HS HF loop Hok. subst loop.
  set (total := total_batches (Z.of_nat (length bacteria_ids)) batch_size).
  set (I := fun (rest : list Z) (s' : State) =>
    ∃ k evs,
      0 ≤ k ∧ rest = py_range k total
      ∧ trace s' = trace s ++ evs
      ∧ scraped_ids evs = take (Z.to_nat (k * batch_size)) bacteria_ids
      ∧ successful_ids s' ∪ failed_ids s'
        = list_to_set (take (Z.to_nat (k * batch_size)) bacteria_ids)
      ∧ successful_ids s' ## failed_ids s').
  pose proof (for_each_inv (process_batch env batch_size bacteria_ids)
                I (fun _ _ => True)) as Hloop.
  specialize (Hloop ltac:(
    intros k rest s1 HI;
    pose proof (process_batch_outcome env batch_size bacteria_ids k s1)
      as Hout;
    destruct (process_batch env batch_size bacteria_ids k s1) as [[[]|e] s2];
      [|exact Logic.I];
    simpl in Hout;
    destruct HI as (k0 & evs & Hk0 & Hrest & Htr & Hsc & Hun & Hdj);
    assert (Hk : k0 < total ∧ k = k0 ∧ rest = py_range (k0 + 1) total) by
      (destruct (Z.lt_ge_cases k0 total) as [Hlt|Hge];
       [rewrite py_range_cons in Hrest by done; by simplify_eq
       |unfold py_range in Hrest;
        replace (Z.to_nat (total - k0)) with 0%nat in Hrest by lia; done]);
    destruct Hk as (Hlt & -> & ->);
    apply batch_ok_scraped in Hout as (evs' & Htr' & Hsc' & Hun' & Hdj');
    rewrite (to_process_fresh k0 _ _ Hk0 Hnd Hun) in Hsc', Hun', Hdj';
    exists (k0 + 1), (evs ++ evs');
    rewrite take_batch by done;
    split_and!;
    [lia|done|by rewrite Htr', Htr, app_assoc
    |by rewrite scraped_ids_app, Hsc, Hsc'
    |rewrite Hun', Hun, list_to_set_app_L; done
    |apply Hdj'; [|done];
     eapply sublist_NoDup; [exact Hnd|apply py_slice_sublist]])).
  specialize (Hloop (batch_indices batch_size (-1) bacteria_ids) s).
  destruct (for_each (batch_indices batch_size (-1) bacteria_ids)
              (process_batch env batch_size bacteria_ids) s) as [r s'].
  simpl in Hok. subst r.
  destruct Hloop as (k & evs & Hk & Hrest & Htr & Hsc & Hun & Hdj).
  { exists 0, []. rewrite app_nil_r, HS, HF. simpl.
    split_and!; try done; set_solver. }
  assert (Hall : take (Z.to_nat (k * batch_size)) bacteria_ids = bacteria_ids).
  { apply take_ge.
    assert (total ≤ k).
    { destruct (Z.lt_ge_cases k total) as [Hlt|]; [|lia].
      rewrite py_range_cons in Hrest by done. done. }
    pose proof (total_batches_ceil batch_size Hpos
                  (Z.of_nat (length bacteria_ids))) as [_ Hceil].
    fold total in Hceil. nia. }
  rewrite Hall in Hsc, Hun. exists evs. simpl. done.
Qed.

End FreshRun.

Section FreshRunEnds.

Context (env : Env) (batch_size : Z) (max_bacteria : option Z)
        (discovered : list string).
Context (Hpos : 0 < batch_size).

(** A fresh run over distinct identifiers whose log records no error ran
    the loop to its end and committed the final log. *)
Lemma clean_fresh_run (s0 : State) :
  let bacteria_ids := apply_limit max_bacteria discovered in
  let s' := (process_batches env batch_size max_bacteria discovered s0).2 in
  NoDup bacteria_ids →
  loaded_progress (progress_file s0) = zero_progress →
  error_message (scrape_log s') = None →
  ∃ (s1 : State) (evs : list event),
    s' = after_final_save (-1) (after_finalize bacteria_ids s1)
    ∧ trace s1 = trace s0 ++ evs
    ∧ scraped_ids evs = bacteria_ids
    ∧ successful_ids s1 ∪ failed_ids s1 = list_to_set bacteria_ids
    ∧ successful_ids s1 ## failed_ids s1.
Proof.
  intros bacteria_ids s' Hnd Hload Herr. subst s'.
  rewrite (process_batches_cases batch_size max_bacteria discovered Hpos)
    in Herr |- *.
  fold bacteria_ids in Herr |- *. rewrite Hload in Herr |- *.
  change (Progress.last_processed_idx zero_progress) with (-1) in Herr |- *.
  pose proof (fresh_loop env batch_size bacteria_ids Hpos (after_load s0)
                Hnd) as Hloop.
  unfold after_load in Hloop at 1 2. rewrite Hload in Hloop.
  specialize (Hloop eq_refl eq_refl). simpl in Hloop.
  destruct (for_each (batch_indices batch_size (-1) bacteria_ids)
              (process_batch env batch_size bacteria_ids) (after_load s0))
    as [[[]|e] s1]; simpl in Herr |- *; [|done].
  destruct (commit_ok env (commit_calls s1)); simpl in Herr |- *; [|done].
  destruct (Hloop eq_refl) as (evs & Htr & Hsc & Hun & Hdj).
  exists s1, evs. split_and!; try done.
Qed.

End FreshRunEnds.

(** X21.  A fresh run (no progress file, an unreadable one, or one holding
    the zero record) over pairwise distinct identifiers whose scrape log
    ends without an error message has passed every identifier to
    [scrape_bacteria] exactly once, in discovery order: the scraped
    identifiers, in the order of the calls, are the (limited) discovery
    list itself. *)
Theorem clean_fresh_run_scrapes_each_id_once (env : Env) (batch_size : Z)
    (max_bacteria : option Z) (discovered : list string) (s0 : State) :
  let bacteria_ids := apply_limit max_bacteria discovered in
  let s' := (process_batches env batch_size max_bacteria discovered s0).2 in
  0 < batch_size →
  NoDup bacteria_ids →
  loaded_progress (progress_file s0) = zero_progress →
  error_message (scrape_log s') = None →
  ∃ evs : list event,
    trace s' = trace s0 ++ evs
    ∧ scraped_ids evs = bacteria_ids.
Proof.
  intros bacteria_ids s' Hpos Hnd Hload Herr.
  destruct (clean_fresh_run env batch_size max_bacteria discovered Hpos s0
              Hnd Hload Herr) as (s1 & evs & Hs' & Htr & Hsc & _).
  fold s' in Hs'. fold bacteria_ids in Hs', Hsc.
  exists (evs ++ [EvCommit; EvSaveProgress
                    (final_progress (-1) (after_finalize bacteria_ids s1))]).
  split.
  - rewrite Hs'. simpl. rewrite Htr. by rewrite <- !app_assoc.
  - rewrite scraped_ids_app, Hsc. simpl. by rewrite app_nil_r.
Qed.

Lemma clean_fresh_run_scrapes_each_id_once_witness :
  ∃ evs : list event,
    trace (process_batches env_ok 2 None three_ids
             (initial_state [] NoFile)).2
    = trace (initial_state [] NoFile) ++ evs
    ∧ scraped_ids evs = three_ids.
Proof.
  apply (clean_fresh_run_scrapes_each_id_once env_ok 2 None three_ids
           (initial_state [] NoFile)).
  - lia.
  - assert (Hc : bool_decide (NoDup three_ids) = true)
      by (vm_compute; reflexivity).
    by apply bool_decide_eq_true in Hc.
  - reflexivity.
  - vm_compute. reflexivity.
Defined.

(** X22.  At the end of such a run the counts of the scrape log add up:
    [total_urls] is the number of (limited) discovered identifiers, and
    [successful_scrapes] and [failed_scrapes] sum to it. *)
Theorem clean_fresh_run_counts_add_up (env : Env) (batch_size : Z)
    (max_bacteria : option Z) (discovered : list string) (s0 : State) :
  let bacteria_ids := apply_limit max_bacteria discovered in
  let s' := (process_batches env batch_size max_bacteria discovered s0).2 in
  0 < batch_size →
  NoDup bacteria_ids →
  loaded_progress (progress_file s0) = zero_progress →
  error_message (scrape_log s') = None →
  ∃ ok failed : nat,
    total_urls (scrape_log s') = Some (length bacteria_ids)
    ∧ successful_scrapes (scrape_log s') = Some ok
    ∧ failed_scrapes (scrape_log s') = Some failed
    ∧ (ok + failed = length bacteria_ids)%nat.
Proof.
  intros bacteria_ids s' Hpos Hnd Hload Herr.
  destruct (clean_fresh_run env batch_size max_bacteria discovered Hpos s0
              Hnd Hload Herr) as (s1 & evs & Hs' & _ & _ & Hun & Hdj).
  fold s' in Hs'. fold bacteria_ids in Hs', Hun.
  exists (size (successful_ids s1)), (size (failed_ids s1)).
  rewrite Hs'. simpl. split_and!; try done.
  rewrite <- size_union by done. rewrite Hun.
  by apply size_list_to_set.
Qed.

Lemma clean_fresh_run_counts_add_up_witness :
  ∃ ok failed : nat,
    total_urls (scrape_log (process_batches env_ok 2 None three_ids
                              (initial_state [] NoFile)).2)
    = Some (length three_ids)
    ∧ successful_scrapes (scrape_log (process_batches env_ok 2 None three_ids
                                        (initial_state [] NoFile)).2)
      = Some ok
    ∧ failed_scrapes (scrape_log (process_batches env_ok 2 None three_ids
                                    (initial_state [] NoFile)).2)
      = Some failed
    ∧ (ok + failed = length three_ids)%nat.
Proof.
  apply (clean_fresh_run_counts_add_up env_ok 2 None three_ids
           (initial_state [] NoFile)).
  - lia.
  - assert (Hc : bool_decide (NoDup three_ids) = true)
      by (vm_compute; reflexivity).
    by apply bool_decide_eq_true in Hc.
  - reflexivity.
  - vm_compute. reflexivity.
Defined.

(** * Where a resumed run starts *)

Section ResumePosition.

Context (env : Env) (batch_size : Z) (max_bacteria : option Z)
        (discovered : list string).
Context (Hpos : 0 < batch_size).

Lemma process_batches_positions (s0 : State) :
  let bacteria_ids := apply_limit max_bacteria discovered in
  let cursor :=
    Progress.last_processed_idx (loaded_progress (progress_file s0)) in
  -1 ≤ cursor →
  ∃ evs : list event,
    trace (process_batches env batch_size max_bacteria discovered s0).2
    = trace s0 ++ evs
    ∧ ∀ x : string,
        x ∈ scraped_ids evs →
        ∃ i : nat,
          bacteria_ids !! i = Some x
          ∧ start_batch cursor batch_size * batch_size ≤ Z.of_nat i.
Proof.
  intros bacteria_ids cursor Hc.
  set (start := start_batch cursor batch_size).
  assert (Hstart : 0 ≤ start).
  { unfold start, start_batch. apply Z.div_pos; lia. }
  set (P := fun x : string =>
    ∃ i : nat, bacteria_ids !! i = Some x
               ∧ start * batch_size ≤ Z.of_nat i).
  set (J := fun s : State =>
    ∃ evs, trace s = trace s0 ++ evs ∧ ∀ x, x ∈ scraped_ids evs → P x).
  set (I := fun (rest : list Z) (s : State) =>
    (∀ k, k ∈ rest → start ≤ k) ∧ J s).
  assert (Hadd : ∀ (s : State) (evs evs' : list event),
    trace s = trace s0 ++ evs →
    (∀ x, x ∈ scraped_ids evs → P x) →
    scraped_ids evs' = [] →
    ∃ evs2, trace s ++ evs' = trace s0 ++ evs2
            ∧ ∀ x, x ∈ scraped_ids evs2 → P x).
  { intros s evs evs' Htr Hall Hnil. exists (evs ++ evs').
    rewrite Htr, app_assoc. split; [done|].
    intros x. rewrite scraped_ids_app, Hnil, app_nil_r. apply Hall. }
  destruct (process_batches_inv env batch_size max_bacteria discovered
              I J s0 ltac:(lia)) as (s1 & (evs & Htr & Hall) & ->).
  - fold bacteria_ids. fold cursor. split.
    + intros k Hk. unfold batch_indices in Hk.
      apply elem_of_py_range in Hk. fold start in Hk. lia.
    + exists []. rewrite app_nil_r. split; [done|].
      intros x Hx. by apply elem_of_nil in Hx.
  - intros k rest s s' r (Hks & evs & Htr & Hall) Hout.
    fold bacteria_ids in Hout.
    apply batch_summary in Hout as (evs' & Htr' & _ & Hsc & _).
    assert (Hk : start ≤ k) by apply Hks, list_elem_of_here.
    assert (HJ : J s').
    { exists (evs ++ evs'). rewrite Htr', Htr, app_assoc. split; [done|].
      intros x. rewrite scraped_ids_app, elem_of_app.
      intros [Hx|Hx]; [by apply Hall|].
      apply Hsc, elem_of_to_process in Hx as (_ & _ & Hx).
      apply list_elem_of_lookup in Hx as (j & Hj).
      rewrite (batch_ids_lookup batch_size Hpos) in Hj by lia.
      case_decide; [|done].
      exists (Z.to_nat (k * batch_size) + j)%nat. split; [done|]. nia. }
    destruct r; [|done]. split; [|done].
    intros k' Hk'. apply Hks. by apply list_elem_of_further.
  - by intros s (_ & HJ).
  - intros s (evs & Htr & Hall). unfold J. simpl.
    by apply (Hadd s evs [EvCommit]).
  - intros msg s (evs & Htr & Hall). unfold J. simpl.
    by apply (Hadd s evs [EvCommit]).
  - simpl. by apply (Hadd s1 evs [_]).
Qed.

End ResumePosition.

(** X23.  A resumed run trusts the stored cursor, not the stored sets: it
    passes to [scrape_bacteria] only identifiers found at a position of
    the (limited) discovery list at or after the first position of the
    batch it resumes at, [(cursor + 1) // batch_size * batch_size].  An
    identifier that only occurs before that position is never scraped,
    even when the progress file lists it neither as successful nor as
    failed. *)
Theorem resumed_run_scrapes_only_from_the_resume_batch (env : Env)
    (batch_size : Z) (max_bacteria : option Z) (discovered : list string)
    (s0 : State) :
  let bacteria_ids := apply_limit max_bacteria discovered in
  let cursor :=
    Progress.last_processed_idx (loaded_progress (progress_file s0)) in
  0 < batch_size →
  -1 ≤ cursor →
  ∃ evs : list event,
    trace (process_batches env batch_size max_bacteria discovered s0).2
    = trace s0 ++ evs
    ∧ ∀ x : string,
        x ∈ scraped_ids evs →
        ∃ i : nat,
          bacteria_ids !! i = Some x
          ∧ start_batch cursor batch_size * batch_size ≤ Z.of_nat i.
Proof.
  intros bacteria_ids cursor Hpos Hc.
  by apply process_batches_positions.
Qed.

Lemma resumed_run_scrapes_only_from_the_resume_batch_witness :
  ∃ evs : list event,
    trace (process_batches env_ok 2 None three_ids
             (initial_state [] (Stored (Progress.mk 1 [] [])))).2
    = trace (initial_state [] (Stored (Progress.mk 1 [] []))) ++ evs
    ∧ ∀ x : string,
        x ∈ scraped_ids evs →
        ∃ i : nat, three_ids !! i = Some x ∧ 2 ≤ Z.of_nat i.
Proof.
  apply (resumed_run_scrapes_only_from_the_resume_batch env_ok 2 None
           three_ids (initial_state [] (Stored (Progress.mk 1 [] [])))).
  - lia.
  - simpl. lia.
Defined.

(** * The limit on the number of identifiers *)

(** X24.  The limit of lines 92-94 keeps a prefix of the discovery list,
    in order.  No limit, a limit of [0] (falsy in Python) and a limit of
    at least the length keep the whole list; a positive limit [m] keeps
    the first [m] identifiers; a negative limit [m] is not rejected: the
    slice [bacteria_ids[:m]] drops the last [-m] identifiers (all of them
    when there are no more than that). *)
Theorem limit_keeps_a_prefix (max_bacteria : option Z)
    (bacteria_ids : list string) :
  apply_limit max_bacteria bacteria_ids
  = take (match max_bacteria with
          | None => length bacteria_ids
          | Some m =>
              if m =? 0 then length bacteria_ids
              else if 0 <? m then Z.to_nat m
              else (length bacteria_ids - Z.to_nat (- m))%nat
          end) bacteria_ids.
Proof.
  destruct max_bacteria as [m|]; simpl; [|by rewrite firstn_all].
  unfold apply_limit.
  destruct (Z.eqb_spec m 0) as [->|Hm]; simpl; [by rewrite firstn_all|].
  destruct (Z.ltb_spec m (Z.of_nat (length bacteria_ids))) as [Hlt|Hge].
  - unfold py_slice. cbv zeta.
    change (0 <? 0) with false. cbv iota.
    rewrite (Z.min_l 0) by lia. change (Z.to_nat 0) with 0%nat.
    rewrite drop_0.
    destruct (Z.ltb_spec m 0) as [Hneg|Hnn].
    + destruct (Z.ltb_spec 0 m) as [?|_]; [lia|]. f_equal. lia.
    + destruct (Z.ltb_spec 0 m) as [_|?]; [|lia]. f_equal. lia.
  - destruct (Z.ltb_spec 0 m) as [_|?].
    + rewrite take_ge by lia. done.
    + rewrite take_ge; [done|]. destruct bacteria_ids; simpl in *; lia.
Qed.
